(** * things3-cli: snapshot ledger, rollback planner, rollback executor and
      rate limiter

    A shallow embedding of
      - [src/config.ts]                      (rate-limit constants),
      - [src/core/rate-limiter.ts]           (class [RateLimiter]),
      - [src/types/snapshot.ts]              (record types),
      - [src/db/snapshot-repo.ts]            (class [SnapshotRepository]),
      - [src/db/connection.ts]               ([withTransaction]),
      - [src/services/snapshot-manager.ts]   (class [SnapshotManager]),
      - [src/commands/rollback.ts]           ([rollbackCommand]),
      - [src/core/url-executor.ts]           ([executeUrl]),
      - [src/core/auth.ts]                   ([maskToken], [isValidTokenFormat]),
      - [src/commands/add.ts], [src/commands/add-project.ts],
    followed by the properties of the specification that concern them and by
    further properties of the code.

    Conventions.  JavaScript numbers that hold counts and millisecond
    timestamps are integers ([Z], [nat] for lengths).  A function that can
    throw returns a [Completion]; a method that mutates its object returns the
    object's new state next to its result, also when it throws. *)

From stdpp Require Import base option list strings gmap.
From Stdlib Require Import ZArith Lia Ascii DecimalString.

Local Open Scope Z_scope.

(** ** Completions *)

(** What a [throw] carries: an [Error] object with its [message], or any
    other value ([error instanceof Error] is false for it). *)
Inductive Thrown : Type :=
| ErrorObject (message : string)
| NonError.

(** The outcome of evaluating a call: it returns or it throws. *)
Inductive Completion (E A : Type) : Type :=
| Returned (a : A)
| Threw (e : E).
Arguments Returned {E A} a.
Arguments Threw {E A} e.

Definition is_Returned {E A} (c : Completion E A) : bool :=
  match c with Returned _ => true | Threw _ => false end.

Definition is_Threw {E A} (c : Completion E A) : bool :=
  match c with Returned _ => false | Threw _ => true end.

(** The decimal digits of an integer, as a template literal and
    [JSON.stringify] print a number that holds one. *)
Definition decimal (n : Z) : string := NilZero.string_of_int (Z.to_int n).

(** ** src/config.ts *)

Definition RATE_LIMIT_MAX_CALLS : Z := 250.
Definition RATE_LIMIT_WINDOW_MS : Z := 10000.

(** ** src/core/rate-limiter.ts *)

Module RateLimiter.

  (** The fields of a [RateLimiter] instance. *)
Record t : Type := mk {
    maxCalls : Z;
    windowMs : Z;
    calls : list Z
  }.

Definition with_calls (this : t) (cs : list Z) : t :=
    {| maxCalls := maxCalls this; windowMs := windowMs this; calls := cs |}.

  (** [constructor(maxCalls = RATE_LIMIT_MAX_CALLS, windowMs = RATE_LIMIT_WINDOW_MS)]:
      an omitted argument is [None]. *)
Definition new (maxCalls windowMs : option Z) : t :=
    {| maxCalls := default RATE_LIMIT_MAX_CALLS maxCalls;
       windowMs := default RATE_LIMIT_WINDOW_MS windowMs;
       calls := [] |}.

  (** The [Error] that [acquire] throws.  Its message interpolates
      [maxCalls], [windowMs / 1000] and [Math.ceil(getWaitTime() / 1000)];
      the three numbers are kept, their rendering as text is not modelled. *)
Inductive Error : Type :=
  | RateLimitExceeded (maxCalls windowMs waitSeconds : Z).

  (** [Math.ceil(x / 1000)] on an integer [x]. *)
Definition ceil_div_1000 (x : Z) : Z := - ((- x) / 1000).

  Section Clock.

    (** [Date_now k] is what the [k]-th evaluation of [Date.now()] returns.
        Every method threads the index of the next reading. *)
Variable Date_now : nat -> Z.

    (** [private cleanup(): void] *)
Definition cleanup (this : t) (k : nat) : t * nat :=
      let now := Date_now k in
      let windowStart := now - windowMs this in
      (with_calls this (filter (fun timestamp => windowStart < timestamp) (calls this)),
       S k).

    (** [canAcquire(): boolean] *)
Definition canAcquire (this : t) (k : nat) : bool * t * nat :=
      let '(this, k) := cleanup this k in
      (bool_decide (Z.of_nat (length (calls this)) < maxCalls this), this, k).

    (** [getWaitTime(): number] *)
Definition getWaitTime (this : t) (k : nat) : Z * t * nat :=
      let '(this, k) := cleanup this k in
      if bool_decide (Z.of_nat (length (calls this)) < maxCalls this) then (0, this, k)
      else
        match calls this with
        | [] => (0, this, k)                      (* [oldestCall] is undefined *)
        | oldestCall :: _ =>
            if bool_decide (oldestCall = 0) then (0, this, k)   (* [!oldestCall] *)
            else
              let waitUntil := oldestCall + windowMs this in
              (Z.max 0 (waitUntil - Date_now k), this, S k)
        end.

    (** [acquire(): void] *)
Definition acquire (this : t) (k : nat) : Completion Error unit * t * nat :=
      let '(this, k) := cleanup this k in
      if bool_decide (maxCalls this <= Z.of_nat (length (calls this))) then
        let '(wait, this', k') := getWaitTime this k in
        (Threw (RateLimitExceeded (maxCalls this) (windowMs this) (ceil_div_1000 wait)),
         this', k')
      else
        (Returned (), with_calls this (calls this ++ [Date_now k]), S k).

    (** [getCount(): number] *)
Definition getCount (this : t) (k : nat) : nat * t * nat :=
      let '(this, k) := cleanup this k in
      (length (calls this), this, k).

    (** [getRemainingCapacity(): number] *)
Definition getRemainingCapacity (this : t) (k : nat) : Z * t * nat :=
      let '(this, k) := cleanup this k in
      (Z.max 0 (maxCalls this - Z.of_nat (length (calls this))), this, k).

    (** [reset(): void] *)
Definition reset (this : t) : t := with_calls this [].

    (** [getWindowMs(): number] *)
Definition getWindowMs (this : t) : Z := windowMs this.

    (** [n] calls of [acquire] in a row, as a test's [for] loop makes them:
        the completions in call order and the final state.  A throwing call
        does not stop the loop here; the results say which calls threw. *)
Fixpoint acquire_times (n : nat) (this : t) (k : nat)
      : list (Completion Error unit) * t * nat :=
      match n with
      | O => ([], this, k)
      | S n' =>
          let '(r, this1, k1) := acquire this k in
          let '(rs, this2, k2) := acquire_times n' this1 k1 in
          (r :: rs, this2, k2)
      end.


    (** [async acquireAsync(): Promise<void>].  The timer only lets time
        pass: what it waited shows in the next reading of the clock.  A
        rejected promise is a [Threw]. *)
Definition acquireAsync (this : t) (k : nat) : Completion Error unit * t * nat :=
      let '(waitTime, this, k) := getWaitTime this k in
      acquire this k.

  End Clock.

  (** The timestamps of [this] that are still inside the window that trails
      the reading [now]. *)
Definition in_window (this : t) (now : Z) : list Z :=
    filter (fun timestamp => now - windowMs this < timestamp) (calls this).


  (** The limiter holds no more timestamps than [maxCalls] allows. *)
Definition within_capacity (this : t) : Prop :=
    Z.of_nat (length (calls this)) <= Z.max 0 (maxCalls this).

End RateLimiter.

(** ** State and exceptions *)

(** A computation over a mutable store [S] that returns or throws; the store
    it leaves behind is kept in both cases. *)
Definition Stateful (S A : Type) : Type := S -> Completion Thrown A * S.

Definition st_ret {S A} (a : A) : Stateful S A := fun s => (Returned a, s).

Definition st_throw {S A} (e : Thrown) : Stateful S A := fun s => (Threw e, s).

Definition st_bind {S A B} (m : Stateful S A) (f : A -> Stateful S B) : Stateful S B :=
  fun s =>
    match m s with
    | (Returned a, s') => f a s'
    | (Threw e, s') => (Threw e, s')
    end.

(** [m] keeps the property [P] of the store, whether it returns or throws. *)
Definition preserves {S A} (P : S -> Prop) (m : Stateful S A) : Prop :=
  forall s, P s -> P (m s).2.

(** What [m] returns on [s], if it returns. *)
Definition returns {S A} (m : Stateful S A) (s : S) (a : A) (s' : S) : Prop :=
  m s = (Returned a, s').

(** [for (const x of xs) body(x)] *)
Fixpoint st_for {S A} (xs : list A) (body : A -> Stateful S unit) : Stateful S unit :=
  match xs with
  | [] => st_ret ()
  | x :: xs' => st_bind (body x) (fun _ => st_for xs' body)
  end.

Declare Scope stateful_scope.
Delimit Scope stateful_scope with stateful.
Notation "'let*' x ':=' m 'in' k" := (st_bind m (fun x => k))
  (at level 10, x name, m at level 100, k at level 200) : stateful_scope.
Notation "m ';;' k" := (st_bind m (fun _ => k))
  (at level 100, k at level 200, right associativity) : stateful_scope.

(** ** The host runtime

    [JSON.parse], [JSON.stringify] and the truthiness of a value belong to
    the JavaScript engine, not to the repository.  The development is
    parametric in them and in [JSValue], the type of the values that
    [Record<string, unknown>] and [JSON.parse] range over. *)
Class Host (JSValue : Type) : Type := {
  (** [JSON.parse(text)]; throws a [SyntaxError] on text that is not JSON *)
  JSON_parse : string -> Completion Thrown JSValue;
  (** [JSON.stringify(value)] on an object; throws a [TypeError] on a
      [BigInt] member or a cyclic structure *)
  JSON_stringify : JSValue -> Completion Thrown string;
  (** [JSON.stringify(fields)] on a [string[]], which never throws *)
  JSON_stringify_strings : list string -> string;
  (** the truthiness of a value, as [if (value)] tests it *)
  ToBoolean : JSValue -> bool
}.

(** The quotation mark that the description templates contain. *)
Definition dquote : string := String "034"%char EmptyString.

(** ** src/types/snapshot.ts *)

Module Snapshot.
Record t : Type := mk {
    id : string;
    description : string;
    operationType : string;
    command : string;
    createdAt : string;
    rolledBackAt : option string;
    status : string
  }.
End Snapshot.

Module SnapshotCreatedItem.
Record t : Type := mk {
    id : Z;
    snapshotId : string;
    thingsId : string;
    itemType : string;
    title : string;
    parentId : option string
  }.
End SnapshotCreatedItem.

Module SnapshotModifiedItem.
Record t : Type := mk {
    id : Z;
    snapshotId : string;
    thingsId : string;
    itemType : string;
    previousState : string;
    modifiedFields : string
  }.
End SnapshotModifiedItem.

Module SnapshotStatusChange.
Record t : Type := mk {
    id : Z;
    snapshotId : string;
    thingsId : string;
    itemType : string;
    previousStatus : string;
    newStatus : string
  }.
End SnapshotStatusChange.

(** [interface SnapshotDetails extends Snapshot] *)
Module SnapshotDetails.
Record t : Type := mk {
    snapshot : Snapshot.t;
    createdItems : list SnapshotCreatedItem.t;
    modifiedItems : list SnapshotModifiedItem.t;
    statusChanges : list SnapshotStatusChange.t
  }.
Definition id (d : t) : string := Snapshot.id (snapshot d).
Definition description (d : t) : string := Snapshot.description (snapshot d).
Definition operationType (d : t) : string := Snapshot.operationType (snapshot d).
Definition rolledBackAt (d : t) : option string := Snapshot.rolledBackAt (snapshot d).
Definition status (d : t) : string := Snapshot.status (snapshot d).
End SnapshotDetails.

Module CreateSnapshotInput.
Record t : Type := mk {
    description : string;
    operationType : string;
    command : string
  }.
End CreateSnapshotInput.

Module RollbackResult.
Record t : Type := mk {
    success : bool;
    snapshotId : string;
    itemsRolledBack : nat;
    itemsFailed : nat;
    errors : list string
  }.
End RollbackResult.

(** ** src/db/migrations.ts: the schema

    [snapshots] has the primary key [id]; it is a finite map from [id] to
    the other columns.  The three child tables have an integer primary key
    that SQLite assigns, a [snapshot_id] that references [snapshots(id)]
    with [ON DELETE CASCADE], and are kept in insertion order. *)

Module SnapshotColumns.
Record t : Type := mk {
    description : string;
    operation_type : string;
    command : string;
    created_at : string;
    rolled_back_at : option string;
    status : string
  }.
End SnapshotColumns.

(** Row types of src/db/snapshot-repo.ts *)

Module SnapshotRow.
Record t : Type := mk {
    id : string;
    description : string;
    operation_type : string;
    command : string;
    created_at : string;
    rolled_back_at : option string;
    status : string
  }.
End SnapshotRow.

Module SnapshotCreatedRow.
Record t : Type := mk {
    id : Z;
    snapshot_id : string;
    things_id : string;
    item_type : string;
    title : string;
    parent_id : option string
  }.
End SnapshotCreatedRow.

Module SnapshotModifiedRow.
Record t : Type := mk {
    id : Z;
    snapshot_id : string;
    things_id : string;
    item_type : string;
    previous_state : string;
    modified_fields : string
  }.
End SnapshotModifiedRow.

Module SnapshotStatusRow.
Record t : Type := mk {
    id : Z;
    snapshot_id : string;
    things_id : string;
    item_type : string;
    previous_status : string;
    new_status : string
  }.
End SnapshotStatusRow.

(** The contents of the database file. *)
Record DB : Type := mkDB {
  snapshots : gmap string SnapshotColumns.t;
  snapshot_created : list SnapshotCreatedRow.t;
  snapshot_modified : list SnapshotModifiedRow.t;
  snapshot_status : list SnapshotStatusRow.t
}.

(** The database that [runMigrations] leaves behind on a new file. *)
Definition empty_db : DB :=
  {| snapshots := ∅; snapshot_created := []; snapshot_modified := [];
     snapshot_status := [] |}.

(** The key SQLite gives a row inserted without one: one more than the
    largest key in the table, 1 in an empty table. *)
Definition next_rowid (ids : list Z) : Z := 1 + foldr Z.max 0 ids.

(** What the clock and the random generator answer during one call. *)
Module Env.
Record t : Type := mk {
    (** [Date.now()] *)
    Date_now : Z;
    (** [Math.random().toString(36).substring(2, 8)] *)
    random_suffix : string;
    (** SQLite's [datetime('now')] *)
    datetime_now : string;
    (** [new Date().toISOString()] *)
    toISOString : string
  }.
End Env.

(** ** src/db/snapshot-repo.ts *)

Module SnapshotRepository.

  (** [generateSnapshotId()] *)
Definition generateSnapshotId (env : Env.t) : string :=
    let timestamp := Env.Date_now env in
    let random := Env.random_suffix env in
    "snap-" +:+ decimal timestamp +:+ "-" +:+ random.

  (** Row to model converters *)

Definition rowToSnapshot (row : SnapshotRow.t) : Snapshot.t :=
    {| Snapshot.id := SnapshotRow.id row;
       Snapshot.description := SnapshotRow.description row;
       Snapshot.operationType := SnapshotRow.operation_type row;
       Snapshot.command := SnapshotRow.command row;
       Snapshot.createdAt := SnapshotRow.created_at row;
       Snapshot.rolledBackAt := SnapshotRow.rolled_back_at row;
       Snapshot.status := SnapshotRow.status row |}.

Definition rowToCreatedItem (row : SnapshotCreatedRow.t) : SnapshotCreatedItem.t :=
    {| SnapshotCreatedItem.id := SnapshotCreatedRow.id row;
       SnapshotCreatedItem.snapshotId := SnapshotCreatedRow.snapshot_id row;
       SnapshotCreatedItem.thingsId := SnapshotCreatedRow.things_id row;
       SnapshotCreatedItem.itemType := SnapshotCreatedRow.item_type row;
       SnapshotCreatedItem.title := SnapshotCreatedRow.title row;
       SnapshotCreatedItem.parentId := SnapshotCreatedRow.parent_id row |}.

Definition rowToModifiedItem (row : SnapshotModifiedRow.t) : SnapshotModifiedItem.t :=
    {| SnapshotModifiedItem.id := SnapshotModifiedRow.id row;
       SnapshotModifiedItem.snapshotId := SnapshotModifiedRow.snapshot_id row;
       SnapshotModifiedItem.thingsId := SnapshotModifiedRow.things_id row;
       SnapshotModifiedItem.itemType := SnapshotModifiedRow.item_type row;
       SnapshotModifiedItem.previousState := SnapshotModifiedRow.previous_state row;
       SnapshotModifiedItem.modifiedFields := SnapshotModifiedRow.modified_fields row |}.

Definition rowToStatusChange (row : SnapshotStatusRow.t) : SnapshotStatusChange.t :=
    {| SnapshotStatusChange.id := SnapshotStatusRow.id row;
       SnapshotStatusChange.snapshotId := SnapshotStatusRow.snapshot_id row;
       SnapshotStatusChange.thingsId := SnapshotStatusRow.things_id row;
       SnapshotStatusChange.itemType := SnapshotStatusRow.item_type row;
       SnapshotStatusChange.previousStatus := SnapshotStatusRow.previous_status row;
       SnapshotStatusChange.newStatus := SnapshotStatusRow.new_status row |}.

  (** The row that [SELECT id, description, ... WHERE id = ?] returns for
      the stored columns of [id]. *)
Definition row_of (id : string) (c : SnapshotColumns.t) : SnapshotRow.t :=
  {| SnapshotRow.id := id;
     SnapshotRow.description := SnapshotColumns.description c;
     SnapshotRow.operation_type := SnapshotColumns.operation_type c;
     SnapshotRow.command := SnapshotColumns.command c;
     SnapshotRow.created_at := SnapshotColumns.created_at c;
     SnapshotRow.rolled_back_at := SnapshotColumns.rolled_back_at c;
     SnapshotRow.status := SnapshotColumns.status c |}.

  (** [SELECT id, description, ... FROM snapshots WHERE id = ?] *)
Definition select_snapshot (db : DB) (id : string) : option SnapshotRow.t :=
  row_of id <$> snapshots db !! id.

  (** [getSnapshot(id: string): Snapshot | null] *)
Definition getSnapshot (db : DB) (id : string) : option Snapshot.t :=
    match select_snapshot db id with
    | None => None
    | Some row => Some (rowToSnapshot row)
    end.

  (** [getSnapshotDetails(id: string): SnapshotDetails | null] *)
Definition getSnapshotDetails (db : DB) (id : string) : option SnapshotDetails.t :=
    match getSnapshot db id with
    | None => None
    | Some snapshot =>
        let createdItems :=
          filter (fun r => SnapshotCreatedRow.snapshot_id r = id) (snapshot_created db) in
        let modifiedItems :=
          filter (fun r => SnapshotModifiedRow.snapshot_id r = id) (snapshot_modified db) in
        let statusChanges :=
          filter (fun r => SnapshotStatusRow.snapshot_id r = id) (snapshot_status db) in
        Some {| SnapshotDetails.snapshot := snapshot;
                SnapshotDetails.createdItems := rowToCreatedItem <$> createdItems;
                SnapshotDetails.modifiedItems := rowToModifiedItem <$> modifiedItems;
                SnapshotDetails.statusChanges := rowToStatusChange <$> statusChanges |}
    end.

  (** The columns of the row that [createSnapshot] inserts.  The [INSERT]
      names [description], [operation_type] and [command]; [created_at] and
      [status] take their defaults [datetime('now')] and ['active'],
      [rolled_back_at] is NULL. *)
Definition new_columns (env : Env.t) (input : CreateSnapshotInput.t) : SnapshotColumns.t :=
  {| SnapshotColumns.description := CreateSnapshotInput.description input;
     SnapshotColumns.operation_type := CreateSnapshotInput.operationType input;
     SnapshotColumns.command := CreateSnapshotInput.command input;
     SnapshotColumns.created_at := Env.datetime_now env;
     SnapshotColumns.rolled_back_at := None;
     SnapshotColumns.status := "active" |}.

  (** [createSnapshot(input: CreateSnapshotInput, id?: string): Snapshot].
      The result is [this.getSnapshot(snapshotId)!], whose [!] is erased at
      run time. *)
Definition createSnapshot (env : Env.t) (input : CreateSnapshotInput.t)
    (id : option string) : Stateful DB (option Snapshot.t) :=
  fun db =>
    let snapshotId := default (generateSnapshotId env) id in
    match snapshots db !! snapshotId with
    | Some _ => (Threw (ErrorObject "UNIQUE constraint failed: snapshots.id"), db)
    | None =>
        let db' :=
          {| snapshots := <[snapshotId := new_columns env input]> (snapshots db);
             snapshot_created := snapshot_created db;
             snapshot_modified := snapshot_modified db;
             snapshot_status := snapshot_status db |} in
        (Returned (getSnapshot db' snapshotId), db')
    end.

  (** The argument of [addSnapshotCreated]. *)
Record CreatedInput : Type := mkCreatedInput {
    ci_thingsId : string;
    ci_itemType : string;
    ci_title : string;
    ci_parentId : option string
  }.

  (** The argument of [addSnapshotStatus]. *)
Record StatusInput : Type := mkStatusInput {
    si_thingsId : string;
    si_itemType : string;
    si_previousStatus : string;
    si_newStatus : string
  }.

  (** The child tables reference [snapshots(id)]; the connection runs with
      [PRAGMA foreign_keys = ON]. *)
Definition foreign_key_failed : Thrown := ErrorObject "FOREIGN KEY constraint failed".

  (** [addSnapshotCreated(snapshotId, item): void] *)
Definition addSnapshotCreated (snapshotId : string) (item : CreatedInput)
      : Stateful DB unit :=
    fun db =>
      match snapshots db !! snapshotId with
      | None => (Threw foreign_key_failed, db)
      | Some _ =>
          let row :=
            {| SnapshotCreatedRow.id :=
                 next_rowid (SnapshotCreatedRow.id <$> snapshot_created db);
               SnapshotCreatedRow.snapshot_id := snapshotId;
               SnapshotCreatedRow.things_id := ci_thingsId item;
               SnapshotCreatedRow.item_type := ci_itemType item;
               SnapshotCreatedRow.title := ci_title item;
               SnapshotCreatedRow.parent_id := ci_parentId item |} in
          (Returned (),
           {| snapshots := snapshots db;
              snapshot_created := snapshot_created db ++ [row];
              snapshot_modified := snapshot_modified db;
              snapshot_status := snapshot_status db |})
      end.

  (** [addSnapshotStatus(snapshotId, item): void] *)
Definition addSnapshotStatus (snapshotId : string) (item : StatusInput)
      : Stateful DB unit :=
    fun db =>
      match snapshots db !! snapshotId with
      | None => (Threw foreign_key_failed, db)
      | Some _ =>
          let row :=
            {| SnapshotStatusRow.id :=
                 next_rowid (SnapshotStatusRow.id <$> snapshot_status db);
               SnapshotStatusRow.snapshot_id := snapshotId;
               SnapshotStatusRow.things_id := si_thingsId item;
               SnapshotStatusRow.item_type := si_itemType item;
               SnapshotStatusRow.previous_status := si_previousStatus item;
               SnapshotStatusRow.new_status := si_newStatus item |} in
          (Returned (),
           {| snapshots := snapshots db;
              snapshot_created := snapshot_created db;
              snapshot_modified := snapshot_modified db;
              snapshot_status := snapshot_status db ++ [row] |})
      end.

  (** [SET status = ?, rolled_back_at = ?] on the columns of one row. *)
Definition set_status (status : string) (rolledBackAt : option string)
    (c : SnapshotColumns.t) : SnapshotColumns.t :=
  {| SnapshotColumns.description := SnapshotColumns.description c;
     SnapshotColumns.operation_type := SnapshotColumns.operation_type c;
     SnapshotColumns.command := SnapshotColumns.command c;
     SnapshotColumns.created_at := SnapshotColumns.created_at c;
     SnapshotColumns.rolled_back_at := rolledBackAt;
     SnapshotColumns.status := status |}.

  (** [updateSnapshotStatus(id: string, status: SnapshotStatus): void] *)
Definition updateSnapshotStatus (env : Env.t) (id : string) (status : string)
    : Stateful DB unit :=
  fun db =>
    let rolledBackAt :=
      if bool_decide (status = "rolled-back") || bool_decide (status = "partial-rollback")
      then Some (Env.toISOString env)
      else None in
    (* [UPDATE snapshots SET status = ?, rolled_back_at = ? WHERE id = ?] *)
    (Returned (),
     {| snapshots := alter (set_status status rolledBackAt) id (snapshots db);
        snapshot_created := snapshot_created db;
        snapshot_modified := snapshot_modified db;
        snapshot_status := snapshot_status db |}).

  (** The snapshot [snapshot_id] is stored in [db] and is not among the
      [remaining] rows: a [DELETE FROM snapshots] that leaves [remaining]
      deletes it. *)
Definition deleted (remaining : gmap string SnapshotColumns.t) (db : DB)
    (snapshot_id : string) : Prop :=
    is_Some (snapshots db !! snapshot_id) /\ remaining !! snapshot_id = None.

#[global] Instance deleted_dec remaining db snapshot_id :
    Decision (deleted remaining db snapshot_id).
Proof. unfold deleted. apply _. Defined.

  (** [DELETE FROM snapshots WHERE ...] leaving [remaining], with
      [ON DELETE CASCADE] on the three child tables: the child rows of each
      deleted snapshot go with it.  A child row whose [snapshot_id] names no
      stored snapshot is not a child of a deleted row, and stays. *)
Definition cascade (remaining : gmap string SnapshotColumns.t) (db : DB) : DB :=
    {| snapshots := remaining;
       snapshot_created :=
         filter (fun r => ~ deleted remaining db (SnapshotCreatedRow.snapshot_id r))
                (snapshot_created db);
       snapshot_modified :=
         filter (fun r => ~ deleted remaining db (SnapshotModifiedRow.snapshot_id r))
                (snapshot_modified db);
       snapshot_status :=
         filter (fun r => ~ deleted remaining db (SnapshotStatusRow.snapshot_id r))
                (snapshot_status db) |}.

  (** [deleteSnapshot(id: string): boolean] *)
Definition deleteSnapshot (id : string) : Stateful DB bool :=
    fun db =>
      let changes :=
        match snapshots db !! id with Some _ => 1%nat | None => 0%nat end in
      (Returned (bool_decide (0 < changes)%nat), cascade (delete id (snapshots db)) db).

  (** [purgeOldSnapshots(days: number): number].  [is_old created_at] stands
      for SQLite's [created_at < datetime('now', '-' || days || ' days')]. *)
Definition purgeOldSnapshots (is_old : string -> bool) : Stateful DB nat :=
    fun db =>
      let remaining :=
        filter (fun kc => is_old (SnapshotColumns.created_at kc.2) = false) (snapshots db) in
      let changes := (size (snapshots db) - size remaining)%nat in
      (Returned changes, cascade remaining db).

  (** [row] is the row that [addSnapshotCreated(snapshotId, item)] inserts,
      up to its key. *)
Definition created_row_for (snapshotId : string) (item : CreatedInput)
    (row : SnapshotCreatedRow.t) : Prop :=
  SnapshotCreatedRow.snapshot_id row = snapshotId
  /\ SnapshotCreatedRow.things_id row = ci_thingsId item
  /\ SnapshotCreatedRow.item_type row = ci_itemType item
  /\ SnapshotCreatedRow.title row = ci_title item
  /\ SnapshotCreatedRow.parent_id row = ci_parentId item.

  (** [row] is the row that [addSnapshotStatus(snapshotId, item)] inserts,
      up to its key. *)
Definition status_row_for (snapshotId : string) (item : StatusInput)
    (row : SnapshotStatusRow.t) : Prop :=
  SnapshotStatusRow.snapshot_id row = snapshotId
  /\ SnapshotStatusRow.things_id row = si_thingsId item
  /\ SnapshotStatusRow.item_type row = si_itemType item
  /\ SnapshotStatusRow.previous_status row = si_previousStatus item
  /\ SnapshotStatusRow.new_status row = si_newStatus item.

  Section WithHost.
Context {JSValue : Type} {H : Host JSValue}.

    (** The argument of [addSnapshotModified]. *)
Record ModifiedInput : Type := mkModifiedInput {
      mi_thingsId : string;
      mi_itemType : string;
      mi_previousState : JSValue;
      mi_modifiedFields : list string
    }.

    (** [addSnapshotModified(snapshotId, item): void].  The two
        [JSON.stringify] calls are evaluated before the [INSERT] runs. *)
Definition addSnapshotModified (snapshotId : string) (item : ModifiedInput)
        : Stateful DB unit :=
      fun db =>
        match JSON_stringify (mi_previousState item) with
        | Threw e => (Threw e, db)
        | Returned previous_state =>
            let modified_fields := JSON_stringify_strings (mi_modifiedFields item) in
            match snapshots db !! snapshotId with
            | None => (Threw foreign_key_failed, db)
            | Some _ =>
                let row :=
                  {| SnapshotModifiedRow.id :=
                       next_rowid (SnapshotModifiedRow.id <$> snapshot_modified db);
                     SnapshotModifiedRow.snapshot_id := snapshotId;
                     SnapshotModifiedRow.things_id := mi_thingsId item;
                     SnapshotModifiedRow.item_type := mi_itemType item;
                     SnapshotModifiedRow.previous_state := previous_state;
                     SnapshotModifiedRow.modified_fields := modified_fields |} in
                (Returned (),
                 {| snapshots := snapshots db;
                    snapshot_created := snapshot_created db;
                    snapshot_modified := snapshot_modified db ++ [row];
                    snapshot_status := snapshot_status db |})
            end
        end.

    (** [row] is the row that [addSnapshotModified(snapshotId, item)]
        inserts, up to its key. *)
Definition modified_row_for (snapshotId : string) (item : ModifiedInput)
    (row : SnapshotModifiedRow.t) : Prop :=
  SnapshotModifiedRow.snapshot_id row = snapshotId
  /\ SnapshotModifiedRow.things_id row = mi_thingsId item
  /\ SnapshotModifiedRow.item_type row = mi_itemType item
  /\ JSON_stringify (mi_previousState item)
     = Returned (SnapshotModifiedRow.previous_state row)
  /\ SnapshotModifiedRow.modified_fields row
     = JSON_stringify_strings (mi_modifiedFields item).

  End WithHost.

Arguments ModifiedInput : clear implicits.

End SnapshotRepository.

(** ** src/services/snapshot-manager.ts *)

Module SnapshotManager.
  Import SnapshotRepository.

Record AddSnapshotData : Type := mkAddSnapshotData {
    add_title : string;
    add_itemType : string;
    add_thingsId : string;
    add_parentId : option string;
    add_command : string
  }.

Record StatusChangeData : Type := mkStatusChangeData {
    sc_thingsId : string;
    sc_itemType : string;
    sc_title : string;
    sc_previousStatus : string;
    sc_newStatus : string;
    sc_command : string
  }.

  (** [snapshot.id] on the value [createSnapshot] returned; reading a
      property of [null] throws a [TypeError]. *)
Definition snapshot_id (snapshot : option Snapshot.t) : Stateful DB string :=
    match snapshot with
    | Some s => st_ret (Snapshot.id s)
    | None => st_throw (ErrorObject "null is not an object (evaluating 'snapshot.id')")
    end.

  Local Open Scope stateful_scope.

  (** [createAddSnapshot(data: AddSnapshotData): Snapshot] *)
Definition createAddSnapshot (env : Env.t) (data : AddSnapshotData)
      : Stateful DB (option Snapshot.t) :=
    let* snapshot :=
      createSnapshot env
        {| CreateSnapshotInput.description :=
             "Added " +:+ add_itemType data +:+ " " +:+ dquote +:+ add_title data +:+ dquote;
           CreateSnapshotInput.operationType := "add";
           CreateSnapshotInput.command := add_command data |}
        None in
    let* id := snapshot_id snapshot in
    addSnapshotCreated id
      {| ci_thingsId := add_thingsId data;
         ci_itemType := add_itemType data;
         ci_title := add_title data;
         ci_parentId := add_parentId data |} ;;
    st_ret snapshot.

  (** [createAddProjectSnapshot(data: AddSnapshotData): Snapshot] *)
Definition createAddProjectSnapshot (env : Env.t) (data : AddSnapshotData)
      : Stateful DB (option Snapshot.t) :=
    let* snapshot :=
      createSnapshot env
        {| CreateSnapshotInput.description :=
             "Added project " +:+ dquote +:+ add_title data +:+ dquote;
           CreateSnapshotInput.operationType := "add-project";
           CreateSnapshotInput.command := add_command data |}
        None in
    let* id := snapshot_id snapshot in
    addSnapshotCreated id
      {| ci_thingsId := add_thingsId data;
         ci_itemType := "project";
         ci_title := add_title data;
         ci_parentId := add_parentId data |} ;;
    st_ret snapshot.

  (** [createStatusChangeSnapshot(data: StatusChangeData): Snapshot] *)
Definition createStatusChangeSnapshot (env : Env.t) (data : StatusChangeData)
      : Stateful DB (option Snapshot.t) :=
    let operationType :=
      if bool_decide (sc_newStatus data = "completed") then "complete" else "cancel" in
    let* snapshot :=
      createSnapshot env
        {| CreateSnapshotInput.description :=
             (if bool_decide (operationType = "complete") then "Completed" else "Canceled")
             +:+ " " +:+ sc_itemType data +:+ " " +:+ dquote +:+ sc_title data +:+ dquote;
           CreateSnapshotInput.operationType := operationType;
           CreateSnapshotInput.command := sc_command data |}
        None in
    let* id := snapshot_id snapshot in
    addSnapshotStatus id
      {| si_thingsId := sc_thingsId data;
         si_itemType := sc_itemType data;
         si_previousStatus := sc_previousStatus data;
         si_newStatus := sc_newStatus data |} ;;
    st_ret snapshot.

  (** [markRolledBack(snapshotId, status: 'rolled-back' | 'partial-rollback'): void] *)
Definition markRolledBack (env : Env.t) (snapshotId : string) (status : string)
      : Stateful DB unit :=
    updateSnapshotStatus env snapshotId status.

  Section WithHost.
Context {JSValue : Type} {H : Host JSValue}.

Record UpdateSnapshotData : Type := mkUpdateSnapshotData {
      up_thingsId : string;
      up_itemType : string;
      up_previousState : JSValue;
      up_modifiedFields : list string;
      up_command : string
    }.

Record BulkSnapshotData : Type := mkBulkSnapshotData {
      bulk_command : string;
      bulk_createdItems : list CreatedInput;
      bulk_modifiedItems : list (ModifiedInput JSValue);
      bulk_statusChanges : list StatusInput
    }.

    (** [interface RollbackAction]: the three shapes of object that
        [getRollbackPlan] builds, told apart by the [action] field.  A
        ['cancel'] has no [data]; a ['restore'] has the parsed previous
        state as [data]; a ['revert-status'] has [{ previousStatus }]. *)
Inductive RollbackAction : Type :=
    | cancel (thingsId itemType : string)
    | restore (thingsId itemType : string) (data : JSValue)
    | revert_status (thingsId itemType : string) (previousStatus : string).

    (** [action.action] *)
Definition action_name (a : RollbackAction) : string :=
      match a with
      | cancel _ _ => "cancel"
      | restore _ _ _ => "restore"
      | revert_status _ _ _ => "revert-status"
      end.

    (** [action.thingsId] *)
Definition action_thingsId (a : RollbackAction) : string :=
      match a with
      | cancel thingsId _ | restore thingsId _ _ | revert_status thingsId _ _ => thingsId
      end.

Record RollbackPlan : Type := mkRollbackPlan {
      plan_snapshotId : string;
      plan_operationType : string;
      plan_description : string;
      actions : list RollbackAction;
      warnings : list string
    }.

    (** [createUpdateSnapshot(data: UpdateSnapshotData): Snapshot] *)
Definition createUpdateSnapshot (env : Env.t) (data : UpdateSnapshotData)
        : Stateful DB (option Snapshot.t) :=
      let* snapshot :=
        createSnapshot env
          {| CreateSnapshotInput.description :=
               "Updated " +:+ up_itemType data +:+ " " +:+ up_thingsId data;
             CreateSnapshotInput.operationType := "update";
             CreateSnapshotInput.command := up_command data |}
          None in
      let* id := snapshot_id snapshot in
      addSnapshotModified id
        {| mi_thingsId := up_thingsId data;
           mi_itemType := up_itemType data;
           mi_previousState := up_previousState data;
           mi_modifiedFields := up_modifiedFields data |} ;;
      st_ret snapshot.

    (** [createBulkSnapshot(data: BulkSnapshotData): Snapshot] *)
Definition createBulkSnapshot (env : Env.t) (data : BulkSnapshotData)
        : Stateful DB (option Snapshot.t) :=
      let itemCount :=
        (length (bulk_createdItems data) + length (bulk_modifiedItems data)
         + length (bulk_statusChanges data))%nat in
      let* snapshot :=
        createSnapshot env
          {| CreateSnapshotInput.description :=
               "Bulk operation: " +:+ decimal (Z.of_nat itemCount) +:+ " items";
             CreateSnapshotInput.operationType := "json";
             CreateSnapshotInput.command := bulk_command data |}
          None in
      let* id := snapshot_id snapshot in
      st_for (bulk_createdItems data) (fun item =>
        addSnapshotCreated id
          {| ci_thingsId := ci_thingsId item;
             ci_itemType := ci_itemType item;
             ci_title := ci_title item;
             ci_parentId := ci_parentId item |}) ;;
      st_for (bulk_modifiedItems data) (fun item =>
        addSnapshotModified id
          {| mi_thingsId := mi_thingsId item;
             mi_itemType := mi_itemType item;
             mi_previousState := mi_previousState item;
             mi_modifiedFields := mi_modifiedFields item |}) ;;
      st_for (bulk_statusChanges data) (fun item =>
        addSnapshotStatus id
          {| si_thingsId := si_thingsId item;
             si_itemType := si_itemType item;
             si_previousStatus := si_previousStatus item;
             si_newStatus := si_newStatus item |}) ;;
      st_ret snapshot.

    (** The warning pushed for a status change to ['canceled']. *)
Definition canceled_warning (thingsId : string) : string :=
      "Item " +:+ thingsId +:+ " was canceled. Cancellation is irreversible in Things.".

    (** The first loop of [getRollbackPlan]: one [push] per created item. *)
Definition push_cancel_actions (createdItems : list SnapshotCreatedItem.t)
        (actions : list RollbackAction) : list RollbackAction :=
      fold_left
        (fun actions item =>
           actions ++ [cancel (SnapshotCreatedItem.thingsId item)
                              (SnapshotCreatedItem.itemType item)])
        createdItems actions.

    (** The second loop: [JSON.parse] then [push], per modified item; a
        [SyntaxError] leaves the loop and the function. *)
Fixpoint push_restore_actions (modifiedItems : list SnapshotModifiedItem.t)
        (actions : list RollbackAction) : Completion Thrown (list RollbackAction) :=
      match modifiedItems with
      | [] => Returned actions
      | item :: rest =>
          match JSON_parse (SnapshotModifiedItem.previousState item) with
          | Threw e => Threw e
          | Returned previousState =>
              push_restore_actions rest
                (actions ++ [restore (SnapshotModifiedItem.thingsId item)
                                     (SnapshotModifiedItem.itemType item)
                                     previousState])
          end
      end.

    (** The third loop: a warning for a change to ['canceled'], a
        ['revert-status'] action for any other. *)
Definition push_status_actions (statusChanges : list SnapshotStatusChange.t)
        (acc : list RollbackAction * list string) : list RollbackAction * list string :=
      fold_left
        (fun '(actions, warnings) item =>
           if bool_decide (SnapshotStatusChange.newStatus item = "canceled") then
             (actions, warnings ++ [canceled_warning (SnapshotStatusChange.thingsId item)])
           else
             (actions ++ [revert_status (SnapshotStatusChange.thingsId item)
                                        (SnapshotStatusChange.itemType item)
                                        (SnapshotStatusChange.previousStatus item)],
              warnings))
        statusChanges acc.

    (** [getRollbackPlan(snapshotId: string): RollbackPlan | null] *)
Definition getRollbackPlan (db : DB) (snapshotId : string)
        : Completion Thrown (option RollbackPlan) :=
      match getSnapshotDetails db snapshotId with
      | None => Returned None
      | Some details =>
          if bool_decide (SnapshotDetails.status details ≠ "active") then Returned None
          else
            let actions := push_cancel_actions (SnapshotDetails.createdItems details) [] in
            match push_restore_actions (SnapshotDetails.modifiedItems details) actions with
            | Threw e => Threw e
            | Returned actions =>
                let '(actions, warnings) :=
                  push_status_actions (SnapshotDetails.statusChanges details) (actions, []) in
                Returned (Some {| plan_snapshotId := SnapshotDetails.id details;
                                  plan_operationType := SnapshotDetails.operationType details;
                                  plan_description := SnapshotDetails.description details;
                                  actions := actions;
                                  warnings := warnings |})
            end
      end.

    (** *** The plan in the words of the specification *)

    (** The ['cancel'] action that compensates a created item. *)
Definition cancel_for (item : SnapshotCreatedItem.t) : RollbackAction :=
      cancel (SnapshotCreatedItem.thingsId item) (SnapshotCreatedItem.itemType item).

    (** [action] is the ['restore'] action of [item]: its data is the parsed
        stored previous state. *)
Definition restores (item : SnapshotModifiedItem.t) (action : RollbackAction) : Prop :=
      exists previousState,
        JSON_parse (SnapshotModifiedItem.previousState item) = Returned previousState
        /\ action = restore (SnapshotModifiedItem.thingsId item)
                            (SnapshotModifiedItem.itemType item) previousState.

    (** The stored previous state of [item] is JSON text. *)
Definition parseable (item : SnapshotModifiedItem.t) : Prop :=
      is_Returned (JSON_parse (SnapshotModifiedItem.previousState item)) = true.

    (** The status change went to the irreversible status. *)
Definition is_canceled (item : SnapshotStatusChange.t) : Prop :=
      SnapshotStatusChange.newStatus item = "canceled".

    (** The ['revert-status'] action of a status change. *)
Definition revert_for (item : SnapshotStatusChange.t) : RollbackAction :=
      revert_status (SnapshotStatusChange.thingsId item)
                    (SnapshotStatusChange.itemType item)
                    (SnapshotStatusChange.previousStatus item).

    (** The warning of a status change to ['canceled']. *)
Definition warning_for (item : SnapshotStatusChange.t) : string :=
      canceled_warning (SnapshotStatusChange.thingsId item).

    (** How many actions of a plan carry the name [name]. *)
Definition count_actions (name : string) (actions : list RollbackAction) : nat :=
      length (filter (fun a => action_name a = name) actions).

  End WithHost.

Arguments UpdateSnapshotData : clear implicits.
Arguments BulkSnapshotData : clear implicits.
Arguments RollbackAction : clear implicits.
Arguments RollbackPlan : clear implicits.

End SnapshotManager.

(** ** src/core/url-executor.ts: the result of a dispatched command *)

Module ExecutionResult.
Record t : Type := mk {
    success : bool;
    url : string;
    error : option string
  }.
End ExecutionResult.

(** ** src/commands/rollback.ts *)

Module Rollback.
  Import SnapshotRepository SnapshotManager.

  (** [interface RollbackOptions]; an omitted flag is [false]. *)
Record RollbackOptions : Type := mkRollbackOptions {
    dryRun : bool;
    json : bool;
    force : bool
  }.

  Section WithHost.
Context {JSValue : Type} {H : Host JSValue}.

Record RollbackCommandResult : Type := mkRollbackCommandResult {
      success : bool;
      snapshotId : string;
      plan : option (RollbackPlan JSValue);
      result : option RollbackResult.t;
      error : option string;
      warnings : option (list string)
    }.

    (** The commands that the executor sends through [ThingsClient]:
        [client.cancelTodo(id)] and
        [client.updateTodo({ id: action.thingsId, ...action.data })]. *)
Inductive ClientCall : Type :=
    | cancelTodo (id : string)
    | updateTodo (id : string) (data : JSValue).

    (** What the process sees and changes: the database and the commands
        dispatched so far, oldest first. *)
Record World : Type := mkWorld {
      db : DB;
      dispatched : list ClientCall
    }.

    (** The external application behind [ThingsClient]: what an awaited call
        settles to, given the calls dispatched before it.  It returns an
        [ExecutionResult] or rejects. *)
Variable client : list ClientCall -> ClientCall -> Completion Thrown ExecutionResult.t.

    (** The counters and the [errors] array of the execution loop, with the
        commands dispatched so far. *)
Record Progress : Type := mkProgress {
      itemsRolledBack : nat;
      itemsFailed : nat;
      errors : list string;
      sent : list ClientCall
    }.

    (** [errors.push(..); itemsFailed++] *)
Definition failed (message : string) (p : Progress) : Progress :=
      {| itemsRolledBack := itemsRolledBack p;
         itemsFailed := S (itemsFailed p);
         errors := errors p ++ [message];
         sent := sent p |}.

    (** [itemsRolledBack++] *)
Definition succeeded (p : Progress) : Progress :=
      {| itemsRolledBack := S (itemsRolledBack p);
         itemsFailed := itemsFailed p;
         errors := errors p;
         sent := sent p |}.

    (** The part of the loop body after the [switch]:
        [if (result?.success) .. else ..], where [result] is [undefined]
        when no call was made. *)
Definition classify (thingsId : string) (result : option ExecutionResult.t)
        (p : Progress) : Progress :=
      if match result with Some r => ExecutionResult.success r | None => false end
      then succeeded p
      else
        failed (default ("Failed to rollback " +:+ thingsId)
                        (result ≫= ExecutionResult.error))
               p.

    (** [result = await client.<call>], inside the [try] of the loop body:
        a rejection goes to the [catch] clause. *)
Definition dispatch (thingsId : string) (call : ClientCall) (p : Progress) : Progress :=
      let p' :=
        {| itemsRolledBack := itemsRolledBack p;
           itemsFailed := itemsFailed p;
           errors := errors p;
           sent := sent p ++ [call] |} in
      match client (sent p) call with
      | Returned result => classify thingsId (Some result) p'
      | Threw (ErrorObject message) => failed message p'
      | Threw NonError => failed "Unknown error" p'
      end.

    (** The body of [for (const action of plan.actions)]. *)
Definition rollback_action (p : Progress) (action : RollbackAction JSValue) : Progress :=
      match action with
      | cancel thingsId _ => dispatch thingsId (cancelTodo thingsId) p
      | restore thingsId _ data =>
          if ToBoolean data then dispatch thingsId (updateTodo thingsId data) p
          else classify thingsId None p
      | revert_status thingsId _ previousStatus =>
          if bool_decide (previousStatus = "open") then
            failed ("Cannot revert status for " +:+ thingsId
                    +:+ " - status changes are difficult to reverse") p
          else classify thingsId None p
      end.

    (** The whole loop, from the counters at zero. *)
Definition execute_actions (already_sent : list ClientCall)
        (actions : list (RollbackAction JSValue)) : Progress :=
      fold_left rollback_action actions
        {| itemsRolledBack := 0; itemsFailed := 0; errors := []; sent := already_sent |}.

Definition failure (snapshotId message : string) : RollbackCommandResult :=
      {| success := false; snapshotId := snapshotId; plan := None; result := None;
         error := Some message; warnings := None |}.

    (** [catch (error)] of the outer [try]. *)
Definition caught (snapshotId : string) (e : Thrown) : RollbackCommandResult :=
      failure snapshotId
        match e with ErrorObject message => message | NonError => "Unknown error" end.

    (** [rollbackCommand(snapshotId, options)].  [authToken] is what
        [getAuthToken()] returns. *)
Definition rollbackCommand (authToken : option string) (env : Env.t)
        (snapshotId : string) (options : RollbackOptions) (w : World)
        : RollbackCommandResult * World :=
      if match authToken with
         | None => true
         | Some token => bool_decide (token = EmptyString)
         end
      then
        (failure snapshotId
           ("Authentication required. Run " +:+ dquote +:+ "things3 auth setup <token>"
            +:+ dquote +:+ " first."), w)
      else
        match getRollbackPlan (db w) snapshotId with
        | Threw e => (caught snapshotId e, w)
        | Returned None =>
            match getSnapshot (db w) snapshotId with
            | None => (failure snapshotId ("Snapshot not found: " +:+ snapshotId), w)
            | Some snapshot =>
                if bool_decide (Snapshot.status snapshot ≠ "active") then
                  (failure snapshotId ("Snapshot already rolled back: " +:+ snapshotId), w)
                else (failure snapshotId "Cannot create rollback plan", w)
            end
        | Returned (Some plan) =>
            if dryRun options then
              ({| success := true; snapshotId := snapshotId; plan := Some plan;
                  result := None; error := None; warnings := Some (SnapshotManager.warnings plan) |}, w)
            else
              let p := execute_actions (dispatched w) (SnapshotManager.actions plan) in
              let status :=
                if bool_decide (itemsFailed p = 0%nat) then "rolled-back"
                else "partial-rollback" in
              match markRolledBack env snapshotId status (db w) with
              | (Threw e, db') =>
                  (caught snapshotId e, {| db := db'; dispatched := sent p |})
              | (Returned _, db') =>
                  ({| success := bool_decide (itemsFailed p = 0%nat);
                      snapshotId := snapshotId;
                      plan := Some plan;
                      result :=
                        Some {| RollbackResult.success := bool_decide (itemsFailed p = 0%nat);
                                RollbackResult.snapshotId := snapshotId;
                                RollbackResult.itemsRolledBack := itemsRolledBack p;
                                RollbackResult.itemsFailed := itemsFailed p;
                                RollbackResult.errors := errors p |};
                      error := None;
                      warnings := Some (SnapshotManager.warnings plan) |},
                   {| db := db'; dispatched := sent p |})
              end
        end.

    (** The command that the loop body sends for [action], if it sends
        one: none for a ['revert-status'], none for a ['restore'] whose data
        is falsy. *)
Definition call_of (action : RollbackAction JSValue) : option ClientCall :=
      match action with
      | cancel thingsId _ => Some (cancelTodo thingsId)
      | restore thingsId _ data =>
          if ToBoolean data then Some (updateTodo thingsId data) else None
      | revert_status _ _ _ => None
      end.

    (** The status that the executor writes for a failure count. *)
Definition final_status (itemsFailed : nat) : string :=
      match itemsFailed with O => "rolled-back" | S _ => "partial-rollback" end.

    (** One turn of the loop counts a success ... *)
Definition one_more_success (p p' : Progress) : Prop :=
  itemsRolledBack p' = S (itemsRolledBack p)
  /\ itemsFailed p' = itemsFailed p
  /\ errors p' = errors p.

    (** ... or counts a failure and pushes its one error message. *)
Definition one_more_failure (p p' : Progress) : Prop :=
  itemsRolledBack p' = itemsRolledBack p
  /\ itemsFailed p' = S (itemsFailed p)
  /\ exists message, errors p' = errors p ++ [message].

  End WithHost.

Arguments RollbackCommandResult : clear implicits.
Arguments ClientCall : clear implicits.
Arguments World : clear implicits.
Arguments Progress : clear implicits.

End Rollback.

(** ** src/db/connection.ts *)

Module Connection.

  (** An open connection: the contents of the database, and, while a
      transaction is open, the contents at its [BEGIN]. *)
Record t : Type := mk {
    contents : DB;
    at_begin : option DB
  }.

  (** A repository call made on the connection. *)
Definition on_connection {A} (m : Stateful DB A) : Stateful t A :=
    fun c =>
      let '(r, db') := m (contents c) in
      (r, {| contents := db'; at_begin := at_begin c |}).

  (** [db.run('BEGIN TRANSACTION')] *)
Definition begin_transaction : Stateful t unit :=
    fun c =>
      match at_begin c with
      | Some _ =>
          (Threw (ErrorObject "cannot start a transaction within a transaction"), c)
      | None => (Returned (), {| contents := contents c; at_begin := Some (contents c) |})
      end.

  (** [db.run('COMMIT')] *)
Definition commit : Stateful t unit :=
    fun c =>
      match at_begin c with
      | None => (Threw (ErrorObject "cannot commit - no transaction is active"), c)
      | Some _ => (Returned (), {| contents := contents c; at_begin := None |})
      end.

  (** [db.run('ROLLBACK')] *)
Definition rollback : Stateful t unit :=
    fun c =>
      match at_begin c with
      | None => (Threw (ErrorObject "cannot rollback - no transaction is active"), c)
      | Some saved => (Returned (), {| contents := saved; at_begin := None |})
      end.

  (** [withTransaction<T>(db: Database, fn: () => T): T] *)
Definition withTransaction {A} (fn : Stateful t A) : Stateful t A :=
    fun c =>
      match begin_transaction c with
      | (Threw e, c1) => (Threw e, c1)
      | (Returned _, c1) =>
          match fn c1 with
          | (Returned result, c2) =>
              (* [try]: [db.run('COMMIT')] is inside it *)
              match commit c2 with
              | (Returned _, c3) => (Returned result, c3)
              | (Threw error, c3) =>
                  match rollback c3 with
                  | (Returned _, c4) => (Threw error, c4)
                  | (Threw e, c4) => (Threw e, c4)
                  end
              end
          | (Threw error, c2) =>
              (* [catch (error)] *)
              match rollback c2 with
              | (Returned _, c3) => (Threw error, c3)
              | (Threw e, c3) => (Threw e, c3)
              end
          end
      end.

  (** A connection just opened on [db]. *)
Definition open (db : DB) : t := {| contents := db; at_begin := None |}.

End Connection.

(** ** A concrete host for examples

    A fragment of JavaScript's values that is enough to run the model on
    concrete inputs: [null], booleans, integer numbers, strings, [BigInt]s,
    arrays and plain objects.  An object is the list of its members in
    insertion order.  The fragment is faithful for objects whose keys are
    distinct and are not array indices, for strings of ASCII characters,
    for numbers that are integers of magnitude below [2^53] (which a
    JavaScript number holds exactly and prints in plain decimal), and for
    JSON text whose numbers are such integers, written without fraction or
    exponent, and whose [\u] escapes name ASCII characters.  The message of
    the [SyntaxError] that [JSON.parse] throws differs between engines; the
    model has one text for it, and the properties proved for every host do
    not depend on it. *)

Module MiniJS.

  #[local] Set Warnings "-register-all".

Inductive value : Type :=
  | VNull
  | VBool (b : bool)
  | VNumber (n : Z)
  | VString (s : string)
  | VBigInt (n : Z)
  | VArray (items : list value)
  | VObject (members : list (string * value)).

  (** Truthiness: [null], [false], [0], [0n] and the empty string are falsy. *)
Definition to_boolean (v : value) : bool :=
    match v with
    | VNull => false
    | VBool b => b
    | VNumber n | VBigInt n => negb (bool_decide (n = 0))
    | VString s => negb (bool_decide (s = EmptyString))
    | VArray _ | VObject _ => true
    end.

Definition backslash : string := String "092"%char EmptyString.

Definition hex_digit (n : N) : ascii :=
    ascii_of_N (if (n <? 10)%N then 48 + n else 87 + n)%N.

  (** One character inside a JSON string literal, as [JSON.stringify]
      writes it. *)
Definition quote_char (c : ascii) : string :=
    let n := N_of_ascii c in
    if (n =? 34)%N then backslash +:+ dquote
    else if (n =? 92)%N then backslash +:+ backslash
    else if (n =? 8)%N then backslash +:+ "b"
    else if (n =? 12)%N then backslash +:+ "f"
    else if (n =? 10)%N then backslash +:+ "n"
    else if (n =? 13)%N then backslash +:+ "r"
    else if (n =? 9)%N then backslash +:+ "t"
    else if (n <? 32)%N then
      backslash +:+ "u00" +:+ String (hex_digit (n / 16)) (String (hex_digit (n mod 16)) EmptyString)
    else String c EmptyString.

Fixpoint quote_chars (s : string) : string :=
    match s with
    | EmptyString => EmptyString
    | String c rest => quote_char c +:+ quote_chars rest
    end.

Definition quote (s : string) : string := dquote +:+ quote_chars s +:+ dquote.

Definition cannot_serialize : Thrown :=
    ErrorObject "JSON.stringify cannot serialize BigInt.".

  (** [JSON.stringify(v)] *)
Fixpoint stringify (v : value) : Completion Thrown string :=
    match v with
    | VNull => Returned "null"
    | VBool true => Returned "true"
    | VBool false => Returned "false"
    | VNumber n => Returned (decimal n)
    | VString s => Returned (quote s)
    | VBigInt _ => Threw cannot_serialize
    | VArray items =>
        let fix elements (items : list value) (separator : string) :=
          match items with
          | [] => Returned EmptyString
          | item :: rest =>
              match stringify item with
              | Threw e => Threw e
              | Returned text =>
                  match elements rest "," with
                  | Threw e => Threw e
                  | Returned texts => Returned (separator +:+ text +:+ texts)
                  end
              end
          end in
        match elements items EmptyString with
        | Threw e => Threw e
        | Returned texts => Returned ("[" +:+ texts +:+ "]")
        end
    | VObject members =>
        let fix properties (members : list (string * value)) (separator : string) :=
          match members with
          | [] => Returned EmptyString
          | (key, member) :: rest =>
              match stringify member with
              | Threw e => Threw e
              | Returned text =>
                  match properties rest "," with
                  | Threw e => Threw e
                  | Returned texts =>
                      Returned (separator +:+ quote key +:+ ":" +:+ text +:+ texts)
                  end
              end
          end in
        match properties members EmptyString with
        | Threw e => Threw e
        | Returned texts => Returned ("{" +:+ texts +:+ "}")
        end
    end.

  (** [JSON.stringify(fields)] for a [string[]] *)
Definition stringify_strings (fields : list string) : string :=
    "[" +:+ String.concat "," (quote <$> fields) +:+ "]".

  (** *** Reading JSON text *)

Definition is_whitespace (c : ascii) : bool :=
    let n := N_of_ascii c in
    (n =? 32)%N || (n =? 9)%N || (n =? 10)%N || (n =? 13)%N.

Fixpoint skip_whitespace (s : string) : string :=
    match s with
    | String c rest => if is_whitespace c then skip_whitespace rest else s
    | EmptyString => s
    end.

Definition digit_value (c : ascii) : option Z :=
    let n := N_of_ascii c in
    if (48 <=? n)%N && (n <=? 57)%N then Some (Z.of_N (n - 48)) else None.

Definition is_digit (c : ascii) : bool :=
    match digit_value c with Some _ => true | None => false end.

  (** The digits at the head of [s], added to [acc] in base ten. *)
Fixpoint read_digits (s : string) (acc : Z) : Z * string :=
    match s with
    | String c rest =>
        match digit_value c with
        | Some d => read_digits rest (10 * acc + d)
        | None => (acc, s)
        end
    | EmptyString => (acc, s)
    end.

  (** [0] or a digit string without a leading zero, not followed by a
      fraction or an exponent. *)
Definition read_natural (s : string) : option (Z * string) :=
    match s with
    | String c rest =>
        match digit_value c with
        | None => None
        | Some d =>
            let '(n, rest') := if bool_decide (d = 0) then (0, rest) else read_digits rest d in
            match rest' with
            | String c' _ =>
                if bool_decide (c' = "."%char) || bool_decide (c' = "e"%char)
                   || bool_decide (c' = "E"%char) || is_digit c'
                then None
                else Some (n, rest')
            | EmptyString => Some (n, rest')
            end
        end
    | EmptyString => None
    end.

Definition hex_value (c : ascii) : option N :=
    let n := N_of_ascii c in
    if (48 <=? n)%N && (n <=? 57)%N then Some (n - 48)%N
    else if (97 <=? n)%N && (n <=? 102)%N then Some (n - 87)%N
    else if (65 <=? n)%N && (n <=? 70)%N then Some (n - 55)%N
    else None.

  (** The character that the four hexadecimal digits of a [\u] escape name,
      when it is an ASCII character. *)
Definition escaped_unit (h1 h2 h3 h4 : ascii) : option ascii :=
    match hex_value h1, hex_value h2, hex_value h3, hex_value h4 with
    | Some d1, Some d2, Some d3, Some d4 =>
        let n := (((d1 * 16 + d2) * 16 + d3) * 16 + d4)%N in
        if (n <? 128)%N then Some (ascii_of_N n) else None
    | _, _, _, _ => None
    end.

  (** The rest of a string literal after its opening quotation mark. *)
Fixpoint read_string (s : string) : option (string * string) :=
    match s with
    | EmptyString => None
    | String c rest =>
        let n := N_of_ascii c in
        if (n =? 34)%N then Some (EmptyString, rest)
        else if (n <? 32)%N then None
        else if (n =? 92)%N then
          match rest with
          | String "u" (String h1 (String h2 (String h3 (String h4 rest')))) =>
              match escaped_unit h1 h2 h3 h4 with
              | None => None
              | Some c' =>
                  match read_string rest' with
                  | Some (text, after) => Some (String c' text, after)
                  | None => None
                  end
              end
          | String e rest' =>
              let unescaped :=
                let m := N_of_ascii e in
                if (m =? 34)%N then Some e
                else if (m =? 92)%N then Some e
                else if (m =? 47)%N then Some e
                else if (m =? 98)%N then Some (ascii_of_N 8)
                else if (m =? 102)%N then Some (ascii_of_N 12)
                else if (m =? 110)%N then Some (ascii_of_N 10)
                else if (m =? 114)%N then Some (ascii_of_N 13)
                else if (m =? 116)%N then Some (ascii_of_N 9)
                else None in
              match unescaped with
              | None => None
              | Some c' =>
                  match read_string rest' with
                  | Some (text, after) => Some (String c' text, after)
                  | None => None
                  end
              end
          | EmptyString => None
          end
        else
          match read_string rest with
          | Some (text, after) => Some (String c text, after)
          | None => None
          end
    end.

Definition strip_prefix (p s : string) : option string :=
    if String.prefix p s then Some (String.substring (String.length p) (String.length s - String.length p) s)
    else None.

  (** A JSON value at the head of [s], and the text after it. *)
Fixpoint read_value (fuel : nat) (s : string) : option (value * string) :=
    match fuel with
    | O => None
    | S fuel' =>
        let fix read_elements (n : nat) (s : string) : option (list value * string) :=
          match n with
          | O => None
          | S n' =>
              match read_value fuel' s with
              | None => None
              | Some (item, after) =>
                  match skip_whitespace after with
                  | String "," rest =>
                      match read_elements n' rest with
                      | Some (items, after') => Some (item :: items, after')
                      | None => None
                      end
                  | String "]" rest => Some ([item], rest)
                  | _ => None
                  end
              end
          end in
        let fix read_members (n : nat) (s : string)
            : option (list (string * value) * string) :=
          match n with
          | O => None
          | S n' =>
              match skip_whitespace s with
              | String q rest =>
                  if negb (N_of_ascii q =? 34)%N then None
                  else
                    match read_string rest with
                    | None => None
                    | Some (key, after) =>
                        match skip_whitespace after with
                        | String ":" rest' =>
                            match read_value fuel' rest' with
                            | None => None
                            | Some (member, after') =>
                                match skip_whitespace after' with
                                | String "," rest'' =>
                                    match read_members n' rest'' with
                                    | Some (members, after'') =>
                                        Some ((key, member) :: members, after'')
                                    | None => None
                                    end
                                | String "}" rest'' => Some ([(key, member)], rest'')
                                | _ => None
                                end
                            end
                        | _ => None
                        end
                    end
              | EmptyString => None
              end
          end in
        match skip_whitespace s with
        | EmptyString => None
        | String c rest =>
            let n := N_of_ascii c in
            if (n =? 34)%N then
              match read_string rest with
              | Some (text, after) => Some (VString text, after)
              | None => None
              end
            else if bool_decide (c = "["%char) then
              match skip_whitespace rest with
              | String "]" after => Some (VArray [], after)
              | _ =>
                  match read_elements (String.length rest) rest with
                  | Some (items, after) => Some (VArray items, after)
                  | None => None
                  end
              end
            else if bool_decide (c = "{"%char) then
              match skip_whitespace rest with
              | String "}" after => Some (VObject [], after)
              | _ =>
                  match read_members (String.length rest) rest with
                  | Some (members, after) => Some (VObject members, after)
                  | None => None
                  end
              end
            else if bool_decide (c = "-"%char) then
              match read_natural rest with
              | Some (m, after) => Some (VNumber (- m), after)
              | None => None
              end
            else if is_digit c then
              match read_natural (String c rest) with
              | Some (m, after) => Some (VNumber m, after)
              | None => None
              end
            else
              match strip_prefix "null" (String c rest) with
              | Some after => Some (VNull, after)
              | None =>
                  match strip_prefix "true" (String c rest) with
                  | Some after => Some (VBool true, after)
                  | None =>
                      match strip_prefix "false" (String c rest) with
                      | Some after => Some (VBool false, after)
                      | None => None
                      end
                  end
              end
        end
    end.

Definition syntax_error : Thrown := ErrorObject "JSON Parse error: Unable to parse JSON string".

  (** [JSON.parse(text)] *)
Definition parse (text : string) : Completion Thrown value :=
    match read_value (S (String.length text)) text with
    | Some (v, after) =>
        match skip_whitespace after with
        | EmptyString => Returned v
        | _ => Threw syntax_error
        end
    | None => Threw syntax_error
    end.

#[export] Instance host : Host value :=
    {| JSON_parse := parse;
       JSON_stringify := stringify;
       JSON_stringify_strings := stringify_strings;
       ToBoolean := to_boolean |}.

End MiniJS.

(** ** The writing operations of the Store and of the Manager

    The reading operations ([getSnapshot], [getSnapshotDetails],
    [getRollbackPlan]) are functions of the database and change nothing. *)

Module Operation.
  Import SnapshotRepository SnapshotManager.

  Section WithHost.
Context {JSValue : Type} {H : Host JSValue}.

Inductive t : Type :=
    | CreateSnapshot (env : Env.t) (input : CreateSnapshotInput.t) (id : option string)
    | AddSnapshotCreated (snapshotId : string) (item : CreatedInput)
    | AddSnapshotModified (snapshotId : string) (item : ModifiedInput JSValue)
    | AddSnapshotStatus (snapshotId : string) (item : StatusInput)
    | UpdateSnapshotStatus (env : Env.t) (id : string) (status : string)
    | DeleteSnapshot (id : string)
    | PurgeOldSnapshots (is_old : string -> bool)
    | CreateAddSnapshot (env : Env.t) (data : AddSnapshotData)
    | CreateAddProjectSnapshot (env : Env.t) (data : AddSnapshotData)
    | CreateUpdateSnapshot (env : Env.t) (data : UpdateSnapshotData JSValue)
    | CreateStatusChangeSnapshot (env : Env.t) (data : StatusChangeData)
    | CreateBulkSnapshot (env : Env.t) (data : BulkSnapshotData JSValue)
    | MarkRolledBack (env : Env.t) (snapshotId : string) (status : string).

    (** The database after the operation, whether it returned or threw. *)
Definition run (op : t) (db : DB) : DB :=
      match op with
      | CreateSnapshot env input id => (createSnapshot env input id db).2
      | AddSnapshotCreated snapshotId item => (addSnapshotCreated snapshotId item db).2
      | AddSnapshotModified snapshotId item => (addSnapshotModified snapshotId item db).2
      | AddSnapshotStatus snapshotId item => (addSnapshotStatus snapshotId item db).2
      | UpdateSnapshotStatus env id status => (updateSnapshotStatus env id status db).2
      | DeleteSnapshot id => (deleteSnapshot id db).2
      | PurgeOldSnapshots is_old => (purgeOldSnapshots is_old db).2
      | CreateAddSnapshot env data => (createAddSnapshot env data db).2
      | CreateAddProjectSnapshot env data => (createAddProjectSnapshot env data db).2
      | CreateUpdateSnapshot env data => (createUpdateSnapshot env data db).2
      | CreateStatusChangeSnapshot env data => (createStatusChangeSnapshot env data db).2
      | CreateBulkSnapshot env data => (createBulkSnapshot env data db).2
      | MarkRolledBack env snapshotId status => (markRolledBack env snapshotId status db).2
      end.

    (** The operation is a status update of the snapshot [id]. *)
Definition updates_status_of (id : string) (op : t) : Prop :=
      match op with
      | UpdateSnapshotStatus _ id' _ | MarkRolledBack _ id' _ => id' = id
      | _ => False
      end.

  End WithHost.

Arguments t : clear implicits.

End Operation.

(** ** Properties of stored snapshots *)

(** The two statuses that record the outcome of a rollback. *)
Definition rollback_outcome (status : string) : Prop :=
  status = "rolled-back" \/ status = "partial-rollback".

(** [rolledBackAt] is set exactly on a snapshot that records a rollback
    outcome. *)
Definition stamped_iff_rolled_back (snapshot : Snapshot.t) : Prop :=
  Snapshot.rolledBackAt snapshot <> None <-> rollback_outcome (Snapshot.status snapshot).

(** Every stored snapshot satisfies [stamped_iff_rolled_back]. *)
Definition rolled_back_at_consistent (db : DB) : Prop :=
  forall id snapshot,
    SnapshotRepository.getSnapshot db id = Some snapshot -> stamped_iff_rolled_back snapshot.

(** The database [db] with rows appended to its child tables. *)
Definition with_rows (db : DB) (created : list SnapshotCreatedRow.t)
    (modified : list SnapshotModifiedRow.t) (status : list SnapshotStatusRow.t) : DB :=
  {| snapshots := snapshots db;
     snapshot_created := snapshot_created db ++ created;
     snapshot_modified := snapshot_modified db ++ modified;
     snapshot_status := snapshot_status db ++ status |}.

(** The database after the parent insert of a creating operation that let
    [generateSnapshotId] choose the id. *)
Definition with_parent (env : Env.t) (input : CreateSnapshotInput.t) (db : DB) : DB :=
  {| snapshots :=
       <[SnapshotRepository.generateSnapshotId env := SnapshotRepository.new_columns env input]>
         (snapshots db);
     snapshot_created := snapshot_created db;
     snapshot_modified := snapshot_modified db;
     snapshot_status := snapshot_status db |}.

(** The snapshot that the creating operation returns: the row just
    inserted, read back. *)
Definition new_snapshot (env : Env.t) (input : CreateSnapshotInput.t) : Snapshot.t :=
  SnapshotRepository.rowToSnapshot
    (SnapshotRepository.row_of (SnapshotRepository.generateSnapshotId env)
       (SnapshotRepository.new_columns env input)).

(** A property of the database that only the [snapshots] table decides. *)
Definition table_property (P : DB -> Prop) : Prop :=
  forall db db', snapshots db' = snapshots db -> P db -> P db'.

(** The effect of an insert on [snapshots]: the table stays as it is, or
    gets one new row that is ['active'] and not stamped. *)
Definition grows_snapshots (db db' : DB) : Prop :=
  snapshots db' = snapshots db
  \/ exists id c,
       snapshots db !! id = None
       /\ SnapshotColumns.status c = "active"
       /\ SnapshotColumns.rolled_back_at c = None
       /\ snapshots db' = <[id := c]> (snapshots db).

(** [getAuthToken()] returned a token: [!authToken] is false. *)
Definition authenticated (authToken : option string) : Prop :=
  exists token, authToken = Some token /\ token <> EmptyString.

(** ** src/core/rate-limiter.ts: the shared limiter *)

(** [let globalLimiter: RateLimiter | null]: [getGlobalRateLimiter()] makes
    the limiter on first use, with the default settings.  The result is the
    limiter and the new value of the variable. *)
Definition getGlobalRateLimiter (globalLimiter : option RateLimiter.t)
    : RateLimiter.t * option RateLimiter.t :=
  match globalLimiter with
  | None => let limiter := RateLimiter.new None None in (limiter, Some limiter)
  | Some limiter => (limiter, Some limiter)
  end.

(** [resetGlobalRateLimiter()] *)
Definition resetGlobalRateLimiter (globalLimiter : option RateLimiter.t)
    : option RateLimiter.t := None.

(** ** src/core/url-executor.ts *)

Module ExecutionOptions.
Record t : Type := mk {
    dryRun : bool;
    skipRateLimit : bool
  }.
End ExecutionOptions.

Module UrlExecutor.
Import RateLimiter.

(** [interface ExecutionResult]: the fields [success], [url] and [error?],
    and the marker [dryRun?]. *)
Record Outcome : Type := mkOutcome {
  result : ExecutionResult.t;
  dryRun : option bool
}.

(** What [executeUrl] reads and changes in the process: the shared limiter,
    the index of the next reading of the clock, and the argument vectors
    handed to [Bun.spawn], oldest first. *)
Record Process : Type := mkProcess {
  globalLimiter : option RateLimiter.t;
  clock : nat;
  spawned : list (list string)
}.

Definition refused (url message : string) : Outcome :=
  {| result := {| ExecutionResult.success := false; ExecutionResult.url := url;
                  ExecutionResult.error := Some message |};
     dryRun := None |}.

Definition invalid_scheme : string :=
  "Invalid URL scheme. Must start with " +:+ dquote +:+ "things:///" +:+ dquote.

Definition rate_limit_exceeded (waitTime : Z) : string :=
  "Rate limit exceeded. Please wait " +:+ decimal waitTime +:+ " seconds.".

Section World.

(** [Date_now k] is the [k]-th reading of [Date.now()]. *)
Variable Date_now : nat -> Z.

(** What starting a command and awaiting it comes to, given the commands
    started before: the exit code with the text of [stderr], or an
    exception thrown inside the [try]. *)
Variable spawn : list (list string) -> list string -> Completion Thrown (Z * string).

(** The block [if (!skipRateLimit) { .. }]: [Some waitTime] when the call is
    refused, [None] when a slot was recorded. *)
Definition check_rate_limit (p : Process)
    : Completion RateLimiter.Error (option Z) * Process :=
  let '(limiter, _) := getGlobalRateLimiter (globalLimiter p) in
  let '(ok, limiter, k) := canAcquire Date_now limiter (clock p) in
  if negb ok then
    let '(wait, limiter, k) := getWaitTime Date_now limiter k in
    let waitTime := ceil_div_1000 wait in
    (Returned (Some waitTime),
     {| globalLimiter := Some limiter; clock := k; spawned := spawned p |})
  else
    let '(r, limiter, k) := acquire Date_now limiter k in
    let p' := {| globalLimiter := Some limiter; clock := k; spawned := spawned p |} in
    match r with
    | Threw e => (Threw e, p')
    | Returned _ => (Returned None, p')
    end.

(** The part of [executeUrl] after the rate limit. *)
Definition launch (url : string) (options : ExecutionOptions.t) (p : Process)
    : Outcome * Process :=
  if ExecutionOptions.dryRun options then
    ({| result := {| ExecutionResult.success := true; ExecutionResult.url := url;
                     ExecutionResult.error := None |};
        dryRun := Some true |}, p)
  else
    let argv := ["open"; "-g"; url] in
    let p' := {| globalLimiter := globalLimiter p; clock := clock p;
                 spawned := spawned p ++ [argv] |} in
    match spawn (spawned p) argv with
    | Returned (exitCode, stderr) =>
        if bool_decide (exitCode <> 0) then
          (refused url
             (if bool_decide (stderr = EmptyString)
              then "Command failed with exit code " +:+ decimal exitCode
              else stderr), p')
        else
          ({| result := {| ExecutionResult.success := true; ExecutionResult.url := url;
                           ExecutionResult.error := None |};
              dryRun := None |}, p')
    | Threw (ErrorObject message) => (refused url message, p')
    | Threw NonError => (refused url "Unknown error", p')
    end.

(** [executeUrl(url, options)]; a rejected promise is a [Threw]. *)
Definition executeUrl (url : string) (options : ExecutionOptions.t) (p : Process)
    : Completion RateLimiter.Error Outcome * Process :=
  if negb (String.prefix "things:///" url) then
    (Returned (refused url invalid_scheme), p)
  else if negb (ExecutionOptions.skipRateLimit options) then
    match check_rate_limit p with
    | (Threw e, p') => (Threw e, p')
    | (Returned (Some waitTime), p') =>
        (Returned (refused url (rate_limit_exceeded waitTime)), p')
    | (Returned None, p') =>
        let '(outcome, p'') := launch url options p' in (Returned outcome, p'')
    end
  else
    let '(outcome, p') := launch url options p in (Returned outcome, p').

(** [n] calls of [executeUrl] on the same URL, one after the other: their
    completions in call order, and the process they leave. *)
Fixpoint executeUrl_times (n : nat) (url : string) (options : ExecutionOptions.t)
    (p : Process) : list (Completion RateLimiter.Error Outcome) * Process :=
  match n with
  | O => ([], p)
  | S n' =>
      let '(r, p1) := executeUrl url options p in
      let '(rs, p2) := executeUrl_times n' url options p1 in
      (r :: rs, p2)
  end.

End World.

(** The shared limiter as the next call of [getGlobalRateLimiter] returns
    it. *)
Definition limiter_of (p : Process) : RateLimiter.t :=
  (getGlobalRateLimiter (globalLimiter p)).1.

(** The only commands that [executeUrl] is meant to start: [open -g] on a
    URL of the Things scheme. *)
Definition things_command (argv : list string) : Prop :=
  exists url, argv = ["open"; "-g"; url] /\ String.prefix "things:///" url = true.

(** The timestamps that the shared limiter holds. *)
Definition recorded (p : Process) : list Z :=
  match globalLimiter p with
  | None => []
  | Some limiter => calls limiter
  end.

End UrlExecutor.

(** ** Integrity of the store *)

(** Every child row references a stored snapshot, as the foreign keys of
    the three child tables demand. *)
Definition no_orphans (db : DB) : Prop :=
  Forall (fun r => is_Some (snapshots db !! SnapshotCreatedRow.snapshot_id r))
         (snapshot_created db)
  /\ Forall (fun r => is_Some (snapshots db !! SnapshotModifiedRow.snapshot_id r))
            (snapshot_modified db)
  /\ Forall (fun r => is_Some (snapshots db !! SnapshotStatusRow.snapshot_id r))
            (snapshot_status db).

(** The integer keys of each child table are pairwise distinct. *)
Definition unique_rowids (db : DB) : Prop :=
  NoDup (SnapshotCreatedRow.id <$> snapshot_created db)
  /\ NoDup (SnapshotModifiedRow.id <$> snapshot_modified db)
  /\ NoDup (SnapshotStatusRow.id <$> snapshot_status db).

Definition well_formed (db : DB) : Prop := no_orphans db /\ unique_rowids db.

(** The previous state of [item] survives the store: [JSON.stringify]
    returns text for it, and [JSON.parse] of that text returns
    [previousState]. *)
Definition round_trips {JSValue : Type} {H : Host JSValue}
    (item : SnapshotRepository.ModifiedInput JSValue) (previousState : JSValue) : Prop :=
  exists text,
    JSON_stringify (SnapshotRepository.mi_previousState item) = Returned text
    /\ JSON_parse text = Returned previousState.

(** ** src/core/auth.ts: masking and validating a token

    [length], [slice], [repeat], [trim] and the character classes of a
    regular expression work on the UTF-16 code units of a string: a token is
    the list of its code units. *)

Module Auth.

(** ['*'] *)
Definition asterisk : N := 42%N.

(** [maskToken(token: string): string] *)
Definition maskToken (token : list N) : list N :=
  if bool_decide (token = []) then []
  else if bool_decide (length token <= 4)%nat then replicate (length token) asterisk
  else take 4 token ++ replicate (length token - 4) asterisk.

(** The code units that [String.prototype.trim] strips: ECMAScript's
    WhiteSpace and LineTerminator. *)
Definition is_white_space (c : N) : bool :=
  ((9 <=? c) && (c <=? 13) || (c =? 32) || (c =? 160) || (c =? 5760)
   || (8192 <=? c) && (c <=? 8202) || (c =? 8232) || (c =? 8233) || (c =? 8239)
   || (c =? 8287) || (c =? 12288) || (c =? 65279))%N.

Fixpoint trimStart (s : list N) : list N :=
  match s with
  | c :: rest => if is_white_space c then trimStart rest else s
  | [] => []
  end.

Definition trimEnd (s : list N) : list N := reverse (trimStart (reverse s)).

(** [token.trim()] *)
Definition trim (s : list N) : list N := trimEnd (trimStart s).

(** The class [[a-zA-Z0-9_-]]. *)
Definition is_token_char (c : N) : bool :=
  ((97 <=? c) && (c <=? 122) || (65 <=? c) && (c <=? 90) || (48 <=? c) && (c <=? 57)
   || (c =? 95) || (c =? 45))%N.

(** [isValidTokenFormat(token)]: [/^[a-zA-Z0-9_-]{8,}$/.test(token.trim())] *)
Definition isValidTokenFormat (token : list N) : bool :=
  let trimmed := trim token in
  bool_decide (8 <= length trimmed)%nat && forallb is_token_char trimmed.

End Auth.

(** ** src/commands/add.ts and src/commands/add-project.ts *)

Module AddOptions.
(** [interface AddOptions]; an omitted flag is [false], an omitted text is
    [None].  [list_title] is the option [list]. *)
Record t : Type := mk {
    dryRun : bool;
    json : bool;
    notes : option string;
    when : option string;
    deadline : option string;
    tags : option string;
    checklist : option string;
    list_title : option string;
    listId : option string;
    heading : option string;
    headingId : option string;
    creationDate : option string;
    completionDate : option string;
    completed : bool;
    canceled : bool;
    reveal : bool
  }.
End AddOptions.

Module AddProjectOptions.
(** [interface AddProjectOptions] *)
Record t : Type := mk {
    dryRun : bool;
    json : bool;
    notes : option string;
    when : option string;
    deadline : option string;
    tags : option string;
    area : option string;
    areaId : option string;
    completed : bool;
    canceled : bool;
    reveal : bool
  }.
End AddProjectOptions.

Module AddCommand.
Import SnapshotRepository SnapshotManager.

(** [interface AddResult extends ExecutionResult], also
    [AddProjectResult]: [execution] holds the fields spread from
    [result]. *)
Record AddResult : Type := mkAddResult {
  execution : UrlExecutor.Outcome;
  title : string;
  snapshotId : option string
}.

(** The block [if (!options.dryRun && result.success) { try { .. } catch {} }]:
    the value of [snapshotId] after it.  An exception of the creating
    operation is swallowed; what the operation wrote before it stays. *)
Definition record_snapshot (dryRun : bool) (result : UrlExecutor.Outcome)
    (create : Stateful DB (option Snapshot.t)) (db : DB) : option string * DB :=
  if negb dryRun && ExecutionResult.success (UrlExecutor.result result) then
    match create db with
    | (Returned (Some snapshot), db') => (Some (Snapshot.id snapshot), db')
    | (Returned None, db') => (None, db')
    | (Threw _, db') => (None, db')
    end
  else (None, db).

Section Client.

(** What [await client.addTodo({ title, .. })] and
    [await client.addProject({ title, .. })] settle to; the parameters of
    the call are computed from [title] and [options]. *)
Variable addTodo : string -> AddOptions.t -> Completion Thrown UrlExecutor.Outcome.
Variable addProject : string -> AddProjectOptions.t -> Completion Thrown UrlExecutor.Outcome.

(** [addCommand(title, options)] *)
Definition addCommand (env : Env.t) (title : string) (options : AddOptions.t) (db : DB)
    : Completion Thrown AddResult * DB :=
  match addTodo title options with
  | Threw e => (Threw e, db)
  | Returned result =>
      let '(snapshotId, db') :=
        record_snapshot (AddOptions.dryRun options) result
          (createAddSnapshot env
             {| add_title := title;
                add_itemType := "to-do";
                add_thingsId := "pending";
                add_parentId := AddOptions.listId options;
                add_command := "things3 add " +:+ dquote +:+ title +:+ dquote |})
          db in
      (Returned {| execution := result; title := title; snapshotId := snapshotId |}, db')
  end.

(** [addProjectCommand(title, options)] *)
Definition addProjectCommand (env : Env.t) (title : string) (options : AddProjectOptions.t)
    (db : DB) : Completion Thrown AddResult * DB :=
  match addProject title options with
  | Threw e => (Threw e, db)
  | Returned result =>
      let '(snapshotId, db') :=
        record_snapshot (AddProjectOptions.dryRun options) result
          (createAddProjectSnapshot env
             {| add_title := title;
                add_itemType := "project";
                add_thingsId := "pending";
                add_parentId := None;
                add_command := "things3 add-project " +:+ dquote +:+ title +:+ dquote |})
          db in
      (Returned {| execution := result; title := title; snapshotId := snapshotId |}, db')
  end.

End Client.

End AddCommand.

(** ** Example data *)

Module Examples.
  Import MiniJS SnapshotRepository SnapshotManager Rollback.

  (** 2023-11-14 22:13:20 UTC *)
Definition env0 : Env.t :=
    {| Env.Date_now := 1700000000000;
       Env.random_suffix := "k3x9qa";
       Env.datetime_now := "2023-11-14 22:13:20";
       Env.toISOString := "2023-11-14T22:13:20.000Z" |}.

  (** One minute later. *)
Definition env1 : Env.t :=
    {| Env.Date_now := 1700000060000;
       Env.random_suffix := "p07zzb";
       Env.datetime_now := "2023-11-14 22:14:20";
       Env.toISOString := "2023-11-14T22:14:20.000Z" |}.

  (** Two minutes later. *)
Definition env2 : Env.t :=
  {| Env.Date_now := 1700000120000;
     Env.random_suffix := "m4c81x";
     Env.datetime_now := "2023-11-14 22:15:20";
     Env.toISOString := "2023-11-14T22:15:20.000Z" |}.

  (** The id that [generateSnapshotId] makes in [env0]. *)
Definition snap0 : string := "snap-1700000000000-k3x9qa".

  (** [createAddSnapshot] of a new to-do. *)
Definition added_task : AddSnapshotData :=
    {| add_title := "New Task"; add_itemType := "to-do"; add_thingsId := "things-123";
       add_parentId := None; add_command := "things3 add New Task" |}.

Definition db_added : DB := (createAddSnapshot env0 added_task empty_db).2.

  (** [createUpdateSnapshot] with [previousState = { title: "Old" }]. *)
Definition updated_task : UpdateSnapshotData value :=
    {| up_thingsId := "things-123"; up_itemType := "to-do";
       up_previousState := VObject [("title", VString "Old")];
       up_modifiedFields := ["title"];
       up_command := "things3 update things-123 --title New" |}.

Definition db_updated : DB := (createUpdateSnapshot env0 updated_task empty_db).2.

  (** [createUpdateSnapshot] with a previous state that holds a [BigInt],
      [{ count: 10n }]. *)
Definition updated_counter : UpdateSnapshotData value :=
    {| up_thingsId := "things-123"; up_itemType := "to-do";
       up_previousState := VObject [("count", VBigInt 10)];
       up_modifiedFields := ["count"];
       up_command := "things3 update things-123" |}.

  (** [createStatusChangeSnapshot] with [newStatus = "canceled"]. *)
Definition canceled_task : StatusChangeData :=
    {| sc_thingsId := "things-123"; sc_itemType := "to-do"; sc_title := "Task to cancel";
       sc_previousStatus := "open"; sc_newStatus := "canceled";
       sc_command := "things3 cancel things-123" |}.

Definition db_canceled : DB := (createStatusChangeSnapshot env0 canceled_task empty_db).2.

  (** [createStatusChangeSnapshot] with [newStatus = "completed"]. *)
Definition completed_task : StatusChangeData :=
    {| sc_thingsId := "things-123"; sc_itemType := "to-do"; sc_title := "Task to complete";
       sc_previousStatus := "open"; sc_newStatus := "completed";
       sc_command := "things3 complete things-123" |}.

Definition db_completed : DB := (createStatusChangeSnapshot env0 completed_task empty_db).2.

  (** A bulk operation with items of every kind. *)
Definition mixed_bulk : BulkSnapshotData value :=
    {| bulk_command := "things3 json";
       bulk_createdItems :=
         [ {| ci_thingsId := "new-1"; ci_itemType := "to-do"; ci_title := "New Task";
              ci_parentId := None |};
           {| ci_thingsId := "proj-1"; ci_itemType := "project"; ci_title := "Project 1";
              ci_parentId := None |} ];
       bulk_modifiedItems :=
         [ {| mi_thingsId := "mod-1"; mi_itemType := "to-do";
              mi_previousState := VObject [("title", VString "Old")];
              mi_modifiedFields := ["title"] |} ];
       bulk_statusChanges :=
         [ {| si_thingsId := "status-1"; si_itemType := "to-do";
              si_previousStatus := "open"; si_newStatus := "completed" |};
           {| si_thingsId := "status-2"; si_itemType := "to-do";
              si_previousStatus := "open"; si_newStatus := "canceled" |};
           {| si_thingsId := "status-3"; si_itemType := "to-do";
              si_previousStatus := "completed"; si_newStatus := "open" |} ] |}.

Definition db_mixed : DB := (createBulkSnapshot env0 mixed_bulk empty_db).2.

  (** A bulk operation whose second modified item cannot be serialized. *)
Definition broken_bulk : BulkSnapshotData value :=
    {| bulk_command := "things3 json";
       bulk_createdItems :=
         [ {| ci_thingsId := "new-1"; ci_itemType := "to-do"; ci_title := "New Task";
              ci_parentId := None |} ];
       bulk_modifiedItems :=
         [ {| mi_thingsId := "mod-1"; mi_itemType := "to-do";
              mi_previousState := VObject [("title", VString "Old")];
              mi_modifiedFields := ["title"] |};
           {| mi_thingsId := "mod-2"; mi_itemType := "to-do";
              mi_previousState := VObject [("count", VBigInt 10)];
              mi_modifiedFields := ["count"] |} ];
       bulk_statusChanges :=
         [ {| si_thingsId := "status-1"; si_itemType := "to-do";
              si_previousStatus := "open"; si_newStatus := "completed" |} ] |}.

  (** An external application that accepts every command. *)
Definition accepting (_ : list (ClientCall value)) (_ : ClientCall value)
      : Completion Thrown ExecutionResult.t :=
    Returned {| ExecutionResult.success := true;
                ExecutionResult.url := "things:///update";
                ExecutionResult.error := None |}.

  (** One that refuses every cancellation and rejects every update. *)
Definition refusing (_ : list (ClientCall value)) (call : ClientCall value)
      : Completion Thrown ExecutionResult.t :=
    match call with
    | cancelTodo _ =>
        Returned {| ExecutionResult.success := false;
                    ExecutionResult.url := "things:///update";
                    ExecutionResult.error :=
                      Some "Rate limit exceeded. Please wait 3 seconds." |}
    | updateTodo _ _ => Threw (ErrorObject "URI malformed")
    end.

Definition execute : RollbackOptions := {| dryRun := false; json := false; force := false |}.
Definition dry_run : RollbackOptions := {| dryRun := true; json := false; force := false |}.

  (** A process that has dispatched nothing yet. *)
Definition world (db : DB) : World value := {| Rollback.db := db; dispatched := [] |}.

End Examples.

(** ** More example data *)

Module MoreExamples.
Import MiniJS SnapshotRepository SnapshotManager Rollback Examples.

(** A clock that stands still at [now]. *)
Definition steady (now : Z) : nat -> Z := fun _ => now.

(** A clock whose first [n] readings are [early] and whose later readings
    are [late]. *)
Definition jumping (n : nat) (early late : Z) : nat -> Z :=
  fun k => if bool_decide (k < n)%nat then early else late.

(** Two calls a second, both used. *)
Definition full_limiter : RateLimiter.t :=
  {| RateLimiter.maxCalls := 2; RateLimiter.windowMs := 1000;
     RateLimiter.calls := [100; 200] |}.

(** Two calls a second, one used. *)
Definition idle_limiter : RateLimiter.t :=
  {| RateLimiter.maxCalls := 2; RateLimiter.windowMs := 1000;
     RateLimiter.calls := [100] |}.

(** A process that has not called [executeUrl] yet. *)
Definition fresh_process : UrlExecutor.Process :=
  {| UrlExecutor.globalLimiter := None; UrlExecutor.clock := 0;
     UrlExecutor.spawned := [] |}.

Definition show_today : string := "things:///show?id=today".

(** [open] exits with code 0 and writes nothing to [stderr]. *)
Definition exits_zero (_ : list (list string)) (_ : list string)
    : Completion Thrown (Z * string) :=
  Returned (0, EmptyString).

Definition real_run : ExecutionOptions.t :=
  {| ExecutionOptions.dryRun := false; ExecutionOptions.skipRateLimit := false |}.

Definition rehearsal : ExecutionOptions.t :=
  {| ExecutionOptions.dryRun := true; ExecutionOptions.skipRateLimit := false |}.

(** A database whose one snapshot holds a previous state that is not
    JSON. *)
Definition db_corrupt : DB :=
  {| snapshots :=
       {[ snap0 := {| SnapshotColumns.description := "Updated to-do things-123";
                      SnapshotColumns.operation_type := "update";
                      SnapshotColumns.command := "things3 update things-123";
                      SnapshotColumns.created_at := "2023-11-14 22:13:20";
                      SnapshotColumns.rolled_back_at := None;
                      SnapshotColumns.status := "active" |} ]};
     snapshot_created := [];
     snapshot_modified :=
       [ {| SnapshotModifiedRow.id := 1;
            SnapshotModifiedRow.snapshot_id := snap0;
            SnapshotModifiedRow.things_id := "things-123";
            SnapshotModifiedRow.item_type := "to-do";
            SnapshotModifiedRow.previous_state := "{oops";
            SnapshotModifiedRow.modified_fields := "[]" |} ];
     snapshot_status := [] |}.

(** The code units of [abcd1234efgh]. *)
Definition sample_token : list N :=
  [97; 98; 99; 100; 49; 50; 51; 52; 101; 102; 103; 104]%N.

End MoreExamples.

(** * Properties *)

(** ** The rate limiter *)

Section RateLimiterFacts.
  Import RateLimiter.
Variable Date_now : nat -> Z.

Lemma with_calls_same (this : t) : with_calls this (calls this) = this.
  Proof. by destruct this. Qed.

Lemma cleanup_in_window (this : t) (k : nat) :
    cleanup Date_now this k = (with_calls this (in_window this (Date_now k)), S k).
  Proof. reflexivity. Qed.

  (** Every timestamp of [l] lies in the window that trails [now]. *)
Lemma filter_window_all (w now : Z) (l : list Z) :
    Forall (fun timestamp => now - w < timestamp) l ->
    filter (fun timestamp => now - w < timestamp) l = l.
  Proof.
    induction 1 as [|x l Hx _ IH]; [done|].
    rewrite filter_cons_True by done. by rewrite IH.
  Qed.

Lemma filter_window_none (w now : Z) (l : list Z) :
    Forall (fun timestamp => timestamp <= now - w) l ->
    filter (fun timestamp => now - w < timestamp) l = [].
  Proof.
    induction 1 as [|x l Hx _ IH]; [done|].
    rewrite filter_cons_False by lia. done.
  Qed.

Lemma acquire_under_budget (this : t) (k : nat) :
    Z.of_nat (length (in_window this (Date_now k))) < maxCalls this ->
    acquire Date_now this k =
      (Returned (), with_calls this (in_window this (Date_now k) ++ [Date_now (S k)]),
       S (S k)).
  Proof.
    intros Hlt. unfold acquire. rewrite cleanup_in_window. cbn.
    rewrite bool_decide_eq_false_2 by lia. reflexivity.
  Qed.

Lemma acquire_over_budget (this : t) (k : nat) :
    maxCalls this <= Z.of_nat (length (in_window this (Date_now k))) ->
    exists e this' k', acquire Date_now this k = (Threw e, this', k').
  Proof.
    intros Hge. unfold acquire. rewrite cleanup_in_window. cbn -[getWaitTime].
    rewrite bool_decide_eq_true_2 by lia.
    destruct (getWaitTime Date_now _ _) as [[wait this'] k']. eauto.
  Qed.

Lemma acquire_throws_iff (this : t) (k : nat) :
    is_Threw (acquire Date_now this k).1.1 = true <->
    maxCalls this <= Z.of_nat (length (in_window this (Date_now k))).
  Proof.
    destruct (Z_lt_le_dec (Z.of_nat (length (in_window this (Date_now k)))) (maxCalls this))
      as [Hlt|Hge].
    - rewrite acquire_under_budget by done. cbn. split; [done | lia].
    - destruct (acquire_over_budget this k Hge) as (e & this' & k' & ->). cbn. done.
  Qed.

Lemma canAcquire_in_window (this : t) (k : nat) :
    canAcquire Date_now this k =
      (bool_decide (Z.of_nat (length (in_window this (Date_now k))) < maxCalls this),
       with_calls this (in_window this (Date_now k)), S k).
  Proof. reflexivity. Qed.

  (** A burst: every reading of the clock during it lies in [lo, hi], a span
      shorter than the window, and so do the timestamps recorded before. *)
Lemma acquire_times_burst (n : nat) : forall (this : t) (k : nat) (lo hi : Z),
    hi - lo < windowMs this ->
    (forall j, (k <= j < k + 2 * n)%nat -> lo <= Date_now j <= hi) ->
    Forall (fun timestamp => lo <= timestamp <= hi) (calls this) ->
    Z.of_nat (length (calls this) + n) <= maxCalls this ->
    exists recorded,
      acquire_times Date_now n this k =
        (replicate n (Returned ()), with_calls this (calls this ++ recorded), (k + 2 * n)%nat)
      /\ length recorded = n
      /\ Forall (fun timestamp => lo <= timestamp <= hi) recorded.
  Proof.
    induction n as [|n IH]; intros this k lo hi Hspan Hclock Hcalls Hroom.
    - exists []. cbn. rewrite app_nil_r, with_calls_same.
      repeat split; [f_equal; lia | done].
    - assert (Hk : lo <= Date_now k <= hi) by (apply Hclock; lia).
      assert (Hk1 : lo <= Date_now (S k) <= hi) by (apply Hclock; lia).
      assert (Hlive : in_window this (Date_now k) = calls this).
      { apply filter_window_all. eapply Forall_impl; [exact Hcalls|]. cbn. lia. }
      cbn [acquire_times]. rewrite acquire_under_budget by (rewrite Hlive; lia).
      rewrite Hlive.
      destruct (IH (with_calls this (calls this ++ [Date_now (S k)])) (S (S k)) lo hi)
        as (recorded & Heq & Hlen & Hall).
      + done.
      + intros j Hj. apply Hclock. lia.
      + cbn. apply Forall_app. split; [done|]. by constructor.
      + cbn. rewrite length_app. cbn. lia.
      + rewrite Heq. exists (Date_now (S k) :: recorded). cbn.
        repeat split.
        * f_equal; [f_equal|lia]. unfold with_calls; cbn. by rewrite <- app_assoc.
        * by rewrite Hlen.
        * by constructor.
  Qed.

Lemma getWaitTime_in_window (this : t) (k : nat) (lo hi : Z) :
    hi - lo < windowMs this ->
    lo <= Date_now k <= hi ->
    Forall (fun timestamp => lo <= timestamp <= hi) (calls this) ->
    exists wait k', getWaitTime Date_now this k = (wait, this, k') /\ (S k <= k' <= S (S k))%nat.
  Proof.
    intros Hspan Hk Hcalls. unfold getWaitTime. rewrite cleanup_in_window.
    assert (Hlive : in_window this (Date_now k) = calls this).
    { apply filter_window_all. eapply Forall_impl; [exact Hcalls|]. cbn. lia. }
    rewrite Hlive, with_calls_same.
    case_bool_decide; [eexists _, _; split; [done|lia]|].
    destruct (calls this) as [|oldestCall rest]; [eexists _, _; split; [done|lia]|].
    case_bool_decide; eexists _, _; (split; [done|lia]).
  Qed.

Lemma acquire_exhausted_in_window (this : t) (k : nat) (lo hi : Z) :
    hi - lo < windowMs this ->
    (forall j, (k <= j < k + 3)%nat -> lo <= Date_now j <= hi) ->
    Forall (fun timestamp => lo <= timestamp <= hi) (calls this) ->
    maxCalls this <= Z.of_nat (length (calls this)) ->
    exists e k', acquire Date_now this k = (Threw e, this, k') /\ (k + 2 <= k' <= k + 3)%nat.
  Proof.
    intros Hspan Hclock Hcalls Hfull. unfold acquire. rewrite cleanup_in_window.
    assert (Hlive : in_window this (Date_now k) = calls this).
    { apply filter_window_all. eapply Forall_impl; [exact Hcalls|].
      cbn. specialize (Hclock k). lia. }
    rewrite Hlive, with_calls_same.
    rewrite bool_decide_eq_true_2 by done.
    destruct (getWaitTime_in_window this (S k) lo hi) as (wait & k' & -> & Hk');
      [done | apply Hclock; lia | done |].
    eexists _, k'. split; [done | lia].
  Qed.

Lemma canAcquire_exhausted_in_window (this : t) (k : nat) (lo hi : Z) :
    hi - lo < windowMs this ->
    lo <= Date_now k <= hi ->
    Forall (fun timestamp => lo <= timestamp <= hi) (calls this) ->
    maxCalls this <= Z.of_nat (length (calls this)) ->
    canAcquire Date_now this k = (false, this, S k).
  Proof.
    intros Hspan Hk Hcalls Hfull. rewrite canAcquire_in_window.
    assert (Hlive : in_window this (Date_now k) = calls this).
    { apply filter_window_all. eapply Forall_impl; [exact Hcalls|]. cbn. lia. }
    rewrite Hlive, with_calls_same. by rewrite bool_decide_eq_false_2 by lia.
  Qed.

Lemma in_window_elapsed (this : t) (now hi : Z) :
    Forall (fun timestamp => timestamp <= hi) (calls this) ->
    hi + windowMs this <= now ->
    in_window this now = [].
  Proof.
    intros Hcalls Hnow. apply filter_window_none.
    eapply Forall_impl; [exact Hcalls|]. cbn. lia.
  Qed.

End RateLimiterFacts.


Section RateLimiterClaims.
  Import RateLimiter.

(** C7.  [acquire] throws exactly when the timestamps still inside the
    trailing window number [maxCalls] or more, and otherwise records one new
    timestamp after the live ones.  With the default settings (250 calls,
    10000 ms), 250 acquires in a row whose clock readings span less than one
    window all succeed; the 251st throws and leaves the limiter as it was;
    [canAcquire] then answers [false]; and at any later reading that is a
    whole window past the burst, [canAcquire] answers [true] and leaves the
    limiter as a new one, and [acquire] behaves as on a new limiter. *)
Theorem rate_limiter_budget :
  (forall (Date_now : nat -> Z) (this : RateLimiter.t) (k : nat),
     let live := in_window this (Date_now k) in
     (is_Threw (acquire Date_now this k).1.1 = true
        <-> maxCalls this <= Z.of_nat (length live))
     /\ (Z.of_nat (length live) < maxCalls this ->
         acquire Date_now this k =
           (Returned (), with_calls this (live ++ [Date_now (S k)]), S (S k))))
  /\
  (forall (Date_now : nat -> Z) (k : nat) (lo hi : Z),
     hi - lo < RATE_LIMIT_WINDOW_MS ->
     (forall j, (k <= j < k + 504)%nat -> lo <= Date_now j <= hi) ->
     exists full : RateLimiter.t,
       acquire_times Date_now 250 (new None None) k
         = (replicate 250 (Returned ()), full, (k + 500)%nat)
       /\ length (calls full) = 250%nat
       /\ (exists e k',
             acquire Date_now full (k + 500) = (Threw e, full, k')
             /\ (k' <= k + 503)%nat
             /\ canAcquire Date_now full k' = (false, full, S k'))
       /\ (forall K, hi + RATE_LIMIT_WINDOW_MS <= Date_now K ->
             canAcquire Date_now full K = (true, new None None, S K)
             /\ acquire Date_now full K = acquire Date_now (new None None) K
             /\ acquire Date_now full K =
                  (Returned (), with_calls (new None None) [Date_now (S K)], S (S K)))).
Proof.
  split.
  - intros Date_now this k live. split.
    + apply acquire_throws_iff.
    + apply acquire_under_budget.
  - intros Date_now k lo hi Hspan Hclock.
    destruct (acquire_times_burst Date_now 250 (new None None) k lo hi)
      as (recorded & Hrun & Hlen & Hall).
    { exact Hspan. }
    { intros j Hj. apply Hclock. lia. }
    { constructor. }
    { cbn. unfold RATE_LIMIT_MAX_CALLS. lia. }
    cbn [calls new app] in Hrun.
    set (full := with_calls (new None None) recorded) in *.
    assert (Hfull_calls : calls full = recorded) by reflexivity.
    exists full. split; [exact Hrun|]. split; [by rewrite Hfull_calls|].
    split.
    + destruct (acquire_exhausted_in_window Date_now full (k + 500) lo hi)
        as (e & k' & Hacq & Hk').
      { exact Hspan. }
      { intros j Hj. apply Hclock. lia. }
      { by rewrite Hfull_calls. }
      { rewrite Hfull_calls, Hlen. cbn. unfold RATE_LIMIT_MAX_CALLS. lia. }
      exists e, k'. split; [exact Hacq|]. split; [lia|].
      apply (canAcquire_exhausted_in_window Date_now full k' lo hi).
      * exact Hspan.
      * apply Hclock. lia.
      * by rewrite Hfull_calls.
      * rewrite Hfull_calls, Hlen. cbn. unfold RATE_LIMIT_MAX_CALLS. lia.
    + intros K HK.
      assert (Hgone : in_window full (Date_now K) = []).
      { apply (in_window_elapsed full (Date_now K) hi); [|exact HK].
        rewrite Hfull_calls. eapply Forall_impl; [exact Hall|]. cbn. lia. }
      assert (Hacq : acquire Date_now full K =
                (Returned (), with_calls (new None None) [Date_now (S K)], S (S K))).
      { rewrite acquire_under_budget; rewrite Hgone; [done|].
        cbn. unfold RATE_LIMIT_MAX_CALLS. lia. }
      split; [|split].
      * rewrite canAcquire_in_window, Hgone. reflexivity.
      * rewrite Hacq. symmetry. apply acquire_under_budget.
        cbn. unfold RATE_LIMIT_MAX_CALLS. lia.
      * exact Hacq.
Qed.

(** A burst of 250 acquires that starts at 2023-11-14 22:13:20 UTC, with
    one millisecond between clock readings. *)
Lemma rate_limiter_budget_witness :
  exists full : RateLimiter.t,
    acquire_times (fun j => 1700000000000 + Z.of_nat j) 250 (new None None) 0
      = (replicate 250 (Returned ()), full, 500%nat)
    /\ length (calls full) = 250%nat.
Proof.
  destruct (proj2 rate_limiter_budget (fun j => 1700000000000 + Z.of_nat j) 0%nat
              1700000000000 1700000000503) as (full & Hrun & Hlen & _).
  - unfold RATE_LIMIT_WINDOW_MS. lia.
  - intros j Hj. lia.
  - exists full. split; [exact Hrun | exact Hlen].
Defined.


End RateLimiterClaims.

(** ** Stateful computations *)

Section StatefulFacts.
Context {S : Type}.

Lemma preserves_ret {A} (P : S -> Prop) (a : A) : preserves P (st_ret a).
Proof. by intros s. Qed.

Lemma preserves_throw {A} (P : S -> Prop) (e : Thrown) : preserves P (st_throw (A:=A) e).
Proof. by intros s. Qed.

Lemma preserves_bind {A B} (P : S -> Prop) (m : Stateful S A) (f : A -> Stateful S B) :
  preserves P m -> (forall a, preserves P (f a)) -> preserves P (st_bind m f).
Proof.
  intros Hm Hf s Hs. unfold st_bind. specialize (Hm s Hs).
  destruct (m s) as [[a|e] s1]; cbn in *; [by apply Hf | done].
Qed.

Lemma preserves_for {A} (P : S -> Prop) (xs : list A) (body : A -> Stateful S unit) :
  (forall x, preserves P (body x)) -> preserves P (st_for xs body).
Proof.
  intros Hbody. induction xs as [|x xs IH]; cbn.
  - apply preserves_ret.
  - apply preserves_bind; [apply Hbody | by intros _].
Qed.
End StatefulFacts.

(** ** The repository *)

Section RepositoryFacts.
Import SnapshotRepository.

Lemma getSnapshot_lookup (db : DB) (id : string) :
  getSnapshot db id = (fun c => rowToSnapshot (row_of id c)) <$> snapshots db !! id.
Proof. unfold getSnapshot, select_snapshot. by destruct (snapshots db !! id). Qed.

Lemma getSnapshot_Some (db : DB) (id : string) (snapshot : Snapshot.t) :
  getSnapshot db id = Some snapshot <->
  exists c, snapshots db !! id = Some c /\ snapshot = rowToSnapshot (row_of id c).
Proof.
  rewrite getSnapshot_lookup. destruct (snapshots db !! id) as [c|]; cbn.
  - split; [intros [= <-]; eauto | intros (c' & [= <-] & ->); done].
  - split; [done | intros (c' & [=] & _)].
Qed.

Lemma getSnapshot_None (db : DB) (id : string) :
  getSnapshot db id = None <-> snapshots db !! id = None.
Proof. rewrite getSnapshot_lookup. by destruct (snapshots db !! id). Qed.

Lemma getSnapshot_id (db : DB) (id : string) (snapshot : Snapshot.t) :
  getSnapshot db id = Some snapshot -> Snapshot.id snapshot = id.
Proof. intros (c & _ & ->)%getSnapshot_Some. reflexivity. Qed.

(** The columns that [createSnapshot] inserts. *)
Lemma createSnapshot_cases (env : Env.t) (input : CreateSnapshotInput.t)
    (id : option string) (db : DB) :
  let snapshotId := default (generateSnapshotId env) id in
  (is_Some (snapshots db !! snapshotId)
   /\ createSnapshot env input id db
      = (Threw (ErrorObject "UNIQUE constraint failed: snapshots.id"), db))
  \/ (snapshots db !! snapshotId = None
      /\ exists c db',
          createSnapshot env input id db
            = (Returned (Some (rowToSnapshot (row_of snapshotId c))), db')
          /\ SnapshotColumns.status c = "active"
          /\ SnapshotColumns.rolled_back_at c = None
          /\ SnapshotColumns.description c = CreateSnapshotInput.description input
          /\ SnapshotColumns.operation_type c = CreateSnapshotInput.operationType input
          /\ SnapshotColumns.command c = CreateSnapshotInput.command input
          /\ SnapshotColumns.created_at c = Env.datetime_now env
          /\ snapshots db' = <[snapshotId := c]> (snapshots db)
          /\ snapshot_created db' = snapshot_created db
          /\ snapshot_modified db' = snapshot_modified db
          /\ snapshot_status db' = snapshot_status db).
Proof.
  intros snapshotId. unfold createSnapshot. fold snapshotId.
  destruct (snapshots db !! snapshotId) as [c0|] eqn:Hlookup.
  - left. split; [by eexists | done].
  - right. split; [done|]. eexists _, _. split.
    + rewrite getSnapshot_lookup. cbn. rewrite lookup_insert_eq. cbn. reflexivity.
    + cbn. done.
Qed.

Lemma addSnapshotCreated_cases (snapshotId : string) (item : CreatedInput) (db : DB) :
  (snapshots db !! snapshotId = None
   /\ addSnapshotCreated snapshotId item db = (Threw foreign_key_failed, db))
  \/ (is_Some (snapshots db !! snapshotId)
      /\ exists row db',
          addSnapshotCreated snapshotId item db = (Returned (), db')
          /\ SnapshotCreatedRow.snapshot_id row = snapshotId
          /\ SnapshotCreatedRow.things_id row = ci_thingsId item
          /\ SnapshotCreatedRow.item_type row = ci_itemType item
          /\ SnapshotCreatedRow.title row = ci_title item
          /\ SnapshotCreatedRow.parent_id row = ci_parentId item
          /\ snapshots db' = snapshots db
          /\ snapshot_created db' = snapshot_created db ++ [row]
          /\ snapshot_modified db' = snapshot_modified db
          /\ snapshot_status db' = snapshot_status db).
Proof.
  unfold addSnapshotCreated.
  destruct (snapshots db !! snapshotId) as [c0|] eqn:Hlookup.
  - right. split; [by eexists|].
    eexists (SnapshotCreatedRow.mk _ _ _ _ _ _), _. split; [reflexivity|]. cbn. repeat split.
  - left. done.
Qed.

Lemma addSnapshotStatus_cases (snapshotId : string) (item : StatusInput) (db : DB) :
  (snapshots db !! snapshotId = None
   /\ addSnapshotStatus snapshotId item db = (Threw foreign_key_failed, db))
  \/ (is_Some (snapshots db !! snapshotId)
      /\ exists row db',
          addSnapshotStatus snapshotId item db = (Returned (), db')
          /\ SnapshotStatusRow.snapshot_id row = snapshotId
          /\ SnapshotStatusRow.things_id row = si_thingsId item
          /\ SnapshotStatusRow.item_type row = si_itemType item
          /\ SnapshotStatusRow.previous_status row = si_previousStatus item
          /\ SnapshotStatusRow.new_status row = si_newStatus item
          /\ snapshots db' = snapshots db
          /\ snapshot_created db' = snapshot_created db
          /\ snapshot_modified db' = snapshot_modified db
          /\ snapshot_status db' = snapshot_status db ++ [row]).
Proof.
  unfold addSnapshotStatus.
  destruct (snapshots db !! snapshotId) as [c0|] eqn:Hlookup.
  - right. split; [by eexists|].
    eexists (SnapshotStatusRow.mk _ _ _ _ _ _), _. split; [reflexivity|]. cbn. repeat split.
  - left. done.
Qed.

Lemma addSnapshotModified_cases `{Host JSValue} (snapshotId : string)
    (item : ModifiedInput JSValue) (db : DB) :
  (exists e, JSON_stringify (mi_previousState item) = Threw e
             /\ addSnapshotModified snapshotId item db = (Threw e, db))
  \/ (is_Returned (JSON_stringify (mi_previousState item)) = true
      /\ snapshots db !! snapshotId = None
      /\ addSnapshotModified snapshotId item db = (Threw foreign_key_failed, db))
  \/ (is_Some (snapshots db !! snapshotId)
      /\ exists row db',
          addSnapshotModified snapshotId item db = (Returned (), db')
          /\ SnapshotModifiedRow.snapshot_id row = snapshotId
          /\ SnapshotModifiedRow.things_id row = mi_thingsId item
          /\ SnapshotModifiedRow.item_type row = mi_itemType item
          /\ JSON_stringify (mi_previousState item)
             = Returned (SnapshotModifiedRow.previous_state row)
          /\ SnapshotModifiedRow.modified_fields row
             = JSON_stringify_strings (mi_modifiedFields item)
          /\ snapshots db' = snapshots db
          /\ snapshot_created db' = snapshot_created db
          /\ snapshot_modified db' = snapshot_modified db ++ [row]
          /\ snapshot_status db' = snapshot_status db).
Proof.
  unfold addSnapshotModified.
  destruct (JSON_stringify (mi_previousState item)) as [text|e] eqn:Htext.
  - destruct (snapshots db !! snapshotId) as [c0|] eqn:Hlookup.
    + right. right. split; [by eexists|].
      eexists (SnapshotModifiedRow.mk _ _ _ _ _ _), _. split; [reflexivity|]. cbn. repeat split.
    + right. left. done.
  - left. eauto.
Qed.

(** What [updateSnapshotStatus] writes. *)
Lemma updateSnapshotStatus_returns (env : Env.t) (id status : string) (db : DB) :
  (updateSnapshotStatus env id status db).1 = Returned ().
Proof. reflexivity. Qed.

Lemma updateSnapshotStatus_lookup (env : Env.t) (id status : string) (db : DB) (id' : string) :
  snapshots (updateSnapshotStatus env id status db).2 !! id' =
    if decide (id = id') then
      set_status status
        (if bool_decide (status = "rolled-back") || bool_decide (status = "partial-rollback")
         then Some (Env.toISOString env) else None)
      <$> snapshots db !! id
    else snapshots db !! id'.
Proof. cbn. apply lookup_alter. Qed.

Lemma rollback_outcome_decide (status : string) :
  bool_decide (status = "rolled-back") || bool_decide (status = "partial-rollback") = true
  <-> rollback_outcome status.
Proof.
  unfold rollback_outcome. rewrite orb_true_iff, !bool_decide_eq_true. done.
Qed.

Lemma getSnapshot_updateSnapshotStatus (env : Env.t) (id status : string) (db : DB)
    (snapshot : Snapshot.t) :
  getSnapshot db id = Some snapshot ->
  getSnapshot (updateSnapshotStatus env id status db).2 id =
    Some {| Snapshot.id := Snapshot.id snapshot;
            Snapshot.description := Snapshot.description snapshot;
            Snapshot.operationType := Snapshot.operationType snapshot;
            Snapshot.command := Snapshot.command snapshot;
            Snapshot.createdAt := Snapshot.createdAt snapshot;
            Snapshot.rolledBackAt :=
              if bool_decide (status = "rolled-back")
                 || bool_decide (status = "partial-rollback")
              then Some (Env.toISOString env) else None;
            Snapshot.status := status |}.
Proof.
  intros (c & Hc & ->)%getSnapshot_Some.
  rewrite getSnapshot_lookup, updateSnapshotStatus_lookup, decide_True by done.
  rewrite Hc. reflexivity.
Qed.

Lemma getSnapshot_updateSnapshotStatus_ne (env : Env.t) (id status : string) (db : DB)
    (id' : string) :
  id' <> id ->
  getSnapshot (updateSnapshotStatus env id status db).2 id' = getSnapshot db id'.
Proof.
  intros Hne. rewrite !getSnapshot_lookup, updateSnapshotStatus_lookup.
  by rewrite decide_False by done.
Qed.

Lemma getSnapshot_updateSnapshotStatus_inv (env : Env.t) (id status : string) (db : DB)
    (snapshot' : Snapshot.t) :
  getSnapshot (updateSnapshotStatus env id status db).2 id = Some snapshot' ->
  exists snapshot, getSnapshot db id = Some snapshot.
Proof.
  rewrite !getSnapshot_lookup, updateSnapshotStatus_lookup, decide_True by done.
  destruct (snapshots db !! id); [eauto | done].
Qed.

Lemma getSnapshotDetails_updateSnapshotStatus_children (env : Env.t) (id status : string)
    (db : DB) (id' : string) (details : SnapshotDetails.t) :
  getSnapshotDetails db id' = Some details ->
  exists details',
    getSnapshotDetails (updateSnapshotStatus env id status db).2 id' = Some details'
    /\ SnapshotDetails.createdItems details' = SnapshotDetails.createdItems details
    /\ SnapshotDetails.modifiedItems details' = SnapshotDetails.modifiedItems details
    /\ SnapshotDetails.statusChanges details' = SnapshotDetails.statusChanges details.
Proof.
  unfold getSnapshotDetails.
  destruct (getSnapshot db id') as [s|] eqn:Hs; [|done]. intros [= <-].
  destruct (decide (id' = id)) as [->|Hne].
  - rewrite (getSnapshot_updateSnapshotStatus _ _ _ _ _ Hs). eexists. split; [done|]. done.
  - rewrite getSnapshot_updateSnapshotStatus_ne, Hs by done. eexists. split; [done|]. done.
Qed.

End RepositoryFacts.

(** ** The planner *)

Section PlannerFacts.
Import SnapshotRepository SnapshotManager.
Context {JSValue : Type} {H : Host JSValue}.

Lemma push_cancel_actions_spec (createdItems : list SnapshotCreatedItem.t)
      (actions : list (RollbackAction JSValue)) :
    push_cancel_actions createdItems actions = actions ++ (cancel_for <$> createdItems).
  Proof.
    unfold push_cancel_actions. revert actions.
    induction createdItems as [|item rest IH]; intros actions; cbn.
    - by rewrite app_nil_r.
    - rewrite IH. by rewrite <- app_assoc.
  Qed.

Lemma push_restore_actions_spec (modifiedItems : list SnapshotModifiedItem.t) :
    forall actions : list (RollbackAction JSValue),
    Forall (fun item => is_Returned (JSON_parse (SnapshotModifiedItem.previousState item)) = true)
           modifiedItems ->
    exists restored,
      push_restore_actions modifiedItems actions = Returned (actions ++ restored)
      /\ Forall2 restores modifiedItems restored.
  Proof.
    induction modifiedItems as [|item rest IH]; intros actions Hparse; cbn.
    - exists []. by rewrite app_nil_r.
    - inversion Hparse as [|? ? Hitem Hrest]; subst.
      destruct (JSON_parse (SnapshotModifiedItem.previousState item)) as [v|e] eqn:Hv;
        [|done].
      destruct (IH (actions ++ [restore (SnapshotModifiedItem.thingsId item)
                                        (SnapshotModifiedItem.itemType item) v]) Hrest)
        as (restored & -> & Hall).
      eexists (_ :: restored). split.
      + by rewrite <- app_assoc.
      + constructor; [|done]. by exists v.
  Qed.

Lemma push_restore_actions_returned (modifiedItems : list SnapshotModifiedItem.t) :
    forall actions result : list (RollbackAction JSValue),
    push_restore_actions modifiedItems actions = Returned result ->
    exists restored,
      result = actions ++ restored /\ Forall2 restores modifiedItems restored.
  Proof.
    induction modifiedItems as [|item rest IH]; intros actions result; cbn.
    - intros [= <-]. exists []. by rewrite app_nil_r.
    - destruct (JSON_parse (SnapshotModifiedItem.previousState item)) as [v|e] eqn:Hv;
        [|done].
      intros Hrest. destruct (IH _ _ Hrest) as (restored & -> & Hall).
      exists (restore (SnapshotModifiedItem.thingsId item)
                      (SnapshotModifiedItem.itemType item) v :: restored).
      split; [by rewrite <- app_assoc|]. constructor; [|done]. by exists v.
  Qed.

Lemma push_restore_actions_threw (modifiedItems : list SnapshotModifiedItem.t) :
    forall (actions : list (RollbackAction JSValue)) e,
    push_restore_actions modifiedItems actions = Threw e ->
    Exists (fun item => JSON_parse (SnapshotModifiedItem.previousState item) = Threw e)
           modifiedItems.
  Proof.
    induction modifiedItems as [|item rest IH]; intros actions e; cbn; [done|].
    destruct (JSON_parse (SnapshotModifiedItem.previousState item)) as [v|e'] eqn:Hv.
    - intros Hrest. right. by eapply IH.
    - intros [= <-]. by left.
  Qed.

(** The loop stops at the first stored previous state that [JSON.parse]
    rejects, with the error of that item. *)
Lemma push_restore_actions_first_failure (stored : list SnapshotModifiedItem.t) :
  forall (item : SnapshotModifiedItem.t) (rest : list SnapshotModifiedItem.t)
         (actions : list (RollbackAction JSValue)) (e : Thrown),
  Forall parseable stored ->
  JSON_parse (SnapshotModifiedItem.previousState item) = Threw e ->
  push_restore_actions (stored ++ item :: rest) actions = Threw e.
Proof.
  induction stored as [|first stored IH]; intros item rest actions e Hok He; cbn.
  - by rewrite He.
  - inversion Hok as [|? ? Hfirst Hrest]; subst. unfold parseable in Hfirst.
    destruct (JSON_parse (SnapshotModifiedItem.previousState first)); [|done].
    by apply IH.
Qed.


Lemma push_status_actions_spec (statusChanges : list SnapshotStatusChange.t)
      (actions : list (RollbackAction JSValue)) (warnings : list string) :
    push_status_actions statusChanges (actions, warnings) =
      (actions ++ (revert_for <$> filter (fun item => ~ is_canceled item) statusChanges),
       warnings ++ (warning_for <$> filter is_canceled statusChanges)).
  Proof.
    unfold push_status_actions. revert actions warnings.
    induction statusChanges as [|item rest IH]; intros actions warnings.
    - cbn. by rewrite !app_nil_r.
    - cbn [fold_left]. rewrite !filter_cons.
      unfold is_canceled at 1 3.
      case_bool_decide as Hc; rewrite IH; repeat case_decide;
        unfold is_canceled in *; try done;
        rewrite ?fmap_cons, <- ?app_assoc; done.
  Qed.

Lemma getSnapshotDetails_snapshot (db : DB) (id : string) (details : SnapshotDetails.t) :
    getSnapshotDetails db id = Some details ->
    getSnapshot db id = Some (SnapshotDetails.snapshot details).
  Proof.
    unfold getSnapshotDetails. destruct (getSnapshot db id) as [s|]; [|done].
    by intros [= <-].
  Qed.

Lemma getSnapshotDetails_None (db : DB) (id : string) :
    getSnapshotDetails db id = None <-> getSnapshot db id = None.
  Proof.
    unfold getSnapshotDetails. by destruct (getSnapshot db id).
  Qed.

Lemma getRollbackPlan_active (db : DB) (id : string) (details : SnapshotDetails.t) :
    getSnapshotDetails db id = Some details ->
    SnapshotDetails.status details = "active" ->
    Forall (fun item => is_Returned (JSON_parse (SnapshotModifiedItem.previousState item)) = true)
           (SnapshotDetails.modifiedItems details) ->
    exists restored,
      Forall2 restores (SnapshotDetails.modifiedItems details) restored
      /\ getRollbackPlan db id =
          Returned (Some
            {| plan_snapshotId := SnapshotDetails.id details;
               plan_operationType := SnapshotDetails.operationType details;
               plan_description := SnapshotDetails.description details;
               actions :=
                 (cancel_for <$> SnapshotDetails.createdItems details)
                 ++ restored
                 ++ (revert_for <$> filter (fun item => ~ is_canceled item)
                                           (SnapshotDetails.statusChanges details));
               warnings :=
                 warning_for <$> filter is_canceled (SnapshotDetails.statusChanges details) |}).
  Proof.
    intros Hdetails Hactive Hparse. unfold getRollbackPlan. rewrite Hdetails.
    rewrite bool_decide_eq_false_2 by (intros Hn; by apply Hn).
    rewrite push_cancel_actions_spec. cbn [app].
    destruct (push_restore_actions_spec _ (cancel_for <$> SnapshotDetails.createdItems details) Hparse)
      as (restored & -> & Hall).
    rewrite push_status_actions_spec. cbn [app].
    exists restored. split; [done|]. by rewrite <- app_assoc.
  Qed.

Lemma getRollbackPlan_returned (db : DB) (id : string) (plan : RollbackPlan JSValue) :
    getRollbackPlan db id = Returned (Some plan) ->
    exists details restored,
      getSnapshotDetails db id = Some details
      /\ SnapshotDetails.status details = "active"
      /\ Forall2 restores (SnapshotDetails.modifiedItems details) restored
      /\ actions plan =
           (cancel_for <$> SnapshotDetails.createdItems details)
           ++ restored
           ++ (revert_for <$> filter (fun item => ~ is_canceled item)
                                     (SnapshotDetails.statusChanges details))
      /\ warnings plan =
           warning_for <$> filter is_canceled (SnapshotDetails.statusChanges details).
  Proof.
    unfold getRollbackPlan.
    destruct (getSnapshotDetails db id) as [details|] eqn:Hdetails; [|done].
    case_bool_decide as Hactive; [done|].
    rewrite push_cancel_actions_spec. cbn [app].
    destruct (push_restore_actions _ _) as [result|e] eqn:Hrestore; [|done].
    destruct (push_restore_actions_returned _ _ _ Hrestore) as (restored & -> & Hall).
    rewrite push_status_actions_spec. cbn [app].
    intros [= <-]. exists details, restored. cbn.
    split_and!; [done | done | done | by rewrite <- app_assoc | done].
  Qed.

Lemma getRollbackPlan_null (db : DB) (id : string) :
    getRollbackPlan db id = Returned None <->
    getSnapshot db id = None
    \/ exists snapshot, getSnapshot db id = Some snapshot /\ Snapshot.status snapshot <> "active".
  Proof.
    unfold getRollbackPlan.
    destruct (getSnapshotDetails db id) as [details|] eqn:Hdetails.
    - pose proof (getSnapshotDetails_snapshot _ _ _ Hdetails) as Hs.
      case_bool_decide as Hactive.
      + split; [|done]. intros _. right. eauto.
      + split.
        * destruct (push_restore_actions _ _); [|done].
          by destruct (push_status_actions _ _).
        * intros [Hnone|(s & Hsome & Hne)]; [congruence|].
          rewrite Hs in Hsome. injection Hsome as <-. done.
    - apply getSnapshotDetails_None in Hdetails. split; [by left | done].
  Qed.
End PlannerFacts.

Section PlannerCounts.
Import SnapshotRepository SnapshotManager.
Context {JSValue : Type} {H : Host JSValue}.

Lemma count_actions_app (name : string) (l1 l2 : list (RollbackAction JSValue)) :
  count_actions name (l1 ++ l2) = (count_actions name l1 + count_actions name l2)%nat.
Proof. unfold count_actions. by rewrite filter_app, length_app. Qed.

Lemma count_actions_all (name : string) (l : list (RollbackAction JSValue)) :
  Forall (fun a : RollbackAction JSValue => action_name a = name) l -> count_actions name l = length l.
Proof.
  unfold count_actions. induction 1 as [|a l Ha _ IH]; [done|].
  rewrite filter_cons_True by done. cbn. by rewrite IH.
Qed.

Lemma count_actions_none (name : string) (l : list (RollbackAction JSValue)) :
  Forall (fun a : RollbackAction JSValue => action_name a <> name) l -> count_actions name l = 0%nat.
Proof.
  unfold count_actions. induction 1 as [|a l Ha _ IH]; [done|].
  by rewrite filter_cons_False by done.
Qed.

Lemma cancel_for_names (items : list SnapshotCreatedItem.t) :
  Forall (fun a : RollbackAction JSValue => action_name a = "cancel") (cancel_for <$> items).
Proof. apply Forall_fmap, Forall_true. done. Qed.

Lemma revert_for_names (items : list SnapshotStatusChange.t) :
  Forall (fun a : RollbackAction JSValue => action_name a = "revert-status") (revert_for <$> items).
Proof. apply Forall_fmap, Forall_true. done. Qed.

Lemma restores_names (items : list SnapshotModifiedItem.t) (restored : list (RollbackAction JSValue)) :
  Forall2 restores items restored ->
  Forall (fun a : RollbackAction JSValue => action_name a = "restore") restored.
Proof.
  induction 1 as [|item a items restored (v & _ & ->) _ IH]; constructor; done.
Qed.

Lemma Forall_name_ne (name name' : string) (l : list (RollbackAction JSValue)) :
  name <> name' ->
  Forall (fun a : RollbackAction JSValue => action_name a = name) l -> Forall (fun a : RollbackAction JSValue => action_name a <> name') l.
Proof. intros Hne Hall. eapply Forall_impl; [exact Hall|]. intros a ->. done. Qed.

Lemma length_filter_split {A} (P : A -> Prop) `{!forall x, Decision (P x)} (l : list A) :
  (length (filter P l) + length (filter (fun x => ~ P x) l))%nat = length l.
Proof.
  induction l as [|x l IH]; [done|].
  rewrite !filter_cons. destruct (decide (P x)).
  - rewrite decide_False by tauto. cbn. lia.
  - rewrite decide_True by done. cbn. lia.
Qed.


Lemma plan_counts (created : list SnapshotCreatedItem.t)
    (modified : list SnapshotModifiedItem.t) (restored : list (RollbackAction JSValue))
    (reverted : list SnapshotStatusChange.t) :
  Forall2 restores modified restored ->
  let actions := (cancel_for <$> created) ++ restored ++ (revert_for <$> reverted) in
  count_actions "cancel" actions = length created
  /\ count_actions "restore" actions = length modified
  /\ count_actions "revert-status" actions = length reverted
  /\ length actions = (length created + length modified + length reverted)%nat.
Proof.
  intros Hrestored actions. subst actions.
  pose proof (restores_names _ _ Hrestored) as Hr.
  pose proof (cancel_for_names created) as Hc.
  pose proof (revert_for_names reverted) as Hv.
  pose proof (Forall2_length _ _ _ Hrestored) as Hlen.
  rewrite !count_actions_app, !length_app, !length_fmap.
  rewrite (count_actions_all "cancel" _ Hc), (count_actions_all "restore" _ Hr),
    (count_actions_all "revert-status" _ Hv), !length_fmap.
  rewrite (count_actions_none "cancel" restored) by (eapply Forall_name_ne; [|exact Hr]; done).
  rewrite (count_actions_none "cancel" (revert_for <$> reverted))
    by (eapply Forall_name_ne; [|exact Hv]; done).
  rewrite (count_actions_none "restore" (cancel_for <$> created))
    by (eapply Forall_name_ne; [|exact Hc]; done).
  rewrite (count_actions_none "restore" (revert_for <$> reverted))
    by (eapply Forall_name_ne; [|exact Hv]; done).
  rewrite (count_actions_none "revert-status" (cancel_for <$> created))
    by (eapply Forall_name_ne; [|exact Hc]; done).
  rewrite (count_actions_none "revert-status" restored)
    by (eapply Forall_name_ne; [|exact Hr]; done).
  lia.
Qed.

End PlannerCounts.

Section PlannerClaims.
Import MiniJS SnapshotRepository SnapshotManager Examples.




(** C3.  [getRollbackPlan] returns [null] exactly when no snapshot has the id
    or the stored snapshot's status is not ['active']; and after
    [markRolledBack(id, 'rolled-back')] on a stored snapshot the status is
    ['rolled-back'] and [getRollbackPlan(id)] returns [null]. *)
Theorem rollback_plan_null_iff `{Host JSValue} :
  (forall (db : DB) (id : string),
     getRollbackPlan db id = Returned None <->
     getSnapshot db id = None
     \/ exists snapshot,
          getSnapshot db id = Some snapshot /\ Snapshot.status snapshot <> "active")
  /\ (forall (env : Env.t) (db : DB) (id : string) (snapshot : Snapshot.t),
        getSnapshot db id = Some snapshot ->
        exists db' snapshot',
          markRolledBack env id "rolled-back" db = (Returned (), db')
          /\ getSnapshot db' id = Some snapshot'
          /\ Snapshot.status snapshot' = "rolled-back"
          /\ getRollbackPlan db' id = Returned None).
Proof.
  split.
  - apply getRollbackPlan_null.
  - intros env db id snapshot Hs. unfold markRolledBack.
    eexists _, _. split; [reflexivity|].
    pose proof (getSnapshot_updateSnapshotStatus env id "rolled-back" db snapshot Hs) as Hs'.
    split; [exact Hs'|]. split; [reflexivity|].
    apply getRollbackPlan_null. right. eexists. split; [exact Hs'|]. done.
Qed.

Lemma rollback_plan_null_iff_witness :
  exists db',
    markRolledBack env1 snap0 "rolled-back" db_added = (Returned (), db')
    /\ getRollbackPlan db' snap0 = Returned None.
Proof.
  destruct (getSnapshot db_added snap0) as [snapshot|] eqn:Hsnapshot;
    [|vm_compute in Hsnapshot; discriminate].
  destruct (proj2 (rollback_plan_null_iff (H:=MiniJS.host)) env1 db_added snap0 snapshot Hsnapshot)
    as (db' & snapshot' & Hmark & _ & _ & Hnull).
  exists db'. split; [exact Hmark | exact Hnull].
Defined.

(** C6, as the code has it.  The number of actions of a plan is the number
    of created-item rows plus the number of modified-item rows plus the
    number of status-change rows whose new status is not ['canceled']; the
    status-change rows to ['canceled'] give the warnings, so actions and
    warnings together number as many as the rows. *)
Theorem rollback_plan_action_count `{Host JSValue} (db : DB) (id : string)
    (plan : RollbackPlan JSValue) (details : SnapshotDetails.t) :
  getRollbackPlan db id = Returned (Some plan) ->
  getSnapshotDetails db id = Some details ->
  length (actions plan) =
    (length (SnapshotDetails.createdItems details)
     + length (SnapshotDetails.modifiedItems details)
     + length (filter (fun item => ~ is_canceled item)
                      (SnapshotDetails.statusChanges details)))%nat
  /\ length (SnapshotManager.warnings plan) =
       length (filter is_canceled (SnapshotDetails.statusChanges details))
  /\ (length (actions plan) + length (SnapshotManager.warnings plan))%nat =
       (length (SnapshotDetails.createdItems details)
        + length (SnapshotDetails.modifiedItems details)
        + length (SnapshotDetails.statusChanges details))%nat.
Proof.
  intros Hplan Hdetails.
  destruct (getRollbackPlan_returned db id plan Hplan)
    as (details' & restored & Hdetails' & _ & Hrestored & Hactions & Hwarnings).
  rewrite Hdetails in Hdetails'. injection Hdetails' as <-.
  destruct (plan_counts (SnapshotDetails.createdItems details)
              (SnapshotDetails.modifiedItems details) restored
              (filter (fun item => ~ is_canceled item) (SnapshotDetails.statusChanges details))
              Hrestored) as (_ & _ & _ & Hlen).
  rewrite Hactions, Hwarnings, length_fmap.
  pose proof (length_filter_split is_canceled (SnapshotDetails.statusChanges details)).
  split_and!; [exact Hlen | done | lia].
Qed.

Lemma rollback_plan_action_count_witness :
  exists plan,
    getRollbackPlan db_mixed snap0 = Returned (Some plan)
    /\ length (actions plan) = 5%nat
    /\ length (SnapshotManager.warnings plan) = 1%nat.
Proof.
  edestruct (getSnapshotDetails db_mixed snap0) as [details|] eqn:Hdetails;
    [|vm_compute in Hdetails; discriminate].
  destruct (getRollbackPlan db_mixed snap0) as [[plan|]|e] eqn:Hplan;
    try (vm_compute in Hplan; discriminate).
  destruct (rollback_plan_action_count db_mixed snap0 plan details Hplan Hdetails)
    as (Hactions & Hwarnings & _).
  exists plan. split; [reflexivity|].
  vm_compute in Hdetails. injection Hdetails as <-.
  split; [exact Hactions | exact Hwarnings].
Defined.

(** C6 as stated fails on a status change to ['canceled']: the snapshot that
    [createStatusChangeSnapshot] stores for it has one status-change row, and
    its plan has no action. *)
Lemma rollback_plan_action_count_counterexample :
  exists plan details,
    getRollbackPlan db_canceled snap0 = Returned (Some plan)
    /\ getSnapshotDetails db_canceled snap0 = Some details
    /\ length (actions plan) = 0%nat
    /\ (length (SnapshotDetails.createdItems details)
        + length (SnapshotDetails.modifiedItems details)
        + length (SnapshotDetails.statusChanges details))%nat = 1%nat
    /\ SnapshotManager.warnings plan =
         [ "Item things-123 was canceled. Cancellation is irreversible in Things." ].
Proof.
  eexists _, _. split; [vm_compute; reflexivity|]. split; [vm_compute; reflexivity|].
  cbn. done.
Qed.

End PlannerClaims.

(** ** What each writing operation does to the [snapshots] table *)

Section SnapshotsTable.
Import SnapshotRepository SnapshotManager.
Context {JSValue : Type} {H : Host JSValue}.

Lemma createSnapshot_grows (env : Env.t) (input : CreateSnapshotInput.t)
    (id : option string) (db : DB) :
  grows_snapshots db (createSnapshot env input id db).2.
Proof.
  destruct (createSnapshot_cases env input id db)
    as [(_ & ->)|(Hfree & c & db' & -> & Hst & Hrb & _ & _ & _ & _ & Hmap & _)].
  - by left.
  - right. by exists (default (generateSnapshotId env) id), c.
Qed.

Lemma addSnapshotCreated_snapshots (snapshotId : string) (item : CreatedInput) (db : DB) :
  snapshots (addSnapshotCreated snapshotId item db).2 = snapshots db.
Proof. unfold addSnapshotCreated. by destruct (snapshots db !! snapshotId). Qed.

Lemma addSnapshotStatus_snapshots (snapshotId : string) (item : StatusInput) (db : DB) :
  snapshots (addSnapshotStatus snapshotId item db).2 = snapshots db.
Proof. unfold addSnapshotStatus. by destruct (snapshots db !! snapshotId). Qed.

Lemma addSnapshotModified_snapshots (snapshotId : string) (item : ModifiedInput JSValue)
    (db : DB) :
  snapshots (addSnapshotModified snapshotId item db).2 = snapshots db.
Proof.
  unfold addSnapshotModified. destruct (JSON_stringify _); [|done].
  by destruct (snapshots db !! snapshotId).
Qed.

(** A property that every insert keeps is kept by the creating operations
    of the Manager. *)
Section InsertOnly.
Variable P : DB -> Prop.
Hypothesis P_table : table_property P.
Hypothesis P_grows : forall db db', grows_snapshots db db' -> P db -> P db'.

Lemma createSnapshot_keeps env input id : preserves P (createSnapshot env input id).
Proof. intros db. apply P_grows, createSnapshot_grows. Qed.

Lemma addSnapshotCreated_keeps snapshotId item : preserves P (addSnapshotCreated snapshotId item).
Proof. intros db. apply P_table, addSnapshotCreated_snapshots. Qed.

Lemma addSnapshotModified_keeps snapshotId item :
  preserves P (addSnapshotModified snapshotId item).
Proof. intros db. apply P_table, addSnapshotModified_snapshots. Qed.

Lemma addSnapshotStatus_keeps snapshotId item : preserves P (addSnapshotStatus snapshotId item).
Proof. intros db. apply P_table, addSnapshotStatus_snapshots. Qed.

Lemma snapshot_id_keeps snapshot : preserves P (snapshot_id snapshot).
Proof. destruct snapshot; [apply preserves_ret | apply preserves_throw]. Qed.

Lemma createAddSnapshot_keeps env data : preserves P (createAddSnapshot env data).
Proof.
  unfold createAddSnapshot.
  apply preserves_bind; [apply createSnapshot_keeps | intros snapshot].
  apply preserves_bind; [apply snapshot_id_keeps | intros id].
  apply preserves_bind; [apply addSnapshotCreated_keeps | intros _; apply preserves_ret].
Qed.

Lemma createAddProjectSnapshot_keeps env data : preserves P (createAddProjectSnapshot env data).
Proof.
  unfold createAddProjectSnapshot.
  apply preserves_bind; [apply createSnapshot_keeps | intros snapshot].
  apply preserves_bind; [apply snapshot_id_keeps | intros id].
  apply preserves_bind; [apply addSnapshotCreated_keeps | intros _; apply preserves_ret].
Qed.

Lemma createUpdateSnapshot_keeps env data : preserves P (createUpdateSnapshot env data).
Proof.
  unfold createUpdateSnapshot.
  apply preserves_bind; [apply createSnapshot_keeps | intros snapshot].
  apply preserves_bind; [apply snapshot_id_keeps | intros id].
  apply preserves_bind; [apply addSnapshotModified_keeps | intros _; apply preserves_ret].
Qed.

Lemma createStatusChangeSnapshot_keeps env data :
  preserves P (createStatusChangeSnapshot env data).
Proof.
  unfold createStatusChangeSnapshot.
  apply preserves_bind; [apply createSnapshot_keeps | intros snapshot].
  apply preserves_bind; [apply snapshot_id_keeps | intros id].
  apply preserves_bind; [apply addSnapshotStatus_keeps | intros _; apply preserves_ret].
Qed.

Lemma createBulkSnapshot_keeps env data : preserves P (createBulkSnapshot env data).
Proof.
  unfold createBulkSnapshot.
  apply preserves_bind; [apply createSnapshot_keeps | intros snapshot].
  apply preserves_bind; [apply snapshot_id_keeps | intros id].
  apply preserves_bind;
    [apply preserves_for; intros item; apply addSnapshotCreated_keeps | intros _].
  apply preserves_bind;
    [apply preserves_for; intros item; apply addSnapshotModified_keeps | intros _].
  apply preserves_bind;
    [apply preserves_for; intros item; apply addSnapshotStatus_keeps | intros _].
  apply preserves_ret.
Qed.
End InsertOnly.

(** The two deleting operations only remove rows of [snapshots]. *)
Lemma deleteSnapshot_lookup (id : string) (db : DB) (id' : string) (c : SnapshotColumns.t) :
  snapshots (deleteSnapshot id db).2 !! id' = Some c -> snapshots db !! id' = Some c.
Proof. cbn. rewrite lookup_delete_Some. tauto. Qed.

Lemma purgeOldSnapshots_lookup (is_old : string -> bool) (db : DB) (id' : string)
    (c : SnapshotColumns.t) :
  snapshots (purgeOldSnapshots is_old db).2 !! id' = Some c -> snapshots db !! id' = Some c.
Proof. cbn. apply map_lookup_filter_Some_1_1. Qed.

End SnapshotsTable.

(** ** The executor *)

Section ExecutorFacts.
Import SnapshotRepository SnapshotManager Rollback.
Context {JSValue : Type} {H : Host JSValue}.
Variable client : list (ClientCall JSValue) -> ClientCall JSValue
                  -> Completion Thrown ExecutionResult.t.

Lemma failed_spec (message : string) (p : Progress JSValue) :
  one_more_failure p (failed message p) /\ sent (failed message p) = sent p.
Proof. unfold one_more_failure. cbn. eauto 10. Qed.

Lemma classify_spec (thingsId : string) (result : option ExecutionResult.t)
    (p : Progress JSValue) :
  (one_more_success p (classify thingsId result p)
   \/ one_more_failure p (classify thingsId result p))
  /\ sent (classify thingsId result p) = sent p.
Proof.
  unfold classify. destruct (match result with Some r => _ | None => _ end).
  - split; [left|]; done.
  - split; [right; apply failed_spec | done].
Qed.

Lemma dispatch_spec (thingsId : string) (call : ClientCall JSValue) (p : Progress JSValue) :
  let p' := dispatch client thingsId call p in
  (one_more_success p p' \/ one_more_failure p p') /\ sent p' = sent p ++ [call].
Proof.
  unfold dispatch.
  set (p1 := {| itemsRolledBack := itemsRolledBack p; itemsFailed := itemsFailed p;
                errors := errors p; sent := sent p ++ [call] |}).
  destruct (client (sent p) call) as [result|[message|]]; cbn zeta.
  - destruct (classify_spec thingsId (Some result) p1) as [Hc Hs]. split; [exact Hc|exact Hs].
  - destruct (failed_spec message p1) as [Hc Hs]. split; [right; exact Hc | exact Hs].
  - destruct (failed_spec "Unknown error" p1) as [Hc Hs]. split; [right; exact Hc | exact Hs].
Qed.

Lemma rollback_action_spec (p : Progress JSValue) (action : RollbackAction JSValue) :
  let p' := rollback_action client p action in
  (one_more_success p p' \/ one_more_failure p p')
  /\ sent p' = sent p ++ option_list (call_of action).
Proof.
  destruct action as [thingsId itemType|thingsId itemType data|thingsId itemType previousStatus];
    cbn [rollback_action call_of].
  - apply dispatch_spec.
  - destruct (ToBoolean data); [apply dispatch_spec|].
    unfold option_list. rewrite app_nil_r. apply classify_spec.
  - unfold option_list. rewrite app_nil_r. case_bool_decide.
    + split; [right; apply failed_spec | done].
    + apply classify_spec.
Qed.

(** A ['revert-status'] action sends nothing and counts as a failure. *)
Lemma rollback_action_revert_status (p : Progress JSValue)
    (thingsId itemType previousStatus : string) :
  rollback_action client p (revert_status thingsId itemType previousStatus) =
    failed (if bool_decide (previousStatus = "open")
            then "Cannot revert status for " +:+ thingsId
                 +:+ " - status changes are difficult to reverse"
            else "Failed to rollback " +:+ thingsId) p.
Proof. cbn. by case_bool_decide. Qed.

Lemma fold_rollback_action_spec (actions : list (RollbackAction JSValue)) :
  forall p : Progress JSValue,
  let p' := fold_left (rollback_action client) actions p in
  (itemsRolledBack p' + itemsFailed p' = itemsRolledBack p + itemsFailed p + length actions)%nat
  /\ (length (errors p') + itemsFailed p = length (errors p) + itemsFailed p')%nat
  /\ (itemsFailed p <= itemsFailed p')%nat
  /\ sent p' = sent p ++ omap call_of actions
  /\ errors p `prefix_of` errors p'.
Proof.
  induction actions as [|action actions IH]; intros p; cbn [fold_left].
  - cbn. rewrite app_nil_r. split_and!; try lia; done.
  - destruct (IH (rollback_action client p action)) as (Hsum & Herr & Hmono & Hsent & Hpre).
    destruct (rollback_action_spec p action) as [Hstep Hsent1].
    cbn zeta in *. rewrite Hsent, Hsent1, <- app_assoc.
    assert (Hcalls : option_list (call_of action) ++ omap call_of actions
                     = omap call_of (action :: actions)).
    { cbn. by destruct (call_of action). }
    rewrite Hcalls. cbn [length].
    destruct Hstep as [(Hr & Hf & He)|(Hr & Hf & message & He)].
    + rewrite Hr, Hf in *. rewrite He in *. split_and!; try lia; done.
    + rewrite Hr, Hf in *. rewrite He in *. rewrite length_app in Herr. cbn in Herr.
      split_and!; try lia; [done|].
      etrans; [|exact Hpre]. by apply prefix_app_r.
Qed.


(** A ['revert-status'] action anywhere in the plan leaves a failure and
    its message behind. *)
Lemma fold_rollback_action_revert_status (actions : list (RollbackAction JSValue)) :
  forall (p : Progress JSValue) (thingsId itemType previousStatus : string),
  revert_status thingsId itemType previousStatus ∈ actions ->
  let p' := fold_left (rollback_action client) actions p in
  (itemsFailed p < itemsFailed p')%nat
  /\ (if bool_decide (previousStatus = "open")
      then "Cannot revert status for " +:+ thingsId
           +:+ " - status changes are difficult to reverse"
      else "Failed to rollback " +:+ thingsId) ∈ errors p'.
Proof.
  induction actions as [|action actions IH]; intros p thingsId itemType previousStatus Hin;
    [by apply elem_of_nil in Hin|].
  cbn [fold_left]. apply elem_of_cons in Hin as [<-|Hin].
  - rewrite rollback_action_revert_status.
    destruct (fold_rollback_action_spec actions
                (failed (if bool_decide (previousStatus = "open")
                         then "Cannot revert status for " +:+ thingsId
                              +:+ " - status changes are difficult to reverse"
                         else "Failed to rollback " +:+ thingsId) p))
      as (_ & _ & Hmono & _ & Hpre).
    cbn zeta in *. cbn [itemsFailed failed] in Hmono. split; [lia|].
    eapply elem_of_prefix; [|exact Hpre]. cbn. apply elem_of_app. right. by left.
  - destruct (IH (rollback_action client p action) _ _ _ Hin) as [Hlt Hmsg].
    destruct (rollback_action_spec p action) as [[(_ & Hf & _)|(_ & Hf & _)] _];
      cbn zeta in *; split; try lia; done.
Qed.

Lemma execute_actions_revert_status (already_sent : list (ClientCall JSValue))
    (actions : list (RollbackAction JSValue)) (thingsId itemType previousStatus : string) :
  revert_status thingsId itemType previousStatus ∈ actions ->
  (0 < itemsFailed (execute_actions client already_sent actions))%nat.
Proof.
  intros Hin. unfold execute_actions.
  destruct (fold_rollback_action_revert_status actions
              {| itemsRolledBack := 0; itemsFailed := 0; errors := []; sent := already_sent |}
              thingsId itemType previousStatus Hin) as [Hlt _].
  exact Hlt.
Qed.

(** *** [rollbackCommand] by cases *)

Lemma authenticated_check (authToken : option string) :
  authenticated authToken ->
  match authToken with
  | None => true
  | Some token => bool_decide (token = EmptyString)
  end = false.
Proof. intros (token & -> & Hne). by rewrite bool_decide_eq_false_2. Qed.

Lemma rollbackCommand_dry_run (authToken : option string) (env : Env.t) (id : string)
    (options : RollbackOptions) (w : World JSValue) (plan : RollbackPlan JSValue) :
  authenticated authToken ->
  dryRun options = true ->
  getRollbackPlan (db w) id = Returned (Some plan) ->
  rollbackCommand client authToken env id options w =
    ({| success := true; snapshotId := id; Rollback.plan := Some plan; result := None;
        error := None; Rollback.warnings := Some (SnapshotManager.warnings plan) |}, w).
Proof.
  intros Hauth Hdry Hplan. unfold rollbackCommand.
  rewrite (authenticated_check _ Hauth), Hplan, Hdry. reflexivity.
Qed.

Lemma rollbackCommand_execute (authToken : option string) (env : Env.t) (id : string)
    (options : RollbackOptions) (w : World JSValue) (plan : RollbackPlan JSValue) :
  authenticated authToken ->
  dryRun options = false ->
  getRollbackPlan (db w) id = Returned (Some plan) ->
  let p := execute_actions client (dispatched w) (actions plan) in
  let ok := bool_decide (itemsFailed p = 0%nat) in
  rollbackCommand client authToken env id options w =
    ({| success := ok; snapshotId := id; Rollback.plan := Some plan;
        result := Some {| RollbackResult.success := ok;
                          RollbackResult.snapshotId := id;
                          RollbackResult.itemsRolledBack := itemsRolledBack p;
                          RollbackResult.itemsFailed := itemsFailed p;
                          RollbackResult.errors := errors p |};
        error := None; Rollback.warnings := Some (SnapshotManager.warnings plan) |},
     {| db := (markRolledBack env id (final_status (itemsFailed p)) (db w)).2;
        dispatched := sent p |}).
Proof.
  intros Hauth Hdry Hplan p ok. unfold rollbackCommand.
  rewrite (authenticated_check _ Hauth), Hplan, Hdry. fold p.
  replace (if bool_decide (itemsFailed p = 0%nat) then "rolled-back" else "partial-rollback")
    with (final_status (itemsFailed p))
    by (destruct (itemsFailed p); reflexivity).
  reflexivity.
Qed.

(** When no plan is executed the command changes nothing. *)
Lemma rollbackCommand_unchanged (authToken : option string) (env : Env.t) (id : string)
    (options : RollbackOptions) (w : World JSValue) :
  (rollbackCommand client authToken env id options w).2 = w
  \/ exists plan,
       authenticated authToken
       /\ dryRun options = false
       /\ getRollbackPlan (db w) id = Returned (Some plan).
Proof.
  unfold rollbackCommand.
  destruct authToken as [token|]; [|by left].
  case_bool_decide as Htoken; [by left|].
  destruct (getRollbackPlan (db w) id) as [[plan|]|e] eqn:Hplan.
  - destruct (dryRun options) eqn:Hdry; [by left|].
    right. exists plan. split; [by exists token | done].
  - left. destruct (getSnapshot (db w) id); [|done]. by case_bool_decide.
  - by left.
Qed.

Lemma rollbackCommand_not_active (authToken : option string) (env : Env.t) (id : string)
    (options : RollbackOptions) (w : World JSValue) (snapshot : Snapshot.t) :
  getSnapshot (db w) id = Some snapshot ->
  Snapshot.status snapshot <> "active" ->
  exists message,
    rollbackCommand client authToken env id options w = (failure id message, w).
Proof.
  intros Hs Hstatus. unfold rollbackCommand.
  destruct (match authToken with None => true | Some token => _ end); [eauto|].
  assert (Hnull : getRollbackPlan (db w) id = Returned None).
  { apply getRollbackPlan_null. right. eauto. }
  rewrite Hnull, Hs. rewrite bool_decide_eq_true_2 by done. eauto.
Qed.

End ExecutorFacts.

Section ExecutorClaims.
Import MiniJS SnapshotRepository SnapshotManager Rollback Examples.



(** C10.  A ['revert-status'] action sends no command and is counted as a
    failure: with the message that the status cannot be reverted when the
    previous status is ['open'], with the generic message for any other
    previous status.  So an executed rollback whose plan has a
    ['revert-status'] action reports failure and marks the snapshot
    ['partial-rollback']. *)
Theorem revert_status_always_fails `{Host JSValue}
    (client : list (ClientCall JSValue) -> ClientCall JSValue
              -> Completion Thrown ExecutionResult.t) :
  (forall (p : Progress JSValue) (thingsId itemType previousStatus : string),
     let p' := rollback_action client p (revert_status thingsId itemType previousStatus) in
     sent p' = sent p
     /\ itemsRolledBack p' = itemsRolledBack p
     /\ itemsFailed p' = S (itemsFailed p)
     /\ errors p' =
          errors p ++
          [ if bool_decide (previousStatus = "open")
            then "Cannot revert status for " +:+ thingsId
                 +:+ " - status changes are difficult to reverse"
            else "Failed to rollback " +:+ thingsId ])
  /\ (forall (authToken : option string) (env : Env.t) (id : string)
             (options : RollbackOptions) (w : World JSValue) (plan : RollbackPlan JSValue)
             (thingsId itemType previousStatus : string),
        authenticated authToken ->
        dryRun options = false ->
        getRollbackPlan (db w) id = Returned (Some plan) ->
        revert_status thingsId itemType previousStatus ∈ actions plan ->
        exists (r : RollbackCommandResult JSValue) (w' : World JSValue)
               (outcome : RollbackResult.t) (snapshot' : Snapshot.t),
          rollbackCommand client authToken env id options w = (r, w')
          /\ success r = false
          /\ result r = Some outcome
          /\ (1 <= RollbackResult.itemsFailed outcome)%nat
          /\ (if bool_decide (previousStatus = "open")
              then "Cannot revert status for " +:+ thingsId
                   +:+ " - status changes are difficult to reverse"
              else "Failed to rollback " +:+ thingsId) ∈ RollbackResult.errors outcome
          /\ getSnapshot (db w') id = Some snapshot'
          /\ Snapshot.status snapshot' = "partial-rollback").
Proof.
  split.
  - intros p thingsId itemType previousStatus p'. subst p'.
    rewrite rollback_action_revert_status. cbn. done.
  - intros authToken env id options w plan thingsId itemType previousStatus
      Hauth Hdry Hplan Hin.
    rewrite (rollbackCommand_execute client authToken env id options w plan Hauth Hdry Hplan).
    set (p := execute_actions client (dispatched w) (actions plan)).
    pose proof (execute_actions_revert_status client (dispatched w) (actions plan)
                  thingsId itemType previousStatus Hin) as Hlt.
    destruct (fold_rollback_action_revert_status client (actions plan)
                {| itemsRolledBack := 0; itemsFailed := 0; errors := [];
                   sent := dispatched w |} thingsId itemType previousStatus Hin)
      as [_ Hmsg].
    change (fold_left (rollback_action client) (actions plan) _) with p in Hmsg.
    fold p in Hlt.
    destruct (getRollbackPlan_returned (db w) id plan Hplan)
      as (details & _ & Hdetails & _).
    pose proof (getSnapshotDetails_snapshot _ _ _ Hdetails) as Hs.
    pose proof (getSnapshot_updateSnapshotStatus env id (final_status (itemsFailed p))
                  (db w) _ Hs) as Hs'.
    eexists _, _, _, _. split; [reflexivity|]. cbn.
    split_and!; cbn.
    + apply bool_decide_eq_false_2. lia.
    + reflexivity.
    + cbn. lia.
    + exact Hmsg.
    + exact Hs'.
    + cbn. destruct (itemsFailed p); [lia | reflexivity].
Qed.

(** The bulk snapshot of [Examples.mixed_bulk] against an application that
    accepts every command: the two ['revert-status'] actions still fail. *)
Lemma revert_status_always_fails_witness :
  exists (r : RollbackCommandResult value) (w' : World value),
    rollbackCommand accepting (Some "token") env1 snap0 execute (world db_mixed) = (r, w')
    /\ success r = false
    /\ (RollbackResult.errors <$> result r) =
         Some [ "Cannot revert status for status-1 - status changes are difficult to reverse";
                "Failed to rollback status-3" ]
    /\ Snapshot.status <$> getSnapshot (db w') snap0 = Some "partial-rollback".
Proof.
  destruct (getRollbackPlan (db (world db_mixed)) snap0) as [[plan|]|e] eqn:Hplan;
    try (vm_compute in Hplan; discriminate).
  assert (Hin : revert_status "status-1" "to-do" "open" ∈ actions plan).
  { pose proof Hplan as Hvalue. vm_compute in Hvalue. injection Hvalue as <-.
    cbn. rewrite !elem_of_cons. right. right. right. left. reflexivity. }
  destruct (proj2 (revert_status_always_fails accepting) (Some "token") env1 snap0
              execute (world db_mixed) plan "status-1" "to-do" "open")
    as (r & w' & outcome & snapshot' & Hrun & _).
  - exists "token". split; [reflexivity | discriminate].
  - reflexivity.
  - exact Hplan.
  - exact Hin.
  - exists r, w'. split; [exact Hrun|].
    vm_compute in Hrun. injection Hrun as <- <-. vm_compute. split_and!; reflexivity.
Defined.

(** C9, as the code has it.  In dry-run mode the command dispatches nothing
    and leaves the database as it is, in every case; the same command run
    afterwards, dry or not, behaves as if the dry run had not happened.
    When an auth token is configured and the plan of the snapshot is
    computed, the dry run succeeds and returns that plan and its warnings.
    (Without an auth token the command returns the authentication error
    before it looks at the snapshot.) *)
Theorem dry_run_changes_nothing `{Host JSValue}
    (client : list (ClientCall JSValue) -> ClientCall JSValue
              -> Completion Thrown ExecutionResult.t)
    (authToken : option string) (env : Env.t) (id : string)
    (options : RollbackOptions) (w : World JSValue) :
  dryRun options = true ->
  (rollbackCommand client authToken env id options w).2 = w
  /\ dispatched (rollbackCommand client authToken env id options w).2 = dispatched w
  /\ getSnapshotDetails (db (rollbackCommand client authToken env id options w).2) id
     = getSnapshotDetails (db w) id
  /\ (forall (env' : Env.t) (options' : RollbackOptions),
        rollbackCommand client authToken env' id options'
          (rollbackCommand client authToken env id options w).2
        = rollbackCommand client authToken env' id options' w)
  /\ (forall plan : RollbackPlan JSValue,
        authenticated authToken ->
        getRollbackPlan (db w) id = Returned (Some plan) ->
        (rollbackCommand client authToken env id options w).1 =
          {| success := true; snapshotId := id; Rollback.plan := Some plan;
             result := None; error := None;
             Rollback.warnings := Some (SnapshotManager.warnings plan) |}).
Proof.
  intros Hdry.
  assert (Hsame : (rollbackCommand client authToken env id options w).2 = w).
  { destruct (rollbackCommand_unchanged client authToken env id options w)
      as [Hw|(plan & _ & Hnot & _)]; [exact Hw | congruence]. }
  rewrite Hsame. split_and!; try done.
  intros plan Hauth Hplan.
  by rewrite (rollbackCommand_dry_run client authToken env id options w plan Hauth Hdry Hplan).
Qed.

Lemma dry_run_changes_nothing_witness :
  rollbackCommand accepting (Some "token") env1 snap0 dry_run (world db_mixed) =
    ({| success := true; snapshotId := snap0;
        Rollback.plan :=
          Some {| plan_snapshotId := snap0;
                  plan_operationType := "json";
                  plan_description := "Bulk operation: 6 items";
                  actions :=
                    [ cancel "new-1" "to-do"; cancel "proj-1" "project";
                      restore "mod-1" "to-do" (VObject [("title", VString "Old")]);
                      revert_status "status-1" "to-do" "open";
                      revert_status "status-3" "to-do" "completed" ];
                  SnapshotManager.warnings :=
                    [ "Item status-2 was canceled. Cancellation is irreversible in Things." ] |};
        result := None; error := None;
        Rollback.warnings :=
          Some [ "Item status-2 was canceled. Cancellation is irreversible in Things." ] |},
     world db_mixed).
Proof.
  destruct (dry_run_changes_nothing accepting (Some "token") env1 snap0 dry_run
              (world db_mixed) eq_refl) as (Hsame & _ & _ & _ & Hplan).
  apply injective_projections; [|exact Hsame].
  apply Hplan.
  - exists "token". split; [reflexivity | discriminate].
  - vm_compute. reflexivity.
Defined.

(** C9 as stated fails when no auth token is configured: the dry run of an
    active snapshot returns the authentication error and no plan. *)
Lemma dry_run_changes_nothing_counterexample :
  Snapshot.status <$> getSnapshot db_added snap0 = Some "active"
  /\ rollbackCommand accepting None env1 snap0 dry_run (world db_added) =
       ({| success := false; snapshotId := snap0; Rollback.plan := None; result := None;
           error := Some ("Authentication required. Run " +:+ dquote
                          +:+ "things3 auth setup <token>" +:+ dquote +:+ " first.");
           Rollback.warnings := None |},
        world db_added).
Proof. split; vm_compute; reflexivity. Qed.

End ExecutorClaims.

(** ** Status and [rolledBackAt] of stored snapshots *)

Section StatusFacts.
Import SnapshotRepository SnapshotManager Rollback.
Context {JSValue : Type} {H : Host JSValue}.

Lemma consistent_columns (db : DB) :
  rolled_back_at_consistent db <->
  forall id c,
    snapshots db !! id = Some c ->
    (SnapshotColumns.rolled_back_at c <> None <-> rollback_outcome (SnapshotColumns.status c)).
Proof.
  unfold rolled_back_at_consistent, stamped_iff_rolled_back. split.
  - intros Hall id c Hc. apply (Hall id (rowToSnapshot (row_of id c))).
    apply getSnapshot_Some. eauto.
  - intros Hall id snapshot (c & Hc & ->)%getSnapshot_Some. cbn. by apply (Hall id).
Qed.

Lemma consistent_table : table_property rolled_back_at_consistent.
Proof.
  intros db db' Heq. rewrite !consistent_columns, Heq. done.
Qed.

Lemma active_is_no_outcome : ~ rollback_outcome "active".
Proof. intros [Hr|Hp]; discriminate. Qed.

Lemma consistent_grows (db db' : DB) :
  grows_snapshots db db' -> rolled_back_at_consistent db -> rolled_back_at_consistent db'.
Proof.
  intros [Heq|(id0 & c0 & Hfree & Hstatus & Hstamp & Heq)].
  - by apply consistent_table.
  - rewrite !consistent_columns, Heq. intros Hall id c.
    rewrite lookup_insert_Some. intros [[<- <-]|[_ Hc]]; [|by apply (Hall id)].
    rewrite Hstatus, Hstamp. split; [done | intros Hout; by apply active_is_no_outcome in Hout].
Qed.

Lemma consistent_shrinks (db db' : DB) :
  (forall id c, snapshots db' !! id = Some c -> snapshots db !! id = Some c) ->
  rolled_back_at_consistent db -> rolled_back_at_consistent db'.
Proof.
  rewrite !consistent_columns. intros Hsub Hall id c Hc. apply (Hall id), Hsub, Hc.
Qed.

Lemma updateSnapshotStatus_stamp (env : Env.t) (status : string) :
  let rolledBackAt :=
    if bool_decide (status = "rolled-back") || bool_decide (status = "partial-rollback")
    then Some (Env.toISOString env) else None in
  (rolledBackAt <> None <-> rollback_outcome status)
  /\ (rollback_outcome status -> rolledBackAt = Some (Env.toISOString env))
  /\ (~ rollback_outcome status -> rolledBackAt = None).
Proof.
  cbn zeta. pose proof (rollback_outcome_decide status) as Hd.
  destruct (bool_decide (status = "rolled-back") || bool_decide (status = "partial-rollback")).
  - split_and!; [|done|]; [split; [intros _; by apply Hd | done] | intros Hn; destruct Hn; by apply Hd].
  - split_and!; [|intros Hout; apply Hd in Hout; done|done].
    split; [done | intros Hout; apply Hd in Hout; done].
Qed.

Lemma consistent_updateSnapshotStatus (env : Env.t) (id status : string) (db : DB) :
  rolled_back_at_consistent db ->
  rolled_back_at_consistent (updateSnapshotStatus env id status db).2.
Proof.
  rewrite !consistent_columns. intros Hall id' c.
  rewrite updateSnapshotStatus_lookup. case_decide as Hid; [subst id'|by apply (Hall id')].
  destruct (snapshots db !! id) as [c0|]; [|done]. intros [= <-]. cbn.
  apply updateSnapshotStatus_stamp.
Qed.

(** Every writing operation keeps [rolled_back_at_consistent]. *)
Lemma consistent_run (op : Operation.t JSValue) (db : DB) :
  rolled_back_at_consistent db -> rolled_back_at_consistent (Operation.run op db).
Proof.
  destruct op; cbn [Operation.run].
  - apply createSnapshot_keeps, consistent_grows.
  - apply addSnapshotCreated_keeps, consistent_table.
  - apply addSnapshotModified_keeps, consistent_table.
  - apply addSnapshotStatus_keeps, consistent_table.
  - apply consistent_updateSnapshotStatus.
  - apply consistent_shrinks, deleteSnapshot_lookup.
  - apply consistent_shrinks, purgeOldSnapshots_lookup.
  - apply createAddSnapshot_keeps; [apply consistent_table | apply consistent_grows].
  - apply createAddProjectSnapshot_keeps; [apply consistent_table | apply consistent_grows].
  - apply createUpdateSnapshot_keeps; [apply consistent_table | apply consistent_grows].
  - apply createStatusChangeSnapshot_keeps; [apply consistent_table | apply consistent_grows].
  - apply createBulkSnapshot_keeps; [apply consistent_table | apply consistent_grows].
  - apply consistent_updateSnapshotStatus.
Qed.

Lemma consistent_empty : rolled_back_at_consistent empty_db.
Proof. apply consistent_columns. intros id c. cbn. by rewrite lookup_empty. Qed.

(** The stored columns of [id] are [c]. *)
Lemma stored_table (id : string) (c : SnapshotColumns.t) :
  table_property (fun db => snapshots db !! id = Some c).
Proof. intros db db' Heq. by rewrite Heq. Qed.

Lemma stored_grows (id : string) (c : SnapshotColumns.t) (db db' : DB) :
  grows_snapshots db db' -> snapshots db !! id = Some c -> snapshots db' !! id = Some c.
Proof.
  intros [Heq|(id0 & c0 & Hfree & _ & _ & Heq)] Hc; rewrite Heq; [done|].
  rewrite lookup_insert_ne; [done|]. intros ->. congruence.
Qed.

(** An operation that is not a status update of [id] leaves the stored
    columns of [id] as they are, or deletes the snapshot. *)
Lemma columns_run (op : Operation.t JSValue) (db : DB) (id : string)
    (c c' : SnapshotColumns.t) :
  ~ Operation.updates_status_of id op ->
  snapshots db !! id = Some c ->
  snapshots (Operation.run op db) !! id = Some c' ->
  c' = c.
Proof.
  intros Hop Hc.
  assert (Hkeep : forall m : Stateful DB (option Snapshot.t),
            preserves (fun db => snapshots db !! id = Some c) m ->
            snapshots (m db).2 !! id = Some c' -> c' = c).
  { intros m Hm Hc'. specialize (Hm db Hc). cbn in Hm. congruence. }
  assert (Hkeep' : forall m : Stateful DB unit,
            preserves (fun db => snapshots db !! id = Some c) m ->
            snapshots (m db).2 !! id = Some c' -> c' = c).
  { intros m Hm Hc'. specialize (Hm db Hc). cbn in Hm. congruence. }
  destruct op; cbn [Operation.run Operation.updates_status_of] in *.
  - apply Hkeep, createSnapshot_keeps, stored_grows.
  - apply Hkeep', addSnapshotCreated_keeps, stored_table.
  - apply Hkeep', addSnapshotModified_keeps, stored_table.
  - apply Hkeep', addSnapshotStatus_keeps, stored_table.
  - rewrite updateSnapshotStatus_lookup, decide_False by done. congruence.
  - intros Hc'%deleteSnapshot_lookup. congruence.
  - intros Hc'%purgeOldSnapshots_lookup. congruence.
  - apply Hkeep, createAddSnapshot_keeps; [apply stored_table | apply stored_grows].
  - apply Hkeep, createAddProjectSnapshot_keeps; [apply stored_table | apply stored_grows].
  - apply Hkeep, createUpdateSnapshot_keeps; [apply stored_table | apply stored_grows].
  - apply Hkeep, createStatusChangeSnapshot_keeps; [apply stored_table | apply stored_grows].
  - apply Hkeep, createBulkSnapshot_keeps; [apply stored_table | apply stored_grows].
  - unfold markRolledBack. rewrite updateSnapshotStatus_lookup, decide_False by done.
    congruence.
Qed.

Lemma getSnapshot_run (op : Operation.t JSValue) (db : DB) (id : string)
    (snapshot snapshot' : Snapshot.t) :
  ~ Operation.updates_status_of id op ->
  getSnapshot db id = Some snapshot ->
  getSnapshot (Operation.run op db) id = Some snapshot' ->
  snapshot' = snapshot.
Proof.
  intros Hop (c & Hc & ->)%getSnapshot_Some (c' & Hc' & ->)%getSnapshot_Some.
  by rewrite (columns_run op db id c c' Hop Hc Hc').
Qed.

End StatusFacts.

Section StatusClaims.
Import MiniJS SnapshotRepository SnapshotManager Rollback Examples.

(** C8.  [updateSnapshotStatus(id, status)] writes [status] on the stored
    snapshot and sets [rolledBackAt] to the current time when [status] is
    ['rolled-back'] or ['partial-rollback'], to [null] for any other
    status; so after the call [rolledBackAt] of that snapshot is non-null
    exactly when its status is one of those two.  The other snapshots are
    not touched.  The equivalence holds for every snapshot of a database
    that the Store and the Manager have written: it holds on the empty
    database and every writing operation keeps it. *)
Theorem update_status_stamps_rolled_back_at `{Host JSValue} :
  (forall (env : Env.t) (id status : string) (db : DB) (snapshot : Snapshot.t),
     getSnapshot db id = Some snapshot ->
     exists snapshot',
       getSnapshot (updateSnapshotStatus env id status db).2 id = Some snapshot'
       /\ Snapshot.status snapshot' = status
       /\ (Snapshot.rolledBackAt snapshot' <> None <-> rollback_outcome status)
       /\ (rollback_outcome status ->
           Snapshot.rolledBackAt snapshot' = Some (Env.toISOString env))
       /\ (~ rollback_outcome status -> Snapshot.rolledBackAt snapshot' = None))
  /\ (forall (env : Env.t) (id status : string) (db : DB) (id' : string),
        id' <> id ->
        getSnapshot (updateSnapshotStatus env id status db).2 id' = getSnapshot db id')
  /\ rolled_back_at_consistent empty_db
  /\ (forall (op : Operation.t JSValue) (db : DB),
        rolled_back_at_consistent db -> rolled_back_at_consistent (Operation.run op db)).
Proof.
  split_and!.
  - intros env id status db snapshot Hs.
    eexists. split; [apply (getSnapshot_updateSnapshotStatus env id status db snapshot Hs)|].
    cbn. split; [reflexivity|]. apply updateSnapshotStatus_stamp.
  - intros env id status db id' Hne. by apply getSnapshot_updateSnapshotStatus_ne.
  - apply consistent_empty.
  - apply consistent_run.
Qed.

(** The snapshot of an added to-do, marked ['rolled-back'] one minute after
    its creation. *)
Lemma update_status_stamps_rolled_back_at_witness :
  exists snapshot',
    getSnapshot (updateSnapshotStatus env1 snap0 "rolled-back" db_added).2 snap0
      = Some snapshot'
    /\ Snapshot.status snapshot' = "rolled-back"
    /\ Snapshot.rolledBackAt snapshot' = Some "2023-11-14T22:14:20.000Z".
Proof.
  destruct (getSnapshot db_added snap0) as [snapshot|] eqn:Hsnapshot;
    [|vm_compute in Hsnapshot; discriminate].
  destruct (proj1 (update_status_stamps_rolled_back_at (H:=host)) env1 snap0 "rolled-back"
              db_added snapshot Hsnapshot)
    as (snapshot' & Hs' & Hstatus & _ & Hstamp & _).
  exists snapshot'. split_and!; [exact Hs' | exact Hstatus |].
  apply Hstamp. left. reflexivity.
Defined.

(** C5, as the code has it.  [updateSnapshotStatus] and [markRolledBack]
    write the status they are given on the stored snapshot whatever its
    status was, also over a terminal one.  No other writing operation of the
    Store or of the Manager changes a stored snapshot: after it the snapshot
    is as it was, or it has been deleted.  Rollback is at most once where it
    is executed: [rollbackCommand] returns an error and changes nothing for
    a snapshot whose status is not ['active']; it changes the status of a
    snapshot only from ['active'] to ['rolled-back'] or ['partial-rollback'];
    and after it has executed a plan, a second run on the same snapshot
    changes nothing. *)
Theorem status_written_only_by_update `{Host JSValue}
    (client : list (ClientCall JSValue) -> ClientCall JSValue
              -> Completion Thrown ExecutionResult.t) :
  (forall (env : Env.t) (id status : string) (db : DB) (snapshot : Snapshot.t),
     getSnapshot db id = Some snapshot ->
     (exists snapshot',
        getSnapshot (updateSnapshotStatus env id status db).2 id = Some snapshot'
        /\ Snapshot.status snapshot' = status)
     /\ (exists snapshot',
           getSnapshot (markRolledBack env id status db).2 id = Some snapshot'
           /\ Snapshot.status snapshot' = status))
  /\ (forall (op : Operation.t JSValue) (db : DB) (id : string)
             (snapshot snapshot' : Snapshot.t),
        ~ Operation.updates_status_of id op ->
        getSnapshot db id = Some snapshot ->
        getSnapshot (Operation.run op db) id = Some snapshot' ->
        snapshot' = snapshot)
  /\ (forall (authToken : option string) (env : Env.t) (id : string)
             (options : RollbackOptions) (w : World JSValue) (snapshot : Snapshot.t),
        getSnapshot (db w) id = Some snapshot ->
        Snapshot.status snapshot <> "active" ->
        exists message,
          rollbackCommand client authToken env id options w = (failure id message, w))
  /\ (forall (authToken : option string) (env : Env.t) (id : string)
             (options : RollbackOptions) (w : World JSValue) (id' : string)
             (snapshot snapshot' : Snapshot.t),
        getSnapshot (db w) id' = Some snapshot ->
        getSnapshot (db (rollbackCommand client authToken env id options w).2) id'
          = Some snapshot' ->
        snapshot' = snapshot
        \/ (id' = id
            /\ Snapshot.status snapshot = "active"
            /\ rollback_outcome (Snapshot.status snapshot')))
  /\ (forall (authToken : option string) (env env' : Env.t) (id : string)
             (options options' : RollbackOptions) (w : World JSValue)
             (plan : RollbackPlan JSValue),
        authenticated authToken ->
        dryRun options = false ->
        getRollbackPlan (db w) id = Returned (Some plan) ->
        let w' := (rollbackCommand client authToken env id options w).2 in
        exists message,
          rollbackCommand client authToken env' id options' w' = (failure id message, w')).
Proof.
  assert (Hexecuted : forall (authToken : option string) (env : Env.t) (id : string)
            (options : RollbackOptions) (w : World JSValue) (plan : RollbackPlan JSValue),
            authenticated authToken ->
            dryRun options = false ->
            getRollbackPlan (db w) id = Returned (Some plan) ->
            exists (n : nat) (snapshot : Snapshot.t),
              db (rollbackCommand client authToken env id options w).2
                = (updateSnapshotStatus env id (final_status n) (db w)).2
              /\ getSnapshot (db w) id = Some snapshot
              /\ Snapshot.status snapshot = "active").
  { intros authToken env id options w plan Hauth Hdry Hplan.
    rewrite (rollbackCommand_execute client authToken env id options w plan Hauth Hdry Hplan).
    destruct (getRollbackPlan_returned (db w) id plan Hplan)
      as (details & _ & Hdetails & Hactive & _).
    eexists _, _. split; [reflexivity|].
    split; [apply (getSnapshotDetails_snapshot _ _ _ Hdetails) | exact Hactive]. }
  assert (Hfinal : forall n, rollback_outcome (final_status n)).
  { intros [|n]; [by left | by right]. }
  split_and!.
  - intros env id status db snapshot Hs.
    pose proof (getSnapshot_updateSnapshotStatus env id status db snapshot Hs) as Hs'.
    split; eexists; (split; [exact Hs' | reflexivity]).
  - intros op db id snapshot snapshot'. apply getSnapshot_run.
  - intros authToken env id options w snapshot.
    apply rollbackCommand_not_active.
  - intros authToken env id options w id' snapshot snapshot' Hs Hs'.
    destruct (rollbackCommand_unchanged client authToken env id options w)
      as [Hw|(plan & Hauth & Hdry & Hplan)].
    + left. rewrite Hw in Hs'. congruence.
    + destruct (Hexecuted authToken env id options w plan Hauth Hdry Hplan)
        as (n & active & Hdb & Hactive & Hstatus).
      rewrite Hdb in Hs'. destruct (decide (id' = id)) as [->|Hne].
      * right. rewrite (getSnapshot_updateSnapshotStatus _ _ _ _ _ Hs) in Hs'.
        injection Hs' as <-. cbn. split_and!; [done | congruence | apply Hfinal].
      * left. rewrite getSnapshot_updateSnapshotStatus_ne in Hs' by done. congruence.
  - intros authToken env env' id options options' w plan Hauth Hdry Hplan w'.
    destruct (Hexecuted authToken env id options w plan Hauth Hdry Hplan)
      as (n & active & Hdb & Hactive & Hstatus).
    pose proof (getSnapshot_updateSnapshotStatus env id (final_status n) (db w) active Hactive)
      as Hs'.
    rewrite <- Hdb in Hs'. fold w' in Hs'.
    eapply rollbackCommand_not_active; [exact Hs'|]. cbn.
    destruct n; discriminate.
Qed.

(** A rolled-back snapshot against an application that accepts every
    command: the second run is refused and changes nothing. *)
Lemma status_written_only_by_update_witness :
  let w := world (markRolledBack env1 snap0 "rolled-back" db_added).2 in
  exists message,
    rollbackCommand accepting (Some "token") env2 snap0 execute w
      = (failure snap0 message, w).
Proof.
  intros w.
  destruct (getSnapshot (db w) snap0) as [snapshot|] eqn:Hsnapshot;
    [|vm_compute in Hsnapshot; discriminate].
  apply (proj1 (proj2 (proj2 (status_written_only_by_update accepting)))
           (Some "token") env2 snap0 execute w snapshot Hsnapshot).
  vm_compute in Hsnapshot. injection Hsnapshot as <-. discriminate.
Defined.

(** C5 as stated fails on the Store and the Manager: [markRolledBack] on a
    snapshot that is already ['rolled-back'] makes it ['partial-rollback']
    and stamps [rolledBackAt] again. *)
Lemma status_written_only_by_update_counterexample :
  let db1 := (markRolledBack env1 snap0 "rolled-back" db_added).2 in
  let db2 := (markRolledBack env2 snap0 "partial-rollback" db1).2 in
  (Snapshot.status <$> getSnapshot db1 snap0 = Some "rolled-back"
   /\ Snapshot.rolledBackAt <$> getSnapshot db1 snap0
      = Some (Some "2023-11-14T22:14:20.000Z"))
  /\ (Snapshot.status <$> getSnapshot db2 snap0 = Some "partial-rollback"
      /\ Snapshot.rolledBackAt <$> getSnapshot db2 snap0
         = Some (Some "2023-11-14T22:15:20.000Z")).
Proof. vm_compute. split_and!; reflexivity. Qed.

End StatusClaims.

(** ** The creating operations, statement by statement *)

Section CreationFacts.
Import SnapshotRepository SnapshotManager.
Context {JSValue : Type} {H : Host JSValue}.

Lemma createSnapshot_free (env : Env.t) (input : CreateSnapshotInput.t) (db : DB) :
  snapshots db !! generateSnapshotId env = None ->
  createSnapshot env input None db =
    (Returned (Some (new_snapshot env input)), with_parent env input db).
Proof.
  intros Hfree. unfold createSnapshot. cbn [default]. rewrite Hfree.
  rewrite getSnapshot_lookup. cbn. by rewrite lookup_insert_eq.
Qed.

Lemma createSnapshot_taken (env : Env.t) (input : CreateSnapshotInput.t) (db : DB) :
  is_Some (snapshots db !! generateSnapshotId env) ->
  createSnapshot env input None db =
    (Threw (ErrorObject "UNIQUE constraint failed: snapshots.id"), db).
Proof. intros [c Hc]. unfold createSnapshot. cbn [default]. by rewrite Hc. Qed.

Lemma with_rows_nil (db : DB) : with_rows db [] [] [] = db.
Proof. destruct db. unfold with_rows. cbn. by rewrite !app_nil_r. Qed.

Lemma with_rows_with_rows (db : DB) c1 m1 s1 c2 m2 s2 :
  with_rows (with_rows db c1 m1 s1) c2 m2 s2 = with_rows db (c1 ++ c2) (m1 ++ m2) (s1 ++ s2).
Proof. unfold with_rows. cbn. by rewrite !app_assoc. Qed.

Lemma addSnapshotCreated_stored (snapshotId : string) (item : CreatedInput) (db : DB) :
  is_Some (snapshots db !! snapshotId) ->
  exists row,
    addSnapshotCreated snapshotId item db = (Returned (), with_rows db [row] [] [])
    /\ created_row_for snapshotId item row.
Proof.
  intros [c Hc]. unfold addSnapshotCreated. rewrite Hc.
  eexists (SnapshotCreatedRow.mk _ _ _ _ _ _). split.
  - unfold with_rows. cbn. rewrite !app_nil_r. reflexivity.
  - repeat split.
Qed.

Lemma addSnapshotStatus_stored (snapshotId : string) (item : StatusInput) (db : DB) :
  is_Some (snapshots db !! snapshotId) ->
  exists row,
    addSnapshotStatus snapshotId item db = (Returned (), with_rows db [] [] [row])
    /\ status_row_for snapshotId item row.
Proof.
  intros [c Hc]. unfold addSnapshotStatus. rewrite Hc.
  eexists (SnapshotStatusRow.mk _ _ _ _ _ _). split.
  - unfold with_rows. cbn. rewrite !app_nil_r. reflexivity.
  - repeat split.
Qed.

Lemma addSnapshotModified_stored (snapshotId : string) (item : ModifiedInput JSValue)
    (db : DB) :
  is_Some (snapshots db !! snapshotId) ->
  (exists row,
     addSnapshotModified snapshotId item db = (Returned (), with_rows db [] [row] [])
     /\ modified_row_for snapshotId item row)
  \/ (exists e,
        JSON_stringify (mi_previousState item) = Threw e
        /\ addSnapshotModified snapshotId item db = (Threw e, db)).
Proof.
  intros [c Hc]. unfold addSnapshotModified.
  destruct (JSON_stringify (mi_previousState item)) as [text|e] eqn:Htext.
  - left. rewrite Hc. eexists (SnapshotModifiedRow.mk _ _ _ _ _ _). split.
    + unfold with_rows. cbn. rewrite !app_nil_r. reflexivity.
    + repeat split. cbn. exact Htext.
  - right. eauto.
Qed.

(** The three loops of [createBulkSnapshot]. *)

Lemma for_addSnapshotCreated (snapshotId : string) (items : list CreatedInput) :
  forall db : DB,
  is_Some (snapshots db !! snapshotId) ->
  exists rows,
    st_for items
      (fun item =>
         addSnapshotCreated snapshotId
           {| ci_thingsId := ci_thingsId item; ci_itemType := ci_itemType item;
              ci_title := ci_title item; ci_parentId := ci_parentId item |}) db
    = (Returned (), with_rows db rows [] [])
    /\ Forall2 (created_row_for snapshotId) items rows.
Proof.
  induction items as [|item items IH]; intros db Hparent.
  - exists []. cbn. by rewrite with_rows_nil.
  - cbn [st_for]. unfold st_bind.
    destruct (addSnapshotCreated_stored snapshotId
                {| ci_thingsId := ci_thingsId item; ci_itemType := ci_itemType item;
                   ci_title := ci_title item; ci_parentId := ci_parentId item |} db Hparent)
      as (row & -> & Hrow).
    destruct (IH (with_rows db [row] [] [])) as (rows & -> & Hrows); [exact Hparent|].
    exists (row :: rows). split.
    + by rewrite with_rows_with_rows.
    + constructor; [exact Hrow | exact Hrows].
Qed.

Lemma for_addSnapshotStatus (snapshotId : string) (items : list StatusInput) :
  forall db : DB,
  is_Some (snapshots db !! snapshotId) ->
  exists rows,
    st_for items
      (fun item =>
         addSnapshotStatus snapshotId
           {| si_thingsId := si_thingsId item; si_itemType := si_itemType item;
              si_previousStatus := si_previousStatus item;
              si_newStatus := si_newStatus item |}) db
    = (Returned (), with_rows db [] [] rows)
    /\ Forall2 (status_row_for snapshotId) items rows.
Proof.
  induction items as [|item items IH]; intros db Hparent.
  - exists []. cbn. by rewrite with_rows_nil.
  - cbn [st_for]. unfold st_bind.
    destruct (addSnapshotStatus_stored snapshotId
                {| si_thingsId := si_thingsId item; si_itemType := si_itemType item;
                   si_previousStatus := si_previousStatus item;
                   si_newStatus := si_newStatus item |} db Hparent)
      as (row & -> & Hrow).
    destruct (IH (with_rows db [] [] [row])) as (rows & -> & Hrows); [exact Hparent|].
    exists (row :: rows). split.
    + by rewrite with_rows_with_rows.
    + constructor; [exact Hrow | exact Hrows].
Qed.

(** The loop over the modified items stops at the first previous state
    that [JSON.stringify] rejects; the rows of the items before it are
    stored. *)
Lemma for_addSnapshotModified (snapshotId : string) (items : list (ModifiedInput JSValue)) :
  forall db : DB,
  is_Some (snapshots db !! snapshotId) ->
  (exists rows,
     st_for items
       (fun item =>
          addSnapshotModified snapshotId
            {| mi_thingsId := mi_thingsId item; mi_itemType := mi_itemType item;
               mi_previousState := mi_previousState item;
               mi_modifiedFields := mi_modifiedFields item |}) db
     = (Returned (), with_rows db [] rows [])
     /\ Forall2 (modified_row_for snapshotId) items rows)
  \/ (exists e stored item rest rows,
        st_for items
          (fun item =>
             addSnapshotModified snapshotId
               {| mi_thingsId := mi_thingsId item; mi_itemType := mi_itemType item;
                  mi_previousState := mi_previousState item;
                  mi_modifiedFields := mi_modifiedFields item |}) db
        = (Threw e, with_rows db [] rows [])
        /\ items = stored ++ item :: rest
        /\ JSON_stringify (mi_previousState item) = Threw e
        /\ Forall2 (modified_row_for snapshotId) stored rows).
Proof.
  induction items as [|item items IH]; intros db Hparent.
  - left. exists []. cbn. by rewrite with_rows_nil.
  - cbn [st_for]. unfold st_bind.
    destruct (addSnapshotModified_stored snapshotId
                {| mi_thingsId := mi_thingsId item; mi_itemType := mi_itemType item;
                   mi_previousState := mi_previousState item;
                   mi_modifiedFields := mi_modifiedFields item |} db Hparent)
      as [(row & -> & Hrow)|(e & He & ->)].
    + destruct (IH (with_rows db [] [row] []) Hparent)
        as [(rows & -> & Hrows)|(e & stored & bad & rest & rows & -> & -> & He & Hrows)].
      * left. exists (row :: rows). split; [by rewrite with_rows_with_rows|].
        constructor; [exact Hrow | exact Hrows].
      * right. exists e, (item :: stored), bad, rest, (row :: rows).
        split_and!; [by rewrite with_rows_with_rows | done | done |].
        constructor; [exact Hrow | exact Hrows].
    + right. exists e, [], item, items, []. rewrite with_rows_nil.
      split_and!; [done | done | exact He | constructor].
Qed.

Lemma with_parent_stored (env : Env.t) (input : CreateSnapshotInput.t) (db : DB) :
  is_Some (snapshots (with_parent env input db) !! generateSnapshotId env).
Proof. cbn. rewrite lookup_insert_eq. by eexists. Qed.

End CreationFacts.

Section CreationSpecs.
Import SnapshotRepository SnapshotManager.
Context {JSValue : Type} {H : Host JSValue}.

Lemma getSnapshot_with_parent (env : Env.t) (input : CreateSnapshotInput.t) (db : DB)
    (created : list SnapshotCreatedRow.t) (modified : list SnapshotModifiedRow.t)
    (status : list SnapshotStatusRow.t) :
  getSnapshot (with_rows (with_parent env input db) created modified status)
              (generateSnapshotId env)
  = Some (new_snapshot env input).
Proof. rewrite getSnapshot_lookup. cbn. by rewrite lookup_insert_eq. Qed.

Lemma createAddSnapshot_free (env : Env.t) (data : AddSnapshotData) (db : DB) :
  snapshots db !! generateSnapshotId env = None ->
  exists input row,
    createAddSnapshot env data db =
      (Returned (Some (new_snapshot env input)),
       with_rows (with_parent env input db) [row] [] [])
    /\ CreateSnapshotInput.operationType input = "add"
    /\ created_row_for (generateSnapshotId env)
         {| ci_thingsId := add_thingsId data; ci_itemType := add_itemType data;
            ci_title := add_title data; ci_parentId := add_parentId data |} row.
Proof.
  intros Hfree. unfold createAddSnapshot, st_bind.
  rewrite (createSnapshot_free env _ db Hfree). cbn [snapshot_id st_ret].
  edestruct addSnapshotCreated_stored as (row & -> & Hrow); [apply with_parent_stored|].
  eexists _, row. split; [reflexivity|]. split; [reflexivity | exact Hrow].
Qed.

Lemma createAddProjectSnapshot_free (env : Env.t) (data : AddSnapshotData) (db : DB) :
  snapshots db !! generateSnapshotId env = None ->
  exists input row,
    createAddProjectSnapshot env data db =
      (Returned (Some (new_snapshot env input)),
       with_rows (with_parent env input db) [row] [] [])
    /\ CreateSnapshotInput.operationType input = "add-project"
    /\ created_row_for (generateSnapshotId env)
         {| ci_thingsId := add_thingsId data; ci_itemType := "project";
            ci_title := add_title data; ci_parentId := add_parentId data |} row.
Proof.
  intros Hfree. unfold createAddProjectSnapshot, st_bind.
  rewrite (createSnapshot_free env _ db Hfree). cbn [snapshot_id st_ret].
  edestruct addSnapshotCreated_stored as (row & -> & Hrow); [apply with_parent_stored|].
  eexists _, row. split; [reflexivity|]. split; [reflexivity | exact Hrow].
Qed.

Lemma createStatusChangeSnapshot_free (env : Env.t) (data : StatusChangeData) (db : DB) :
  snapshots db !! generateSnapshotId env = None ->
  exists input row,
    createStatusChangeSnapshot env data db =
      (Returned (Some (new_snapshot env input)),
       with_rows (with_parent env input db) [] [] [row])
    /\ CreateSnapshotInput.operationType input =
         (if bool_decide (sc_newStatus data = "completed") then "complete" else "cancel")
    /\ status_row_for (generateSnapshotId env)
         {| si_thingsId := sc_thingsId data; si_itemType := sc_itemType data;
            si_previousStatus := sc_previousStatus data;
            si_newStatus := sc_newStatus data |} row.
Proof.
  intros Hfree. unfold createStatusChangeSnapshot, st_bind.
  rewrite (createSnapshot_free env _ db Hfree). cbn [snapshot_id st_ret].
  edestruct addSnapshotStatus_stored as (row & -> & Hrow); [apply with_parent_stored|].
  eexists _, row. split; [reflexivity|]. split; [reflexivity | exact Hrow].
Qed.

Lemma createUpdateSnapshot_free (env : Env.t) (data : UpdateSnapshotData JSValue) (db : DB) :
  snapshots db !! generateSnapshotId env = None ->
  exists input,
    CreateSnapshotInput.operationType input = "update"
    /\ ((exists row,
           createUpdateSnapshot env data db =
             (Returned (Some (new_snapshot env input)),
              with_rows (with_parent env input db) [] [row] [])
           /\ modified_row_for (generateSnapshotId env)
                {| mi_thingsId := up_thingsId data; mi_itemType := up_itemType data;
                   mi_previousState := up_previousState data;
                   mi_modifiedFields := up_modifiedFields data |} row)
        \/ (exists e,
              JSON_stringify (up_previousState data) = Threw e
              /\ createUpdateSnapshot env data db = (Threw e, with_parent env input db))).
Proof.
  intros Hfree. unfold createUpdateSnapshot, st_bind.
  rewrite (createSnapshot_free env _ db Hfree). cbn [snapshot_id st_ret].
  match goal with
  | |- context [with_parent env ?i db] => set (input := i)
  end.
  exists input. split; [reflexivity|].
  edestruct addSnapshotModified_stored as [(row & -> & Hrow)|(e & He & ->)];
    [apply with_parent_stored | | ].
  - left. exists row. split; [reflexivity | exact Hrow].
  - right. exists e. split; [exact He | reflexivity].
Qed.

Lemma createBulkSnapshot_free (env : Env.t) (data : BulkSnapshotData JSValue) (db : DB) :
  snapshots db !! generateSnapshotId env = None ->
  exists input createdRows modifiedRows,
    CreateSnapshotInput.operationType input = "json"
    /\ Forall2 (created_row_for (generateSnapshotId env)) (bulk_createdItems data) createdRows
    /\ ((exists statusRows,
           createBulkSnapshot env data db =
             (Returned (Some (new_snapshot env input)),
              with_rows (with_parent env input db) createdRows modifiedRows statusRows)
           /\ Forall2 (modified_row_for (generateSnapshotId env))
                      (bulk_modifiedItems data) modifiedRows
           /\ Forall2 (status_row_for (generateSnapshotId env))
                      (bulk_statusChanges data) statusRows)
        \/ (exists e stored item rest,
              createBulkSnapshot env data db =
                (Threw e, with_rows (with_parent env input db) createdRows modifiedRows [])
              /\ bulk_modifiedItems data = stored ++ item :: rest
              /\ JSON_stringify (mi_previousState item) = Threw e
              /\ Forall2 (modified_row_for (generateSnapshotId env)) stored modifiedRows)).
Proof.
  intros Hfree. unfold createBulkSnapshot, st_bind.
  rewrite (createSnapshot_free env _ db Hfree). cbn [snapshot_id st_ret].
  match goal with
  | |- context [with_parent env ?i db] => set (input := i)
  end.
  change (Snapshot.id (new_snapshot env input)) with (generateSnapshotId env).
  destruct (for_addSnapshotCreated (generateSnapshotId env) (bulk_createdItems data)
              (with_parent env input db) (with_parent_stored env input db))
    as (createdRows & -> & Hcreated).
  assert (Hparent : forall c m s,
            is_Some (snapshots (with_rows (with_parent env input db) c m s)
                     !! generateSnapshotId env)).
  { intros c m s. apply with_parent_stored. }
  destruct (for_addSnapshotModified (generateSnapshotId env) (bulk_modifiedItems data)
              (with_rows (with_parent env input db) createdRows [] []) (Hparent _ _ _))
    as [(modifiedRows & -> & Hmodified)
       |(e & stored & item & rest & modifiedRows & -> & Hitems & He & Hstored)].
  - destruct (for_addSnapshotStatus (generateSnapshotId env) (bulk_statusChanges data)
                (with_rows (with_rows (with_parent env input db) createdRows [] [])
                           [] modifiedRows []) (Hparent _ _ _))
      as (statusRows & -> & Hstatus).
    exists input, createdRows, modifiedRows. split; [reflexivity|]. split; [exact Hcreated|].
    left. exists statusRows. rewrite !with_rows_with_rows, !app_nil_r. cbn [app].
    split; [reflexivity|]. split; [exact Hmodified | exact Hstatus].
  - exists input, createdRows, modifiedRows. split; [reflexivity|]. split; [exact Hcreated|].
    right. exists e, stored, item, rest. rewrite !with_rows_with_rows, !app_nil_r. cbn [app].
    split_and!; [reflexivity | exact Hitems | exact He | exact Hstored].
Qed.

(** With the id taken the parent insert fails and nothing is written. *)
Lemma create_taken (env : Env.t) (db : DB) :
  is_Some (snapshots db !! generateSnapshotId env) ->
  let unique := Threw (ErrorObject "UNIQUE constraint failed: snapshots.id") in
  (forall data, createAddSnapshot env data db = (unique, db))
  /\ (forall data, createAddProjectSnapshot env data db = (unique, db))
  /\ (forall data, createUpdateSnapshot env data db = (unique, db))
  /\ (forall data, createStatusChangeSnapshot env data db = (unique, db))
  /\ (forall data, createBulkSnapshot env data db = (unique, db)).
Proof.
  intros Htaken unique.
  split_and!; intros data;
    [unfold createAddSnapshot | unfold createAddProjectSnapshot | unfold createUpdateSnapshot
    | unfold createStatusChangeSnapshot | unfold createBulkSnapshot];
    unfold st_bind; by rewrite (createSnapshot_taken env _ db Htaken).
Qed.

(** [withTransaction] around repository calls on an idle connection. *)
Lemma withTransaction_on_connection {A} (m : Stateful DB A) (db : DB) :
  Connection.withTransaction (Connection.on_connection m) (Connection.open db) =
    match m db with
    | (Returned a, db') => (Returned a, Connection.open db')
    | (Threw e, _) => (Threw e, Connection.open db)
    end.
Proof.
  unfold Connection.withTransaction, Connection.on_connection, Connection.open. cbn.
  destruct (m db) as [[a|e] db']; reflexivity.
Qed.

End CreationSpecs.

Section CreationClaims.
Import MiniJS SnapshotRepository SnapshotManager Rollback Examples.

(** C4, as the code has it.  A creating operation of the Manager inserts the
    parent row and then its child rows one statement after the other, not in
    a transaction.  When the generated id is already taken the parent insert
    throws and nothing is written.  Otherwise the parent row is stored, and
    - [createAddSnapshot], [createAddProjectSnapshot] and
      [createStatusChangeSnapshot] return with their one child row stored;
    - [createUpdateSnapshot] returns with its child row stored, or, when
      [JSON.stringify] throws on the previous state, throws and leaves the
      parent row stored without a child row;
    - [createBulkSnapshot] returns with the rows of all items stored, or,
      when [JSON.stringify] throws on the previous state of a modified item,
      throws and leaves stored the parent row, the rows of all created items
      and the rows of the modified items before that one.
    In every case the parent snapshot is there for a reader, with status
    ['active'].  Nothing is undone, unless the caller runs the operation
    inside [withTransaction]: on an idle connection that returns what the
    operation returns and keeps its writes, or rethrows what it throws and
    restores the contents of the database. *)
Theorem snapshot_creation_statement_by_statement `{Host JSValue} (env : Env.t) (db : DB) :
  let id := generateSnapshotId env in
  let unique := Threw (ErrorObject "UNIQUE constraint failed: snapshots.id") in
  (is_Some (snapshots db !! id) ->
     (forall data, createAddSnapshot env data db = (unique, db))
     /\ (forall data, createAddProjectSnapshot env data db = (unique, db))
     /\ (forall data, createUpdateSnapshot env data db = (unique, db))
     /\ (forall data, createStatusChangeSnapshot env data db = (unique, db))
     /\ (forall data, createBulkSnapshot env data db = (unique, db)))
  /\ (snapshots db !! id = None ->
      (forall data : AddSnapshotData,
         exists input row,
           createAddSnapshot env data db =
             (Returned (Some (new_snapshot env input)),
              with_rows (with_parent env input db) [row] [] [])
           /\ CreateSnapshotInput.operationType input = "add"
           /\ created_row_for id
                {| ci_thingsId := add_thingsId data; ci_itemType := add_itemType data;
                   ci_title := add_title data; ci_parentId := add_parentId data |} row)
      /\ (forall data : AddSnapshotData,
            exists input row,
              createAddProjectSnapshot env data db =
                (Returned (Some (new_snapshot env input)),
                 with_rows (with_parent env input db) [row] [] [])
              /\ CreateSnapshotInput.operationType input = "add-project"
              /\ created_row_for id
                   {| ci_thingsId := add_thingsId data; ci_itemType := "project";
                      ci_title := add_title data; ci_parentId := add_parentId data |} row)
      /\ (forall data : StatusChangeData,
            exists input row,
              createStatusChangeSnapshot env data db =
                (Returned (Some (new_snapshot env input)),
                 with_rows (with_parent env input db) [] [] [row])
              /\ CreateSnapshotInput.operationType input =
                   (if bool_decide (sc_newStatus data = "completed")
                    then "complete" else "cancel")
              /\ status_row_for id
                   {| si_thingsId := sc_thingsId data; si_itemType := sc_itemType data;
                      si_previousStatus := sc_previousStatus data;
                      si_newStatus := sc_newStatus data |} row)
      /\ (forall data : UpdateSnapshotData JSValue,
            exists input,
              CreateSnapshotInput.operationType input = "update"
              /\ ((exists row,
                     createUpdateSnapshot env data db =
                       (Returned (Some (new_snapshot env input)),
                        with_rows (with_parent env input db) [] [row] [])
                     /\ modified_row_for id
                          {| mi_thingsId := up_thingsId data;
                             mi_itemType := up_itemType data;
                             mi_previousState := up_previousState data;
                             mi_modifiedFields := up_modifiedFields data |} row)
                  \/ (exists e,
                        JSON_stringify (up_previousState data) = Threw e
                        /\ createUpdateSnapshot env data db
                           = (Threw e, with_parent env input db))))
      /\ (forall data : BulkSnapshotData JSValue,
            exists input createdRows modifiedRows,
              CreateSnapshotInput.operationType input = "json"
              /\ Forall2 (created_row_for id) (bulk_createdItems data) createdRows
              /\ ((exists statusRows,
                     createBulkSnapshot env data db =
                       (Returned (Some (new_snapshot env input)),
                        with_rows (with_parent env input db)
                                  createdRows modifiedRows statusRows)
                     /\ Forall2 (modified_row_for id) (bulk_modifiedItems data) modifiedRows
                     /\ Forall2 (status_row_for id) (bulk_statusChanges data) statusRows)
                  \/ (exists e stored item rest,
                        createBulkSnapshot env data db =
                          (Threw e,
                           with_rows (with_parent env input db) createdRows modifiedRows [])
                        /\ bulk_modifiedItems data = stored ++ item :: rest
                        /\ JSON_stringify (mi_previousState item) = Threw e
                        /\ Forall2 (modified_row_for id) stored modifiedRows))))
  /\ (forall input created modified status,
        getSnapshot (with_rows (with_parent env input db) created modified status) id
          = Some (new_snapshot env input)
        /\ Snapshot.status (new_snapshot env input) = "active")
  /\ (forall (A : Type) (m : Stateful DB A),
        Connection.withTransaction (Connection.on_connection m) (Connection.open db) =
          match m db with
          | (Returned a, db') => (Returned a, Connection.open db')
          | (Threw e, _) => (Threw e, Connection.open db)
          end).
Proof.
  intros id unique. split_and!.
  - apply create_taken.
  - intros Hfree. split_and!; intros data.
    + by apply createAddSnapshot_free.
    + by apply createAddProjectSnapshot_free.
    + by apply createStatusChangeSnapshot_free.
    + by apply createUpdateSnapshot_free.
    + by apply createBulkSnapshot_free.
  - intros input created modified status.
    split; [apply getSnapshot_with_parent | reflexivity].
  - intros A m. apply withTransaction_on_connection.
Qed.

(** An update whose previous state holds a [BigInt], on the empty
    database: the operation throws and the parent row stays. *)
Lemma snapshot_creation_statement_by_statement_witness :
  exists input e,
    createUpdateSnapshot env0 updated_counter empty_db
      = (Threw e, with_parent env0 input empty_db)
    /\ getSnapshot (with_rows (with_parent env0 input empty_db) [] [] [])
                    (generateSnapshotId env0)
       = Some (new_snapshot env0 input)
    /\ Snapshot.status (new_snapshot env0 input) = "active".
Proof.
  destruct (snapshot_creation_statement_by_statement (H:=host) env0 empty_db)
    as (_ & Hfree & Hparent & _).
  destruct Hfree as (_ & _ & _ & Hupdate & _); [reflexivity|].
  destruct (Hupdate updated_counter) as (input & _ & [(row & _ & Hrow)|(e & _ & Hrun)]).
  - exfalso. destruct Hrow as (_ & _ & _ & Htext & _). vm_compute in Htext. discriminate.
  - exists input, e. split; [exact Hrun|].
    exact (Hparent input [] [] []).
Defined.

(** C4 as stated fails when a statement after the parent insert throws.  In
    the bulk operation of [Examples.broken_bulk] the second of two modified
    items cannot be serialized: the operation throws, and a reader then
    finds the parent snapshot with one created item, one modified item and no
    status change, of the one, two and one that were given.  An update whose
    previous state cannot be serialized leaves a parent without any child
    row, for which [getRollbackPlan] returns a plan without actions. *)
Lemma snapshot_creation_statement_by_statement_counterexample :
  ((createBulkSnapshot env0 broken_bulk empty_db).1 = Threw cannot_serialize
   /\ (length (bulk_createdItems broken_bulk), length (bulk_modifiedItems broken_bulk),
       length (bulk_statusChanges broken_bulk)) = (1, 2, 1)%nat
   /\ (fun details =>
         (SnapshotDetails.status details,
          SnapshotCreatedItem.thingsId <$> SnapshotDetails.createdItems details,
          SnapshotModifiedItem.thingsId <$> SnapshotDetails.modifiedItems details,
          SnapshotStatusChange.thingsId <$> SnapshotDetails.statusChanges details))
        <$> getSnapshotDetails (createBulkSnapshot env0 broken_bulk empty_db).2 snap0
      = Some ("active", ["new-1"], ["mod-1"], []))
  /\ ((createUpdateSnapshot env0 updated_counter empty_db).1 = Threw cannot_serialize
      /\ (fun details =>
            (SnapshotDetails.status details,
             length (SnapshotDetails.modifiedItems details)))
           <$> getSnapshotDetails (createUpdateSnapshot env0 updated_counter empty_db).2 snap0
         = Some ("active", 0%nat)
      /\ getRollbackPlan (createUpdateSnapshot env0 updated_counter empty_db).2 snap0
         = Returned (Some {| plan_snapshotId := snap0;
                             plan_operationType := "update";
                             plan_description := "Updated to-do things-123";
                             actions := [];
                             SnapshotManager.warnings := [] |})).
Proof. vm_compute. split_and!; reflexivity. Qed.

End CreationClaims.

(** * Further properties *)

(** ** The rate limiter, method by method *)

Section RateLimiterMore.
Import RateLimiter.
Variable Date_now : nat -> Z.

Lemma in_window_length (this : t) (now : Z) :
  (length (in_window this now) <= length (calls this))%nat.
Proof. apply length_filter. Qed.

Lemma in_window_with_calls (this : t) (cs : list Z) (now : Z) :
  in_window (with_calls this cs) now = filter (fun timestamp => now - windowMs this < timestamp) cs.
Proof. reflexivity. Qed.

(** [getWaitTime] leaves the limiter as [cleanup] does, and never returns a
    negative number. *)
Lemma getWaitTime_state (this : t) (k : nat) :
  exists wait k',
    getWaitTime Date_now this k = (wait, with_calls this (in_window this (Date_now k)), k')
    /\ 0 <= wait /\ (S k <= k')%nat.
Proof.
  unfold getWaitTime. rewrite cleanup_in_window. cbn.
  case_bool_decide; [eexists _, _; split; [reflexivity|]; split; [lia|lia]|].
  destruct (in_window this (Date_now k)) as [|oldest rest] eqn:Hw;
    [eexists _, _; split; [reflexivity|]; split; lia|].
  case_bool_decide; eexists _, _; (split; [reflexivity|]); split; lia.
Qed.

Lemma acquire_within (this : t) (k : nat) :
  within_capacity this -> within_capacity (acquire Date_now this k).1.2.
Proof.
  unfold within_capacity. intros Hin.
  pose proof (in_window_length this (Date_now k)) as Hle.
  destruct (Z_lt_le_dec (Z.of_nat (length (in_window this (Date_now k)))) (maxCalls this))
    as [Hlt|Hge].
  - rewrite acquire_under_budget by done. cbn. rewrite length_app. cbn. lia.
  - unfold acquire. rewrite cleanup_in_window. cbn -[getWaitTime].
    rewrite bool_decide_eq_true_2 by (cbn; lia).
    destruct (getWaitTime_state (with_calls this (in_window this (Date_now k))) (S k))
      as (wait & k' & -> & _). cbn.
    pose proof (in_window_length (with_calls this (in_window this (Date_now k)))
                  (Date_now (S k))) as Hle2.
    cbn in Hle2. lia.
Qed.

Lemma cleanup_within (this : t) (k : nat) :
  within_capacity this -> within_capacity (cleanup Date_now this k).1.
Proof.
  unfold within_capacity. rewrite cleanup_in_window. cbn.
  pose proof (in_window_length this (Date_now k)). lia.
Qed.

Lemma getWaitTime_within (this : t) (k : nat) :
  within_capacity this -> within_capacity (getWaitTime Date_now this k).1.2.
Proof.
  intros Hin. destruct (getWaitTime_state this k) as (wait & k' & -> & _).
  apply (cleanup_within this k Hin).
Qed.

Lemma acquire_times_within (n : nat) : forall (this : t) (k : nat),
  within_capacity this -> within_capacity (acquire_times Date_now n this k).1.2.
Proof.
  induction n as [|n IH]; intros this k Hin; [exact Hin|].
  cbn [acquire_times].
  pose proof (acquire_within this k Hin) as H1.
  destruct (acquire Date_now this k) as [[r this1] k1]. cbn in H1.
  pose proof (IH this1 k1 H1) as H2.
  destruct (acquire_times Date_now n this1 k1) as [[rs this2] k2]. exact H2.
Qed.

(** X1.  When [canAcquire()] has answered [true], the [acquire()] that
    follows it on the same limiter returns and records one timestamp,
    whatever the clock reads in between: its own cleanup can only drop
    timestamps. *)
Theorem acquire_after_canAcquire (this this1 : t) (k k1 : nat) :
  canAcquire Date_now this k = (true, this1, k1) ->
  acquire Date_now this1 k1 =
    (Returned (),
     with_calls this1 (in_window this1 (Date_now k1) ++ [Date_now (S k1)]), S (S k1)).
Proof.
  rewrite canAcquire_in_window. intros [= Hok <- <-].
  apply bool_decide_eq_true_1 in Hok.
  apply acquire_under_budget.
  pose proof (in_window_length (with_calls this (in_window this (Date_now k)))
                (Date_now (S k))) as Hle.
  cbn in Hle |- *. lia.
Qed.

(** X2.  A limiter that holds at most [max(0, maxCalls)] timestamps still
    does after any of its methods, and after any number of [acquire] calls,
    on any clock. *)
Theorem limiter_stays_within_capacity (this : t) (k : nat) :
  within_capacity this ->
  within_capacity (canAcquire Date_now this k).1.2
  /\ within_capacity (acquire Date_now this k).1.2
  /\ within_capacity (getWaitTime Date_now this k).1.2
  /\ within_capacity (getCount Date_now this k).1.2
  /\ within_capacity (getRemainingCapacity Date_now this k).1.2
  /\ within_capacity (acquireAsync Date_now this k).1.2
  /\ within_capacity (reset this)
  /\ (forall n, within_capacity (acquire_times Date_now n this k).1.2).
Proof.
  intros Hin. split_and!.
  - apply (cleanup_within this k Hin).
  - apply (acquire_within this k Hin).
  - apply (getWaitTime_within this k Hin).
  - apply (cleanup_within this k Hin).
  - apply (cleanup_within this k Hin).
  - unfold acquireAsync. pose proof (getWaitTime_within this k Hin) as H1.
    destruct (getWaitTime Date_now this k) as [[wait this1] k1]. cbn in H1.
    apply (acquire_within this1 k1 H1).
  - unfold within_capacity, reset. cbn. lia.
  - intros n. apply (acquire_times_within n this k Hin).
Qed.

(** X3.  On one state and one reading of the clock the observers agree:
    [canAcquire()] is [true], [acquire()] returns and
    [getRemainingCapacity()] is positive exactly when [getCount()] is below
    [maxCalls]; and then the remaining capacity is [maxCalls - getCount()]
    and [getWaitTime()] is 0. *)
Theorem limiter_observers_agree (this : t) (k : nat) :
  let live := Z.of_nat (getCount Date_now this k).1.1 in
  ((canAcquire Date_now this k).1.1 = true <-> live < maxCalls this)
  /\ (is_Returned (acquire Date_now this k).1.1 = true <-> live < maxCalls this)
  /\ (0 < (getRemainingCapacity Date_now this k).1.1 <-> live < maxCalls this)
  /\ (live < maxCalls this ->
      (getRemainingCapacity Date_now this k).1.1 = maxCalls this - live
      /\ (getWaitTime Date_now this k).1.1 = 0).
Proof.
  intros live. unfold live, getCount, getRemainingCapacity.
  rewrite canAcquire_in_window, cleanup_in_window. cbn -[acquire getWaitTime].
  split_and!.
  - apply bool_decide_eq_true.
  - pose proof (acquire_throws_iff Date_now this k) as Hiff.
    destruct (acquire Date_now this k) as [[[[]|e] this'] k']; cbn in *.
    + split; [|done]. intros _.
      destruct (Z_lt_le_dec (Z.of_nat (length (in_window this (Date_now k)))) (maxCalls this))
        as [Hlt|Hge]; [done|]. by apply Hiff in Hge.
    + split; [done|]. intros Hlt. apply proj1 in Hiff. specialize (Hiff eq_refl). lia.
  - lia.
  - intros Hlt. split; [lia|].
    unfold getWaitTime. rewrite cleanup_in_window. cbn.
    by rewrite bool_decide_eq_true_2.
Qed.

(** X4.  [acquireAsync()] returns when the timer waits long enough.  The
    limiter has a positive [maxCalls], is within capacity, and the oldest
    timestamp in its window is not 0 (which [getWaitTime] takes for a
    missing one).  If the limiter is full and the reading of the clock that
    [acquire] starts with is at least [waitTime] later than the reading
    [getWaitTime] computed it from, [acquire] finds room.  No other call on
    the limiter runs in between. *)
Theorem acquireAsync_after_waiting (this : t) (k : nat) :
  0 < maxCalls this ->
  within_capacity this ->
  head (in_window this (Date_now k)) <> Some 0 ->
  (maxCalls this <= Z.of_nat (length (in_window this (Date_now k))) ->
   Date_now (S k) + (getWaitTime Date_now this k).1.1 <= Date_now (S (S k))) ->
  exists this' k', acquireAsync Date_now this k = (Returned (), this', k').
Proof.
  intros Hmax Hin Hzero Hclock. unfold within_capacity in Hin.
  pose proof (in_window_length this (Date_now k)) as Hle.
  unfold acquireAsync. unfold getWaitTime in *. rewrite cleanup_in_window in *.
  cbn -[acquire] in *.
  case_bool_decide as Hroom.
  - pose proof (in_window_length (with_calls this (in_window this (Date_now k)))
                  (Date_now (S k))) as Hle2.
    rewrite acquire_under_budget by (cbn in *; lia). eauto.
  - destruct (in_window this (Date_now k)) as [|oldest rest] eqn:Hw; [cbn in *; lia|].
    rewrite bool_decide_eq_false_2 in * by (intros ->; by apply Hzero).
    specialize (Hclock ltac:(lia)). cbn in Hclock.
    rewrite acquire_under_budget; [eauto|].
    rewrite in_window_with_calls. rewrite filter_cons_False by (cbn; lia).
    pose proof (length_filter
                  (fun timestamp => Date_now (S (S k)) - windowMs this < timestamp) rest).
    cbn in *. lia.
Qed.

(** X5.  [getWaitTime()] is never negative, whatever the limiter holds and
    whatever the clock reads.  When no recorded timestamp lies after the
    reading of the clock it is computed from, it is at most
    [max(0, windowMs)]: at most [windowMs] for a window that is not
    negative, and [0] for a negative one. *)
Theorem getWaitTime_bounds (this : t) (k : nat) :
  0 <= (getWaitTime Date_now this k).1.1
  /\ (Forall (fun timestamp => timestamp <= Date_now (S k)) (calls this) ->
        (getWaitTime Date_now this k).1.1 <= Z.max 0 (windowMs this)
        /\ (0 <= windowMs this -> (getWaitTime Date_now this k).1.1 <= windowMs this)
        /\ (windowMs this < 0 -> (getWaitTime Date_now this k).1.1 = 0)).
Proof.
  split.
  - destruct (getWaitTime_state this k) as (wait & k' & -> & Hwait & _). exact Hwait.
  - intros Hpast.
    assert (Hmax : (getWaitTime Date_now this k).1.1 <= Z.max 0 (windowMs this)).
    { unfold getWaitTime. rewrite cleanup_in_window. cbn.
      case_bool_decide; [cbn; lia|].
      destruct (in_window this (Date_now k)) as [|oldest rest] eqn:Hlive; [cbn; lia|].
      case_bool_decide; [cbn; lia|]. cbn.
      assert (Hin : oldest ∈ in_window this (Date_now k)) by (rewrite Hlive; left).
      apply list_elem_of_filter in Hin as [_ Hin].
      rewrite Forall_forall in Hpast. specialize (Hpast _ Hin). cbn in Hpast. lia. }
    destruct (getWaitTime_state this k) as (wait & k' & Heq & Hwait & _).
    rewrite Heq in *. cbn in *. split_and!; [exact Hmax | lia | lia].
Qed.

End RateLimiterMore.

Section RateLimiterMoreWitnesses.
Import RateLimiter MoreExamples.

(** One slot is free at time 300: [canAcquire] says so and [acquire], at a
    later reading, takes it. *)
Lemma acquire_after_canAcquire_witness :
  acquire (jumping 1 300 900) idle_limiter 1 =
    (Returned (), with_calls idle_limiter [100; 900], 3%nat).
Proof.
  apply (acquire_after_canAcquire (jumping 1 300 900) idle_limiter idle_limiter 0 1).
  reflexivity.
Defined.

(** Three hundred calls on a new limiter with the default settings. *)
Lemma limiter_stays_within_capacity_witness :
  within_capacity (acquire_times (steady 0) 300 (RateLimiter.new None None) 0).1.2.
Proof.
  apply (limiter_stays_within_capacity (steady 0) (RateLimiter.new None None) 0).
  unfold within_capacity. cbn. lia.
Defined.

(** A full limiter whose oldest call was at 100: at 300 the wait is 800,
    and at 1100 the call goes through. *)
Lemma acquireAsync_after_waiting_witness :
  exists this' k', acquireAsync (jumping 2 300 1100) full_limiter 0 = (Returned (), this', k').
Proof.
  apply (acquireAsync_after_waiting (jumping 2 300 1100) full_limiter 0).
  - cbn. lia.
  - unfold within_capacity. cbn. lia.
  - vm_compute. discriminate.
  - intros _. vm_compute. discriminate.
Defined.

(** The full limiter at time 300: the oldest call, at 100, leaves the
    window of 1000 after a wait of 800. *)
Lemma getWaitTime_bounds_witness :
  (getWaitTime (steady 300) full_limiter 0).1.1 = 800
  /\ 0 <= (getWaitTime (steady 300) full_limiter 0).1.1 <= 1000.
Proof.
  split; [reflexivity|].
  destruct (getWaitTime_bounds (steady 300) full_limiter 0) as [Hlow Hhigh].
  split; [exact Hlow|].
  apply Hhigh.
  - repeat constructor; unfold steady; lia.
  - cbn. lia.
Defined.

End RateLimiterMoreWitnesses.

(** ** The URL executor *)

Section UrlExecutorFacts.
Import RateLimiter UrlExecutor.
Variable Date_now : nat -> Z.
Variable spawn : list (list string) -> list string -> Completion Thrown (Z * string).

Lemma check_rate_limit_room (p : Process) :
  let limiter := limiter_of p in
  let live := in_window limiter (Date_now (clock p)) in
  Z.of_nat (length live) < maxCalls limiter ->
  check_rate_limit Date_now p =
    (Returned None,
     {| globalLimiter :=
          Some (with_calls limiter
                  (filter (fun timestamp => Date_now (S (clock p)) - windowMs limiter < timestamp)
                          live
                   ++ [Date_now (S (S (clock p)))]));
        clock := S (S (S (clock p)));
        spawned := spawned p |}).
Proof.
  intros limiter live Hroom. unfold check_rate_limit.
  fold (limiter_of p). fold limiter.
  destruct (getGlobalRateLimiter (globalLimiter p)) as [l g] eqn:Hg.
  assert (l = limiter) as -> by (unfold limiter, limiter_of; by rewrite Hg).
  rewrite canAcquire_in_window. fold live.
  rewrite bool_decide_eq_true_2 by done. cbn [negb].
  rewrite acquire_under_budget.
  - reflexivity.
  - rewrite in_window_with_calls.
    pose proof (length_filter (fun timestamp => Date_now (S (clock p)) - windowMs limiter < timestamp) live).
    cbn. lia.
Qed.

Lemma check_rate_limit_full (p : Process) :
  let limiter := limiter_of p in
  let live := in_window limiter (Date_now (clock p)) in
  maxCalls limiter <= Z.of_nat (length live) ->
  exists wait k',
    check_rate_limit Date_now p =
      (Returned (Some (ceil_div_1000 wait)),
       {| globalLimiter :=
            Some (with_calls limiter
                    (filter (fun timestamp => Date_now (S (clock p)) - windowMs limiter < timestamp)
                            live));
          clock := k';
          spawned := spawned p |})
    /\ 0 <= wait /\ (clock p < k')%nat.
Proof.
  intros limiter live Hfull. unfold check_rate_limit.
  destruct (getGlobalRateLimiter (globalLimiter p)) as [l g] eqn:Hg.
  assert (l = limiter) as -> by (unfold limiter, limiter_of; by rewrite Hg).
  rewrite canAcquire_in_window. fold live.
  rewrite bool_decide_eq_false_2 by lia. cbn [negb].
  destruct (getWaitTime_state Date_now (with_calls limiter live) (S (clock p)))
    as (wait & k' & -> & Hwait & Hk).
  exists wait, k'. split; [reflexivity|]. split; [done|lia].
Qed.

Lemma launch_spawned (url : string) (options : ExecutionOptions.t) (p : Process) :
  globalLimiter (launch spawn url options p).2 = globalLimiter p
  /\ clock (launch spawn url options p).2 = clock p
  /\ spawned (launch spawn url options p).2 =
       if ExecutionOptions.dryRun options then spawned p
       else spawned p ++ [["open"; "-g"; url]].
Proof.
  unfold launch. destruct (ExecutionOptions.dryRun options); [done|].
  destruct (spawn (spawned p) _) as [[exitCode stderr]|[message|]]; [|done|done].
  by case_bool_decide.
Qed.

(** X6.  [executeUrl] never rejects: whatever the URL, the options, the
    state of the shared limiter, the clock and the spawned command do, the
    promise resolves to an [ExecutionResult].  In particular the
    [limiter.acquire()] inside it never throws, since it follows a
    [canAcquire()] that answered [true]. *)
Theorem executeUrl_never_rejects (url : string) (options : ExecutionOptions.t)
    (p : Process) :
  exists outcome, (executeUrl Date_now spawn url options p).1 = Returned outcome.
Proof.
  unfold executeUrl. destruct (negb (String.prefix _ url)); [by eexists|].
  destruct (negb (ExecutionOptions.skipRateLimit options)).
  - destruct (Z_lt_le_dec
                (Z.of_nat (length (in_window (limiter_of p) (Date_now (clock p)))))
                (maxCalls (limiter_of p))) as [Hroom|Hfull].
    + rewrite (check_rate_limit_room p Hroom).
      destruct (launch spawn url options _) as [outcome p']. by eexists.
    + destruct (check_rate_limit_full p Hfull) as (wait & k' & -> & _). by eexists.
  - destruct (launch spawn url options p) as [outcome p']. by eexists.
Qed.


Lemma executeUrl_room (url : string) (options : ExecutionOptions.t) (p : Process) :
  let limiter := limiter_of p in
  let live := in_window limiter (Date_now (clock p)) in
  String.prefix "things:///" url = true ->
  ExecutionOptions.skipRateLimit options = false ->
  Z.of_nat (length live) < maxCalls limiter ->
  let p1 :=
    {| globalLimiter :=
         Some (with_calls limiter
                 (filter (fun timestamp => Date_now (S (clock p)) - windowMs limiter < timestamp)
                         live
                  ++ [Date_now (S (S (clock p)))]));
       clock := S (S (S (clock p)));
       spawned := spawned p |} in
  executeUrl Date_now spawn url options p =
    (Returned (launch spawn url options p1).1, (launch spawn url options p1).2).
Proof.
  intros limiter live Hurl Hskip Hroom p1. unfold executeUrl.
  rewrite Hurl, Hskip. cbn [negb].
  rewrite (check_rate_limit_room p Hroom). fold limiter live p1.
  by destruct (launch spawn url options p1).
Qed.

Lemma executeUrl_full (url : string) (options : ExecutionOptions.t) (p : Process) :
  let limiter := limiter_of p in
  let live := in_window limiter (Date_now (clock p)) in
  String.prefix "things:///" url = true ->
  ExecutionOptions.skipRateLimit options = false ->
  maxCalls limiter <= Z.of_nat (length live) ->
  exists wait k',
    executeUrl Date_now spawn url options p =
      (Returned (refused url (rate_limit_exceeded (ceil_div_1000 wait))),
       {| globalLimiter :=
            Some (with_calls limiter
                    (filter (fun timestamp => Date_now (S (clock p)) - windowMs limiter < timestamp)
                            live));
          clock := k';
          spawned := spawned p |})
    /\ 0 <= wait /\ (clock p < k')%nat.
Proof.
  intros limiter live Hurl Hskip Hfull. unfold executeUrl.
  rewrite Hurl, Hskip. cbn [negb].
  destruct (check_rate_limit_full p Hfull) as (wait & k' & -> & Hwait & Hk).
  by exists wait, k'.
Qed.

Lemma ceil_div_1000_nonneg (x : Z) : 0 <= x -> 0 <= ceil_div_1000 x.
Proof.
  intros Hx. unfold ceil_div_1000.
  assert (- x / 1000 <= 0) by (apply Z.div_le_upper_bound; lia). lia.
Qed.

(** X7.  The two refusals of [executeUrl] start no command.  A URL that does
    not begin with [things:///] is refused with the scheme message, and
    nothing in the process changes: no limiter is made, no clock reading is
    taken.  A valid URL that finds the window of the shared limiter full
    (with [skipRateLimit] off) is refused with the rate-limit message and a
    non-negative number of seconds, and no timestamp is recorded. *)
Theorem executeUrl_refuses_without_launching (url : string)
    (options : ExecutionOptions.t) (p : Process) :
  (String.prefix "things:///" url = false ->
   executeUrl Date_now spawn url options p = (Returned (refused url invalid_scheme), p))
  /\ (String.prefix "things:///" url = true ->
      ExecutionOptions.skipRateLimit options = false ->
      maxCalls (limiter_of p)
        <= Z.of_nat (length (in_window (limiter_of p) (Date_now (clock p)))) ->
      exists waitTime p',
        executeUrl Date_now spawn url options p =
          (Returned (refused url (rate_limit_exceeded waitTime)), p')
        /\ 0 <= waitTime
        /\ spawned p' = spawned p
        /\ recorded p' ⊆ calls (limiter_of p)).
Proof.
  split.
  - intros Hurl. unfold executeUrl. by rewrite Hurl.
  - intros Hurl Hskip Hfull.
    destruct (executeUrl_full url options p Hurl Hskip Hfull) as (wait & k' & -> & Hwait & _).
    eexists _, _. split; [reflexivity|].
    split; [by apply ceil_div_1000_nonneg|]. split; [reflexivity|].
    unfold recorded. cbn. intros x [_ Hx%list_elem_of_filter]%list_elem_of_filter.
    apply Hx.
Qed.

(** X8.  A dry run passes the rate limit like a real run: with a valid URL
    and room in the window it starts no command and reports success with
    [dryRun: true], and the shared limiter has recorded one more
    timestamp, the third reading of the clock. *)
Theorem executeUrl_dry_run_takes_a_slot (url : string) (options : ExecutionOptions.t)
    (p : Process) :
  String.prefix "things:///" url = true ->
  ExecutionOptions.dryRun options = true ->
  ExecutionOptions.skipRateLimit options = false ->
  Z.of_nat (length (in_window (limiter_of p) (Date_now (clock p)))) < maxCalls (limiter_of p) ->
  exists p' kept,
    executeUrl Date_now spawn url options p =
      (Returned {| result := {| ExecutionResult.success := true;
                                ExecutionResult.url := url;
                                ExecutionResult.error := None |};
                   dryRun := Some true |}, p')
    /\ spawned p' = spawned p
    /\ recorded p' = kept ++ [Date_now (S (S (clock p)))]
    /\ kept ⊆ calls (limiter_of p).
Proof.
  intros Hurl Hdry Hskip Hroom.
  rewrite (executeUrl_room url options p Hurl Hskip Hroom).
  unfold launch. rewrite Hdry. cbn.
  eexists _, _. split; [reflexivity|]. split; [reflexivity|].
  unfold recorded. cbn. split; [reflexivity|].
  intros x [_ Hx%list_elem_of_filter]%list_elem_of_filter. apply Hx.
Qed.


(** X9.  A real run that gets past the rate limit (or skips it) hands
    exactly [open -g <url>] to [Bun.spawn], and reports success exactly
    when the command exits with code 0; a failure carries an error
    message, a success none. *)
Theorem executeUrl_succeeds_iff_exit_zero (url : string) (options : ExecutionOptions.t)
    (p : Process) :
  String.prefix "things:///" url = true ->
  ExecutionOptions.dryRun options = false ->
  ExecutionOptions.skipRateLimit options = true
  \/ Z.of_nat (length (in_window (limiter_of p) (Date_now (clock p)))) < maxCalls (limiter_of p) ->
  exists outcome p',
    executeUrl Date_now spawn url options p = (Returned outcome, p')
    /\ spawned p' = spawned p ++ [["open"; "-g"; url]]
    /\ ExecutionResult.url (result outcome) = url
    /\ dryRun outcome = None
    /\ (ExecutionResult.success (result outcome) = true <->
        exists stderr, spawn (spawned p) ["open"; "-g"; url] = Returned (0, stderr))
    /\ (ExecutionResult.success (result outcome) = true <->
        ExecutionResult.error (result outcome) = None).
Proof.
  intros Hurl Hdry Hpass.
  assert (Hlaunch : forall p1, spawned p1 = spawned p ->
            let outcome := (launch spawn url options p1).1 in
            spawned (launch spawn url options p1).2 = spawned p ++ [["open"; "-g"; url]]
            /\ ExecutionResult.url (result outcome) = url
            /\ dryRun outcome = None
            /\ (ExecutionResult.success (result outcome) = true <->
                exists stderr, spawn (spawned p) ["open"; "-g"; url] = Returned (0, stderr))
            /\ (ExecutionResult.success (result outcome) = true <->
                ExecutionResult.error (result outcome) = None)).
  { intros p1 Hp1. unfold launch. rewrite Hdry, Hp1.
    destruct (spawn (spawned p) _) as [[exitCode stderr]|[message|]]; cbn.
    - case_bool_decide as Hcode; cbn.
      + split_and!; try done. split; [done|]. intros (stderr' & [= -> _]). done.
      + split_and!; try done. split; [|done]. intros _. exists stderr.
        f_equal. f_equal. destruct (decide (exitCode = 0)); [done|]. by destruct Hcode.
    - split_and!; try done. split; [done|]. by intros (stderr' & [=]).
    - split_and!; try done. split; [done|]. by intros (stderr' & [=]). }
  destruct (ExecutionOptions.skipRateLimit options) eqn:Hskip.
  - unfold executeUrl. rewrite Hurl, Hskip. cbn [negb].
    specialize (Hlaunch p eq_refl).
    destruct (launch spawn url options p) as [outcome p']. eexists _, _.
    split; [reflexivity|]. exact Hlaunch.
  - destruct Hpass as [|Hroom]; [done|].
    rewrite (executeUrl_room url options p Hurl Hskip Hroom).
    eexists _, _. split; [reflexivity|]. by apply Hlaunch.
Qed.

Lemma executeUrl_spawned (url : string) (options : ExecutionOptions.t) (p : Process) :
  spawned (executeUrl Date_now spawn url options p).2 = spawned p
  \/ (spawned (executeUrl Date_now spawn url options p).2 = spawned p ++ [["open"; "-g"; url]]
      /\ String.prefix "things:///" url = true
      /\ ExecutionOptions.dryRun options = false).
Proof.
  assert (Hlaunch : forall p1, spawned p1 = spawned p ->
            String.prefix "things:///" url = true ->
            spawned (launch spawn url options p1).2 = spawned p
            \/ (spawned (launch spawn url options p1).2 = spawned p ++ [["open"; "-g"; url]]
                /\ String.prefix "things:///" url = true
                /\ ExecutionOptions.dryRun options = false)).
  { intros p1 Hp1 Hurl. destruct (launch_spawned url options p1) as (_ & _ & ->).
    rewrite Hp1. destruct (ExecutionOptions.dryRun options); [by left | by right]. }
  unfold executeUrl. destruct (String.prefix _ url) eqn:Hurl; cbn [negb]; [|by left].
  destruct (ExecutionOptions.skipRateLimit options) eqn:Hskip; cbn [negb].
  - specialize (Hlaunch p eq_refl eq_refl). by destruct (launch spawn url options p).
  - destruct (Z_lt_le_dec
                (Z.of_nat (length (in_window (limiter_of p) (Date_now (clock p)))))
                (maxCalls (limiter_of p))) as [Hroom|Hfull].
    + rewrite (check_rate_limit_room p Hroom).
      match goal with |- context [launch spawn url options ?q] =>
        specialize (Hlaunch q eq_refl eq_refl); by destruct (launch spawn url options q) end.
    + destruct (check_rate_limit_full p Hfull) as (wait & k' & -> & _). by left.
Qed.

(** X10.  [executeUrl] starts nothing but [open -g] on a URL of the Things
    scheme: if every command started so far has that form, so has every
    command after the call; a call starts at most one command and forgets
    none. *)
Theorem executeUrl_starts_only_things_commands (url : string)
    (options : ExecutionOptions.t) (p : Process) :
  Forall things_command (spawned p) ->
  Forall things_command (spawned (executeUrl Date_now spawn url options p).2)
  /\ (length (spawned (executeUrl Date_now spawn url options p).2)
      <= S (length (spawned p)))%nat
  /\ spawned p `prefix_of` spawned (executeUrl Date_now spawn url options p).2.
Proof.
  intros Hall. destruct (executeUrl_spawned url options p) as [->|(-> & Hurl & _)].
  - split; [done|]. split; [lia|done].
  - split; [|split].
    + apply Forall_app. split; [done|]. apply Forall_singleton. by exists url.
    + rewrite length_app. cbn. lia.
    + by apply prefix_app_r.
Qed.


(** One call during a burst: every reading of the clock from [clock p] on
    lies in [lo, hi], a span shorter than the window, and so do the
    timestamps that the limiter holds. *)
Lemma executeUrl_burst_step (url : string) (options : ExecutionOptions.t) (p : Process)
    (lo hi : Z) :
  String.prefix "things:///" url = true ->
  ExecutionOptions.skipRateLimit options = false ->
  hi - lo < windowMs (limiter_of p) ->
  (forall j, (clock p <= j)%nat -> lo <= Date_now j <= hi) ->
  Forall (fun timestamp => lo <= timestamp <= hi) (calls (limiter_of p)) ->
  let p1 := (executeUrl Date_now spawn url options p).2 in
  (clock p <= clock p1)%nat
  /\ ((Z.of_nat (length (calls (limiter_of p))) < maxCalls (limiter_of p)
       /\ limiter_of p1 =
            with_calls (limiter_of p)
              (calls (limiter_of p) ++ [Date_now (S (S (clock p)))])
       /\ spawned p1 =
            (if ExecutionOptions.dryRun options then spawned p
             else spawned p ++ [["open"; "-g"; url]]))
      \/ (maxCalls (limiter_of p) <= Z.of_nat (length (calls (limiter_of p)))
          /\ limiter_of p1 = limiter_of p
          /\ spawned p1 = spawned p
          /\ exists waitTime,
               (executeUrl Date_now spawn url options p).1
               = Returned (refused url (rate_limit_exceeded waitTime)))).
Proof.
  intros Hurl Hskip Hspan Hclock Hcalls p1.
  assert (H0 : lo <= Date_now (clock p) <= hi) by (apply Hclock; lia).
  assert (H1 : lo <= Date_now (S (clock p)) <= hi) by (apply Hclock; lia).
  assert (Hlive : in_window (limiter_of p) (Date_now (clock p)) = calls (limiter_of p)).
  { apply filter_window_all. eapply Forall_impl; [exact Hcalls|]. cbn. lia. }
  assert (Hlive1 : filter (fun timestamp => Date_now (S (clock p)) - windowMs (limiter_of p) < timestamp)
                     (calls (limiter_of p)) = calls (limiter_of p)).
  { apply filter_window_all. eapply Forall_impl; [exact Hcalls|]. cbn. lia. }
  destruct (Z_lt_le_dec (Z.of_nat (length (calls (limiter_of p)))) (maxCalls (limiter_of p)))
    as [Hroom|Hfull].
  - assert (Hroom' : Z.of_nat (length (in_window (limiter_of p) (Date_now (clock p))))
                     < maxCalls (limiter_of p)) by (by rewrite Hlive).
    pose proof (executeUrl_room url options p Hurl Hskip Hroom') as Hrun. cbn zeta in Hrun.
    rewrite Hlive, Hlive1 in Hrun. subst p1. rewrite Hrun. cbn [fst snd].
    match type of Hrun with _ = (_, (launch _ _ _ ?q).2) => set (p0 := q) in * end.
    destruct (launch_spawned url options p0) as (Hg & Hc & Hs).
    split; [rewrite Hc; cbn; lia|]. left. split; [done|]. split; [|exact Hs].
    unfold limiter_of at 1. by rewrite Hg.
  - assert (Hfull' : maxCalls (limiter_of p)
                     <= Z.of_nat (length (in_window (limiter_of p) (Date_now (clock p)))))
      by (by rewrite Hlive).
    destruct (executeUrl_full url options p Hurl Hskip Hfull') as (wait & k' & Hrun & _ & Hk).
    rewrite Hlive, Hlive1 in Hrun. subst p1. rewrite Hrun. cbn [fst snd clock spawned].
    split; [lia|]. right. split; [done|]. split; [|split; [done|by eexists]].
    unfold limiter_of at 1. cbn. apply with_calls_same.
Qed.

Lemma executeUrl_times_burst (n : nat) (url : string) (options : ExecutionOptions.t)
    (lo hi : Z) : forall (p : Process),
  String.prefix "things:///" url = true ->
  ExecutionOptions.skipRateLimit options = false ->
  hi - lo < windowMs (limiter_of p) ->
  (forall j, (clock p <= j)%nat -> lo <= Date_now j <= hi) ->
  Forall (fun timestamp => lo <= timestamp <= hi) (calls (limiter_of p)) ->
  0 <= maxCalls (limiter_of p) ->
  (length (calls (limiter_of p)) <= Z.to_nat (maxCalls (limiter_of p)))%nat ->
  let room := (Z.to_nat (maxCalls (limiter_of p)) - length (calls (limiter_of p)))%nat in
  let rs := (executeUrl_times Date_now spawn n url options p).1 in
  let p' := (executeUrl_times Date_now spawn n url options p).2 in
  length rs = n
  /\ length (spawned p') =
       (length (spawned p)
        + (if ExecutionOptions.dryRun options then 0 else n `min` room))%nat
  /\ length (calls (limiter_of p')) = (length (calls (limiter_of p)) + n `min` room)%nat
  /\ (forall i, (room <= i < n)%nat ->
      exists waitTime,
        rs !! i = Some (Returned (refused url (rate_limit_exceeded waitTime)))).
Proof.
  induction n as [|n IH]; intros p Hurl Hskip Hspan Hclock Hcalls Hmax Hlen room rs p'.
  - subst rs p'. cbn. split_and!; [done | by destruct (ExecutionOptions.dryRun options); lia | lia |].
    intros i Hi. lia.
  - destruct (executeUrl_burst_step url options p lo hi Hurl Hskip Hspan Hclock Hcalls)
      as (Hk & Hstep).
    subst rs p'. cbn [executeUrl_times].
    destruct (executeUrl Date_now spawn url options p) as [r p1] eqn:Hrun. cbn [fst snd] in *.
    assert (Hclock1 : forall j, (clock p1 <= j)%nat -> lo <= Date_now j <= hi)
      by (intros j Hj; apply Hclock; lia).
    destruct Hstep as [(Hroom & Hl1 & Hs1)|(Hfull & Hl1 & Hs1 & waitTime & Hr)].
    + assert (Hcalls1 : Forall (fun timestamp => lo <= timestamp <= hi) (calls (limiter_of p1))).
      { rewrite Hl1. cbn. apply Forall_app. split; [done|]. apply Forall_singleton.
        apply Hclock. lia. }
      assert (Hlen1 : length (calls (limiter_of p1)) = S (length (calls (limiter_of p))))
        by (rewrite Hl1; cbn; rewrite length_app; cbn; lia).
      assert (Hm1 : maxCalls (limiter_of p1) = maxCalls (limiter_of p)) by (by rewrite Hl1).
      assert (Hw1 : windowMs (limiter_of p1) = windowMs (limiter_of p)) by (by rewrite Hl1).
      specialize (IH p1 Hurl Hskip). cbn zeta in IH. rewrite Hm1, Hw1, Hlen1 in IH.
      specialize (IH Hspan Hclock1 Hcalls1 Hmax ltac:(lia)).
      destruct (executeUrl_times Date_now spawn n url options p1) as [rs p2].
      cbn [fst snd] in *. destruct IH as (IH1 & IH2 & IH3 & IH4).
      split_and!.
      * cbn. lia.
      * rewrite IH2, Hs1. destruct (ExecutionOptions.dryRun options); [lia|].
        rewrite length_app. cbn [length]. lia.
      * rewrite IH3. lia.
      * intros [|i] Hi; [lia|]. cbn. apply IH4. lia.
    + specialize (IH p1 Hurl Hskip). cbn zeta in IH. rewrite Hl1 in IH.
      specialize (IH Hspan Hclock1 Hcalls Hmax Hlen).
      destruct (executeUrl_times Date_now spawn n url options p1) as [rs p2].
      cbn [fst snd] in *. destruct IH as (IH1 & IH2 & IH3 & IH4).
      assert (Hroom0 : room = 0%nat) by (unfold room; lia).
      fold room in IH2, IH3, IH4. rewrite Hroom0 in *.
      split_and!.
      * cbn. lia.
      * rewrite IH2, Hs1. destruct (ExecutionOptions.dryRun options); lia.
      * rewrite IH3. lia.
      * intros [|i] Hi; [cbn; rewrite Hr; by eexists|]. cbn. apply IH4. lia.
Qed.

(** X11.  A burst is capped at 250 commands.  In a process whose shared
    limiter does not exist yet, [n] calls of [executeUrl] on a valid URL
    with [skipRateLimit] off, during which every reading of the clock lies
    in a span shorter than ten seconds, start [min n 250] commands (none in
    a dry run), and every call from the 251st on is refused with the
    rate-limit message. *)
Theorem executeUrl_burst_is_capped (n : nat) (url : string)
    (options : ExecutionOptions.t) (p : Process) (lo hi : Z) :
  globalLimiter p = None ->
  String.prefix "things:///" url = true ->
  ExecutionOptions.skipRateLimit options = false ->
  hi - lo < RATE_LIMIT_WINDOW_MS ->
  (forall j, (clock p <= j)%nat -> lo <= Date_now j <= hi) ->
  let rs := (executeUrl_times Date_now spawn n url options p).1 in
  let p' := (executeUrl_times Date_now spawn n url options p).2 in
  length rs = n
  /\ length (spawned p') =
       (length (spawned p)
        + (if ExecutionOptions.dryRun options then 0 else n `min` 250))%nat
  /\ (forall i, (250 <= i < n)%nat ->
      exists waitTime,
        rs !! i = Some (Returned (refused url (rate_limit_exceeded waitTime)))).
Proof.
  intros Hfresh Hurl Hskip Hspan Hclock.
  assert (Hl : limiter_of p = RateLimiter.new None None)
    by (unfold limiter_of; by rewrite Hfresh).
  pose proof (executeUrl_times_burst n url options lo hi p Hurl Hskip) as Hburst.
  rewrite Hl in Hburst. cbn [windowMs maxCalls calls RateLimiter.new default length] in Hburst.
  specialize (Hburst Hspan Hclock ltac:(constructor)).
  unfold RATE_LIMIT_MAX_CALLS in Hburst.
  specialize (Hburst ltac:(lia) ltac:(lia)).
  change (Z.to_nat 250 - 0)%nat with 250%nat in Hburst.
  destruct Hburst as (H1 & H2 & _ & H4). done.
Qed.

End UrlExecutorFacts.

Section UrlExecutorWitnesses.
Import RateLimiter UrlExecutor MoreExamples.

(** The first call of a process, as a dry run. *)
Lemma executeUrl_dry_run_takes_a_slot_witness :
  exists p' kept,
    executeUrl (steady 5000) exits_zero show_today rehearsal fresh_process =
      (Returned {| result := {| ExecutionResult.success := true;
                                ExecutionResult.url := show_today;
                                ExecutionResult.error := None |};
                   dryRun := Some true |}, p')
    /\ spawned p' = []
    /\ recorded p' = kept ++ [5000]
    /\ kept ⊆ [].
Proof.
  apply (executeUrl_dry_run_takes_a_slot (steady 5000) exits_zero show_today rehearsal
           fresh_process); [reflexivity | reflexivity | reflexivity |].
  vm_compute. reflexivity.
Defined.

(** The first call of a process, as a real run. *)
Lemma executeUrl_succeeds_iff_exit_zero_witness :
  exists outcome p',
    executeUrl (steady 5000) exits_zero show_today real_run fresh_process
    = (Returned outcome, p')
    /\ spawned p' = [["open"; "-g"; show_today]]
    /\ ExecutionResult.url (result outcome) = show_today
    /\ dryRun outcome = None
    /\ (ExecutionResult.success (result outcome) = true <->
        exists stderr, exits_zero [] ["open"; "-g"; show_today] = Returned (0, stderr))
    /\ (ExecutionResult.success (result outcome) = true <->
        ExecutionResult.error (result outcome) = None).
Proof.
  apply (executeUrl_succeeds_iff_exit_zero (steady 5000) exits_zero show_today real_run
           fresh_process); [reflexivity | reflexivity |].
  right. vm_compute. reflexivity.
Defined.

Lemma executeUrl_starts_only_things_commands_witness :
  Forall things_command
    (spawned (executeUrl (steady 5000) exits_zero show_today real_run fresh_process).2).
Proof.
  apply (executeUrl_starts_only_things_commands (steady 5000) exits_zero show_today real_run
           fresh_process).
  constructor.
Defined.

(** 251 calls at one instant: 250 commands start, the last call is
    refused. *)
Lemma executeUrl_burst_is_capped_witness :
  length (spawned (executeUrl_times (steady 5000) exits_zero 251 show_today real_run
                     fresh_process).2) = (0 + 251 `min` 250)%nat
  /\ exists waitTime,
       (executeUrl_times (steady 5000) exits_zero 251 show_today real_run fresh_process).1
         !! 250%nat
       = Some (Returned (refused show_today (rate_limit_exceeded waitTime))).
Proof.
  destruct (executeUrl_burst_is_capped (steady 5000) exits_zero 251 show_today real_run
              fresh_process 5000 5000) as (_ & Hspawned & Hrefused);
    [reflexivity | reflexivity | reflexivity | unfold RATE_LIMIT_WINDOW_MS; lia
    | intros j _; unfold steady; lia |].
  split; [exact Hspawned | apply Hrefused; lia].
Defined.

End UrlExecutorWitnesses.

(** ** Integrity of the store *)

Section StoreIntegrity.
Import SnapshotRepository SnapshotManager.
Context {JSValue : Type} {H : Host JSValue}.

Lemma next_rowid_above (ids : list Z) : Forall (fun x => x < next_rowid ids) ids.
Proof.
  unfold next_rowid. induction ids as [|x ids IH]; [constructor|].
  cbn. constructor; [lia|]. eapply Forall_impl; [exact IH|]. cbn. lia.
Qed.

Lemma next_rowid_fresh (ids : list Z) : next_rowid ids ∉ ids.
Proof.
  intros Hin. pose proof (next_rowid_above ids) as Habove.
  rewrite Forall_forall in Habove. specialize (Habove _ Hin). lia.
Qed.

Lemma NoDup_snoc_fresh (ids : list Z) : NoDup ids -> NoDup (ids ++ [next_rowid ids]).
Proof.
  intros Hnd. apply NoDup_app. split; [done|]. split; [|apply NoDup_singleton].
  intros x Hx ->%list_elem_of_singleton. by apply (next_rowid_fresh ids).
Qed.

Lemma NoDup_fmap_filter {A} (f : A -> Z) (P : A -> Prop) `{!forall x, Decision (P x)}
    (l : list A) :
  NoDup (f <$> l) -> NoDup (f <$> filter P l).
Proof.
  intros Hnd. apply (sublist_NoDup _ (f <$> l)); [exact Hnd | apply fmap_sublist, sublist_filter].
Qed.

Lemma createSnapshot_well_formed env input id : preserves well_formed (createSnapshot env input id).
Proof.
  intros db [(Hc & Hm & Hs) Hu]. unfold createSnapshot.
  destruct (snapshots db !! default (generateSnapshotId env) id) eqn:Hid; [done|].
  cbn. split; [|done]. unfold no_orphans. cbn.
  split_and!; (eapply Forall_impl; [eassumption|]); cbn; intros r Hr;
    apply lookup_insert_is_Some'; by right.
Qed.

Lemma addSnapshotCreated_well_formed snapshotId item :
  preserves well_formed (addSnapshotCreated snapshotId item).
Proof.
  intros db [(Hc & Hm & Hs) (Uc & Um & Us)]. unfold addSnapshotCreated.
  destruct (snapshots db !! snapshotId) eqn:Hid; [|done].
  cbn. split; unfold no_orphans, unique_rowids; cbn; split_and!; try done.
  - apply Forall_app. split; [done|]. apply Forall_singleton. cbn. by eexists.
  - rewrite fmap_app. cbn. by apply NoDup_snoc_fresh.
Qed.

Lemma addSnapshotStatus_well_formed snapshotId item :
  preserves well_formed (addSnapshotStatus snapshotId item).
Proof.
  intros db [(Hc & Hm & Hs) (Uc & Um & Us)]. unfold addSnapshotStatus.
  destruct (snapshots db !! snapshotId) eqn:Hid; [|done].
  cbn. split; unfold no_orphans, unique_rowids; cbn; split_and!; try done.
  - apply Forall_app. split; [done|]. apply Forall_singleton. cbn. by eexists.
  - rewrite fmap_app. cbn. by apply NoDup_snoc_fresh.
Qed.

Lemma addSnapshotModified_well_formed snapshotId (item : ModifiedInput JSValue) :
  preserves well_formed (addSnapshotModified snapshotId item).
Proof.
  intros db [(Hc & Hm & Hs) (Uc & Um & Us)]. unfold addSnapshotModified.
  destruct (JSON_stringify _); [|done].
  destruct (snapshots db !! snapshotId) eqn:Hid; [|done].
  cbn. split; unfold no_orphans, unique_rowids; cbn; split_and!; try done.
  - apply Forall_app. split; [done|]. apply Forall_singleton. cbn. by eexists.
  - rewrite fmap_app. cbn. by apply NoDup_snoc_fresh.
Qed.

Lemma updateSnapshotStatus_well_formed env id status :
  preserves well_formed (updateSnapshotStatus env id status).
Proof.
  intros db [(Hc & Hm & Hs) Hu]. cbn. split; [|done]. unfold no_orphans. cbn.
  split_and!; (eapply Forall_impl; [eassumption|]); cbn; intros r [c Hr];
    rewrite lookup_alter; case_decide; subst; rewrite ?Hr; by eexists.
Qed.

(** A stored snapshot that the [DELETE] does not delete is among the
    remaining ones. *)
Lemma not_deleted_remains (remaining : gmap string SnapshotColumns.t) (db : DB)
    (snapshot_id : string) :
  is_Some (snapshots db !! snapshot_id) ->
  ~ deleted remaining db snapshot_id ->
  is_Some (remaining !! snapshot_id).
Proof.
  intros Hstored Hkept. destruct (remaining !! snapshot_id) as [c|] eqn:Hc; [by eexists|].
  destruct Hkept. by split.
Qed.

Lemma cascade_well_formed (remaining : gmap string SnapshotColumns.t) (db : DB) :
  well_formed db -> well_formed (cascade remaining db).
Proof.
  intros [(Hc & Hm & Hs) (Uc & Um & Us)]. split.
  - unfold no_orphans, cascade. cbn.
    split_and!; apply Forall_forall; intros r [Hr Hin]%list_elem_of_filter;
      (eapply not_deleted_remains; [|exact Hr]).
    + by apply (proj1 (Forall_forall _ _) Hc).
    + by apply (proj1 (Forall_forall _ _) Hm).
    + by apply (proj1 (Forall_forall _ _) Hs).
  - unfold unique_rowids, cascade. cbn. split_and!; by apply NoDup_fmap_filter.
Qed.

Lemma deleteSnapshot_well_formed id : preserves well_formed (deleteSnapshot id).
Proof. intros db Hwf. by apply cascade_well_formed. Qed.

Lemma purgeOldSnapshots_well_formed is_old : preserves well_formed (purgeOldSnapshots is_old).
Proof. intros db Hwf. by apply cascade_well_formed. Qed.

Lemma snapshot_id_preserves (P : DB -> Prop) snapshot : preserves P (snapshot_id snapshot).
Proof. destruct snapshot; [apply preserves_ret | apply preserves_throw]. Qed.

Lemma run_well_formed (op : Operation.t JSValue) (db : DB) :
  well_formed db -> well_formed (Operation.run op db).
Proof.
  destruct op; cbn [Operation.run].
  - apply createSnapshot_well_formed.
  - apply addSnapshotCreated_well_formed.
  - apply addSnapshotModified_well_formed.
  - apply addSnapshotStatus_well_formed.
  - apply updateSnapshotStatus_well_formed.
  - apply deleteSnapshot_well_formed.
  - apply purgeOldSnapshots_well_formed.
  - revert db. change (preserves well_formed (createAddSnapshot env data)).
    unfold createAddSnapshot.
    apply preserves_bind; [apply createSnapshot_well_formed | intros snapshot].
    apply preserves_bind; [apply snapshot_id_preserves | intros id].
    apply preserves_bind; [apply addSnapshotCreated_well_formed | intros _; apply preserves_ret].
  - revert db. change (preserves well_formed (createAddProjectSnapshot env data)).
    unfold createAddProjectSnapshot.
    apply preserves_bind; [apply createSnapshot_well_formed | intros snapshot].
    apply preserves_bind; [apply snapshot_id_preserves | intros id].
    apply preserves_bind; [apply addSnapshotCreated_well_formed | intros _; apply preserves_ret].
  - revert db. change (preserves well_formed (createUpdateSnapshot env data)).
    unfold createUpdateSnapshot.
    apply preserves_bind; [apply createSnapshot_well_formed | intros snapshot].
    apply preserves_bind; [apply snapshot_id_preserves | intros id].
    apply preserves_bind; [apply addSnapshotModified_well_formed | intros _; apply preserves_ret].
  - revert db. change (preserves well_formed (createStatusChangeSnapshot env data)).
    unfold createStatusChangeSnapshot.
    apply preserves_bind; [apply createSnapshot_well_formed | intros snapshot].
    apply preserves_bind; [apply snapshot_id_preserves | intros id].
    apply preserves_bind; [apply addSnapshotStatus_well_formed | intros _; apply preserves_ret].
  - revert db. change (preserves well_formed (createBulkSnapshot env data)).
    unfold createBulkSnapshot.
    apply preserves_bind; [apply createSnapshot_well_formed | intros snapshot].
    apply preserves_bind; [apply snapshot_id_preserves | intros id].
    apply preserves_bind;
      [apply preserves_for; intros item; apply addSnapshotCreated_well_formed | intros _].
    apply preserves_bind;
      [apply preserves_for; intros item; apply addSnapshotModified_well_formed | intros _].
    apply preserves_bind;
      [apply preserves_for; intros item; apply addSnapshotStatus_well_formed | intros _].
    apply preserves_ret.
  - apply updateSnapshotStatus_well_formed.
Qed.

Lemma well_formed_empty : well_formed empty_db.
Proof.
  split; [unfold no_orphans | unfold unique_rowids]; cbn; split_and!; constructor.
Qed.

(** X12.  The store keeps its integrity.  In the database that the
    migrations create, and after any writing operation of the Store or of
    the Manager on a database that has the property, whether the operation
    returns or throws, and after [rollbackCommand]: every child row
    references a stored snapshot, and the integer keys of each child table
    are pairwise distinct. *)
Theorem store_keeps_integrity :
  well_formed empty_db
  /\ (forall (op : Operation.t JSValue) (db : DB),
        well_formed db -> well_formed (Operation.run op db))
  /\ (forall (client : list (Rollback.ClientCall JSValue) -> Rollback.ClientCall JSValue
                       -> Completion Thrown ExecutionResult.t)
             (authToken : option string) (env : Env.t) (id : string)
             (options : Rollback.RollbackOptions) (w : Rollback.World JSValue),
        well_formed (Rollback.db w) ->
        well_formed (Rollback.db (Rollback.rollbackCommand client authToken env id options w).2)).
Proof.
  split_and!.
  - apply well_formed_empty.
  - apply run_well_formed.
  - intros client authToken env id options w Hw.
    destruct (rollbackCommand_unchanged client authToken env id options w)
      as [->|(plan & Hauth & Hdry & Hplan)]; [done|].
    rewrite (rollbackCommand_execute client authToken env id options w plan Hauth Hdry Hplan).
    cbn [snd Rollback.db]. by apply updateSnapshotStatus_well_formed.
Qed.

End StoreIntegrity.

(** ** The operations of the store *)

Section StoreOperations.
Import SnapshotRepository SnapshotManager.
Context {JSValue : Type} {H : Host JSValue}.

Lemma filter_Forall_id {A} (P : A -> Prop) `{!forall x, Decision (P x)} (l : list A) :
  Forall P l -> filter P l = l.
Proof.
  induction 1 as [|x l Hx _ IH]; [done|]. rewrite filter_cons_True by done. by rewrite IH.
Qed.

Lemma DB_eq (db db' : DB) :
  snapshots db' = snapshots db ->
  snapshot_created db' = snapshot_created db ->
  snapshot_modified db' = snapshot_modified db ->
  snapshot_status db' = snapshot_status db ->
  db' = db.
Proof. destruct db, db'. cbn. by intros -> -> -> ->. Qed.

(** A [DELETE] that matches no row changes nothing. *)
Lemma cascade_id (db : DB) : cascade (snapshots db) db = db.
Proof.
  apply DB_eq; cbn; [done|..]; apply filter_Forall_id, Forall_forall;
    intros r _ [[c Hc] Hnone]; congruence.
Qed.

(** The rows that a [DELETE] of one stored snapshot leaves in a child
    table. *)
Lemma filter_not_deleted {A} (snapshot_id : A -> string) (id : string) (db : DB)
    (rows : list A) :
  is_Some (snapshots db !! id) ->
  filter (fun r => ~ deleted (delete id (snapshots db)) db (snapshot_id r)) rows
  = filter (fun r => snapshot_id r <> id) rows.
Proof.
  intros Hstored. apply list_filter_iff. intros r. unfold deleted. split.
  - intros Hkept Heq. apply Hkept. rewrite Heq. split; [done|]. apply lookup_delete_eq.
  - intros Hne [Hsome Hnone]. rewrite lookup_delete_ne in Hnone by done.
    rewrite Hnone in Hsome. by destruct Hsome.
Qed.

(** The details of a snapshot that stays stored survive a cascade. *)
Lemma getSnapshotDetails_cascade (remaining : gmap string SnapshotColumns.t) (db : DB)
    (id : string) :
  remaining !! id = snapshots db !! id ->
  getSnapshotDetails (cascade remaining db) id = getSnapshotDetails db id.
Proof.
  intros Hid. unfold getSnapshotDetails. rewrite !getSnapshot_lookup. cbn. rewrite Hid.
  destruct (snapshots db !! id) as [c|] eqn:Hc; [|done]. cbn.
  rewrite !list_filter_filter_l; [done|..]; intros r -> [_ Hnone]; congruence.
Qed.

(** X13.  [deleteSnapshot(id)] returns [true] exactly when a snapshot with
    that id was stored.  Afterwards the snapshot and its details are gone,
    and the details of every other snapshot read as before.  When the
    snapshot was stored, each child table is the former one without the
    rows that reference the id: the cascade removes its child rows and no
    others.  So no row of a child table references the id afterwards when
    the snapshot was stored, and also when the database had no orphan rows.
    Deleting an id that is not stored leaves the database as it is. *)
Theorem deleteSnapshot_removes_snapshot_and_children (id : string) (db : DB) :
  let db' := (deleteSnapshot id db).2 in
  (deleteSnapshot id db).1 = Returned (bool_decide (is_Some (getSnapshot db id)))
  /\ getSnapshot db' id = None
  /\ getSnapshotDetails db' id = None
  /\ (forall id', id' <> id -> getSnapshotDetails db' id' = getSnapshotDetails db id')
  /\ (is_Some (getSnapshot db id) ->
        snapshot_created db' =
          filter (fun r => SnapshotCreatedRow.snapshot_id r <> id) (snapshot_created db)
        /\ snapshot_modified db' =
             filter (fun r => SnapshotModifiedRow.snapshot_id r <> id) (snapshot_modified db)
        /\ snapshot_status db' =
             filter (fun r => SnapshotStatusRow.snapshot_id r <> id) (snapshot_status db))
  /\ (is_Some (getSnapshot db id) \/ no_orphans db ->
        Forall (fun r => SnapshotCreatedRow.snapshot_id r <> id) (snapshot_created db')
        /\ Forall (fun r => SnapshotModifiedRow.snapshot_id r <> id) (snapshot_modified db')
        /\ Forall (fun r => SnapshotStatusRow.snapshot_id r <> id) (snapshot_status db'))
  /\ (getSnapshot db id = None -> db' = db).
Proof.
  intros db'. subst db'. cbn [fst snd deleteSnapshot].
  assert (Hgone : getSnapshot (cascade (delete id (snapshots db)) db) id = None).
  { rewrite getSnapshot_lookup. cbn. by rewrite lookup_delete_eq. }
  assert (Hmissing : getSnapshot db id = None ->
                     cascade (delete id (snapshots db)) db = db).
  { intros Hnone%getSnapshot_None. rewrite delete_id by done. apply cascade_id. }
  assert (Hstored : is_Some (getSnapshot db id) -> is_Some (snapshots db !! id)).
  { rewrite getSnapshot_lookup. destruct (snapshots db !! id); [by eexists|].
    cbn. by intros [? ?]. }
  split_and!.
  - f_equal. rewrite getSnapshot_lookup.
    destruct (snapshots db !! id); cbn.
    + apply bool_decide_eq_true_2. lia.
    + apply bool_decide_eq_false_2. lia.
  - exact Hgone.
  - by apply getSnapshotDetails_None.
  - intros id' Hne. apply getSnapshotDetails_cascade. by apply lookup_delete_ne.
  - intros Hsome%Hstored. cbn. by rewrite !filter_not_deleted.
  - intros [Hsome%Hstored|(Hc & Hm & Hs)].
    + cbn. rewrite !filter_not_deleted by done.
      split_and!; apply Forall_forall; by intros r [Hr _]%list_elem_of_filter.
    + destruct (getSnapshot db id) as [snapshot|] eqn:Hid.
      * assert (Hsome : is_Some (snapshots db !! id)) by (apply Hstored; by eexists).
        cbn. rewrite !filter_not_deleted by done.
        split_and!; apply Forall_forall; by intros r [Hr _]%list_elem_of_filter.
      * rewrite (Hmissing eq_refl). apply getSnapshot_None in Hid.
        split_and!; (eapply Forall_impl; [eassumption|]); cbn;
          intros r [c Hr] Heq; rewrite Heq, Hid in Hr; discriminate.
  - exact Hmissing.
Qed.

(** X14.  [purgeOldSnapshots(days)] returns the number of stored snapshots
    whose [created_at] lies before the cutoff.  Afterwards the details of a
    snapshot read [null] when it was that old and read as before when it
    was not; a snapshot that is still stored is not old. *)
Theorem purgeOldSnapshots_removes_exactly_the_old (is_old : string -> bool) (db : DB) :
  let db' := (purgeOldSnapshots is_old db).2 in
  (purgeOldSnapshots is_old db).1 =
    Returned (size (filter (fun kc => is_old (SnapshotColumns.created_at kc.2) = true)
                           (snapshots db)))
  /\ (forall id,
        getSnapshotDetails db' id =
          match getSnapshot db id with
          | Some snapshot =>
              if is_old (Snapshot.createdAt snapshot) then None
              else getSnapshotDetails db id
          | None => None
          end)
  /\ (forall id snapshot,
        getSnapshot db' id = Some snapshot ->
        getSnapshot db id = Some snapshot /\ is_old (Snapshot.createdAt snapshot) = false).
Proof.
  intros db'. subst db'. cbn [fst snd purgeOldSnapshots].
  set (keep := fun kc : string * SnapshotColumns.t =>
                 is_old (SnapshotColumns.created_at kc.2) = false).
  split_and!.
  - f_equal.
    rewrite <- (map_filter_union_complement keep (snapshots db)) at 1.
    rewrite map_size_disj_union by apply map_disjoint_filter_complement.
    rewrite Nat.add_comm, Nat.add_sub. f_equal.
    apply map_filter_ext. intros i c _. unfold keep. cbn.
    by destruct (is_old _).
  - intros id. rewrite (getSnapshot_lookup db id).
    destruct (snapshots db !! id) as [c|] eqn:Hc; cbn.
    + destruct (is_old (SnapshotColumns.created_at c)) eqn:Hold.
      * apply getSnapshotDetails_None. rewrite getSnapshot_lookup. cbn.
        rewrite (proj2 (map_lookup_filter_None _ _ _)); [done|].
        right. intros c' Hc'. unfold keep. cbn. rewrite Hc in Hc'. injection Hc' as <-.
        by rewrite Hold.
      * apply getSnapshotDetails_cascade. rewrite Hc.
        apply map_lookup_filter_Some. split; [done|]. exact Hold.
    + apply getSnapshotDetails_None. rewrite getSnapshot_lookup. cbn.
      rewrite (proj2 (map_lookup_filter_None _ _ _)); [done|]. by left.
  - intros id snapshot. rewrite !getSnapshot_lookup. cbn.
    destruct (filter keep (snapshots db) !! id) as [c|] eqn:Hc; [|done].
    apply map_lookup_filter_Some in Hc as [Hc Hkeep]. rewrite Hc. cbn.
    intros [= <-]. split; [done|]. exact Hkeep.
Qed.

(** X15.  [updateSnapshotStatus] and [markRolledBack] on an id that is not
    stored return normally and change nothing: the [UPDATE] matches no row
    and no error is raised. *)
Theorem updateSnapshotStatus_of_missing_snapshot (env : Env.t) (id status : string)
    (db : DB) :
  getSnapshot db id = None ->
  updateSnapshotStatus env id status db = (Returned (), db)
  /\ markRolledBack env id status db = (Returned (), db).
Proof.
  intros Hnone%getSnapshot_None.
  assert (Hu : updateSnapshotStatus env id status db = (Returned (), db)).
  { unfold updateSnapshotStatus. f_equal. apply DB_eq; cbn; try done.
    apply map_eq. intros i. rewrite lookup_alter. case_decide; [|done]. subst.
    by rewrite Hnone. }
  split; [exact Hu|]. exact Hu.
Qed.


Lemma getSnapshotDetails_with_rows (db : DB) (id : string)
    (created : list SnapshotCreatedRow.t) (modified : list SnapshotModifiedRow.t)
    (status : list SnapshotStatusRow.t) :
  getSnapshotDetails (with_rows db created modified status) id =
    match getSnapshotDetails db id with
    | None => None
    | Some details =>
        Some {| SnapshotDetails.snapshot := SnapshotDetails.snapshot details;
                SnapshotDetails.createdItems :=
                  SnapshotDetails.createdItems details
                  ++ (rowToCreatedItem
                      <$> filter (fun r => SnapshotCreatedRow.snapshot_id r = id) created);
                SnapshotDetails.modifiedItems :=
                  SnapshotDetails.modifiedItems details
                  ++ (rowToModifiedItem
                      <$> filter (fun r => SnapshotModifiedRow.snapshot_id r = id) modified);
                SnapshotDetails.statusChanges :=
                  SnapshotDetails.statusChanges details
                  ++ (rowToStatusChange
                      <$> filter (fun r => SnapshotStatusRow.snapshot_id r = id) status) |}
    end.
Proof.
  unfold getSnapshotDetails. rewrite !getSnapshot_lookup. cbn.
  destruct (snapshots db !! id); [|done]. cbn.
  by rewrite !filter_app, !fmap_app.
Qed.

Lemma details_eta (details : SnapshotDetails.t) :
  {| SnapshotDetails.snapshot := SnapshotDetails.snapshot details;
     SnapshotDetails.createdItems := SnapshotDetails.createdItems details ++ [];
     SnapshotDetails.modifiedItems := SnapshotDetails.modifiedItems details ++ [];
     SnapshotDetails.statusChanges := SnapshotDetails.statusChanges details ++ [] |}
  = details.
Proof. destruct details. cbn. by rewrite !app_nil_r. Qed.

(** X16.  [addSnapshotCreated] and [addSnapshotStatus] on an id that is not
    stored throw the foreign-key error and change nothing.  On a stored
    snapshot they return, and [getSnapshotDetails] then lists one more item
    at the end of [createdItems] (of [statusChanges]): the fields given,
    under a key that no row of the table had; the rest of the details, and
    the details of every other snapshot, read as before. *)
Theorem child_insert_appends_one_item (snapshotId : string) (created : CreatedInput)
    (status : StatusInput) (db : DB) :
  (getSnapshot db snapshotId = None ->
   addSnapshotCreated snapshotId created db = (Threw foreign_key_failed, db)
   /\ addSnapshotStatus snapshotId status db = (Threw foreign_key_failed, db))
  /\ (forall details,
        getSnapshotDetails db snapshotId = Some details ->
        exists key db',
          addSnapshotCreated snapshotId created db = (Returned (), db')
          /\ (key ∉ SnapshotCreatedRow.id <$> snapshot_created db)
          /\ getSnapshotDetails db' snapshotId =
               Some {| SnapshotDetails.snapshot := SnapshotDetails.snapshot details;
                       SnapshotDetails.createdItems :=
                         SnapshotDetails.createdItems details
                         ++ [{| SnapshotCreatedItem.id := key;
                                SnapshotCreatedItem.snapshotId := snapshotId;
                                SnapshotCreatedItem.thingsId := ci_thingsId created;
                                SnapshotCreatedItem.itemType := ci_itemType created;
                                SnapshotCreatedItem.title := ci_title created;
                                SnapshotCreatedItem.parentId := ci_parentId created |}];
                       SnapshotDetails.modifiedItems := SnapshotDetails.modifiedItems details;
                       SnapshotDetails.statusChanges := SnapshotDetails.statusChanges details |}
          /\ forall id', id' <> snapshotId ->
               getSnapshotDetails db' id' = getSnapshotDetails db id')
  /\ (forall details,
        getSnapshotDetails db snapshotId = Some details ->
        exists key db',
          addSnapshotStatus snapshotId status db = (Returned (), db')
          /\ (key ∉ SnapshotStatusRow.id <$> snapshot_status db)
          /\ getSnapshotDetails db' snapshotId =
               Some {| SnapshotDetails.snapshot := SnapshotDetails.snapshot details;
                       SnapshotDetails.createdItems := SnapshotDetails.createdItems details;
                       SnapshotDetails.modifiedItems := SnapshotDetails.modifiedItems details;
                       SnapshotDetails.statusChanges :=
                         SnapshotDetails.statusChanges details
                         ++ [{| SnapshotStatusChange.id := key;
                                SnapshotStatusChange.snapshotId := snapshotId;
                                SnapshotStatusChange.thingsId := si_thingsId status;
                                SnapshotStatusChange.itemType := si_itemType status;
                                SnapshotStatusChange.previousStatus := si_previousStatus status;
                                SnapshotStatusChange.newStatus := si_newStatus status |}] |}
          /\ forall id', id' <> snapshotId ->
               getSnapshotDetails db' id' = getSnapshotDetails db id').
Proof.
  split_and!.
  - intros Hnone%getSnapshot_None. unfold addSnapshotCreated, addSnapshotStatus.
    by rewrite Hnone.
  - intros details Hdetails.
    assert (Hstored : is_Some (snapshots db !! snapshotId)).
    { destruct (snapshots db !! snapshotId) eqn:Hs; [by eexists|].
      apply getSnapshot_None, getSnapshotDetails_None in Hs. congruence. }
    destruct Hstored as [c Hc]. unfold addSnapshotCreated. rewrite Hc.
    eexists _, _. split; [reflexivity|].
    split; [apply next_rowid_fresh|].
    match goal with |- context [snapshot_created db ++ [?r]] => set (row := r) end.
    assert (Hdb : {| snapshots := snapshots db;
                     snapshot_created := snapshot_created db ++ [row];
                     snapshot_modified := snapshot_modified db;
                     snapshot_status := snapshot_status db |} = with_rows db [row] [] []).
    { apply DB_eq; cbn; by rewrite ?app_nil_r. }
    rewrite Hdb. split.
    + rewrite getSnapshotDetails_with_rows, Hdetails. cbn.
      rewrite decide_True by done. cbn. by rewrite !app_nil_r.
    + intros id' Hne. rewrite getSnapshotDetails_with_rows.
      destruct (getSnapshotDetails db id') as [d|]; [|done]. cbn.
      rewrite decide_False by (cbn; congruence). cbn. by rewrite details_eta.
  - intros details Hdetails.
    assert (Hstored : is_Some (snapshots db !! snapshotId)).
    { destruct (snapshots db !! snapshotId) eqn:Hs; [by eexists|].
      apply getSnapshot_None, getSnapshotDetails_None in Hs. congruence. }
    destruct Hstored as [c Hc]. unfold addSnapshotStatus. rewrite Hc.
    eexists _, _. split; [reflexivity|].
    split; [apply next_rowid_fresh|].
    match goal with |- context [snapshot_status db ++ [?r]] => set (row := r) end.
    assert (Hdb : {| snapshots := snapshots db;
                     snapshot_created := snapshot_created db;
                     snapshot_modified := snapshot_modified db;
                     snapshot_status := snapshot_status db ++ [row] |} = with_rows db [] [] [row]).
    { apply DB_eq; cbn; by rewrite ?app_nil_r. }
    rewrite Hdb. split.
    + rewrite getSnapshotDetails_with_rows, Hdetails. cbn.
      rewrite decide_True by done. cbn. by rewrite !app_nil_r.
    + intros id' Hne. rewrite getSnapshotDetails_with_rows.
      destruct (getSnapshotDetails db id') as [d|]; [|done]. cbn.
      rewrite decide_False by (cbn; congruence). cbn. by rewrite details_eta.
Qed.


(** X17.  [addSnapshotModified] serializes before it inserts.  When
    [JSON.stringify] throws on the previous state the exception leaves the
    call, also for an id that is not stored, and nothing is written.  When
    it returns text and the id is not stored the foreign-key error is
    thrown.  Otherwise [getSnapshotDetails] lists one more modified item at
    the end whose [previousState] is that text and whose [modifiedFields]
    is the serialized list, under a new key; everything else reads as
    before. *)
Theorem addSnapshotModified_stores_serialized_state (snapshotId : string)
    (item : ModifiedInput JSValue) (db : DB) :
  (forall e,
     JSON_stringify (mi_previousState item) = Threw e ->
     addSnapshotModified snapshotId item db = (Threw e, db))
  /\ (forall text,
        JSON_stringify (mi_previousState item) = Returned text ->
        getSnapshot db snapshotId = None ->
        addSnapshotModified snapshotId item db = (Threw foreign_key_failed, db))
  /\ (forall text details,
        JSON_stringify (mi_previousState item) = Returned text ->
        getSnapshotDetails db snapshotId = Some details ->
        exists key db',
          addSnapshotModified snapshotId item db = (Returned (), db')
          /\ (key ∉ SnapshotModifiedRow.id <$> snapshot_modified db)
          /\ getSnapshotDetails db' snapshotId =
               Some {| SnapshotDetails.snapshot := SnapshotDetails.snapshot details;
                       SnapshotDetails.createdItems := SnapshotDetails.createdItems details;
                       SnapshotDetails.modifiedItems :=
                         SnapshotDetails.modifiedItems details
                         ++ [{| SnapshotModifiedItem.id := key;
                                SnapshotModifiedItem.snapshotId := snapshotId;
                                SnapshotModifiedItem.thingsId := mi_thingsId item;
                                SnapshotModifiedItem.itemType := mi_itemType item;
                                SnapshotModifiedItem.previousState := text;
                                SnapshotModifiedItem.modifiedFields :=
                                  JSON_stringify_strings (mi_modifiedFields item) |}];
                       SnapshotDetails.statusChanges := SnapshotDetails.statusChanges details |}
          /\ forall id', id' <> snapshotId ->
               getSnapshotDetails db' id' = getSnapshotDetails db id').
Proof.
  split_and!.
  - intros e He. unfold addSnapshotModified. by rewrite He.
  - intros text Htext Hnone%getSnapshot_None. unfold addSnapshotModified.
    by rewrite Htext, Hnone.
  - intros text details Htext Hdetails.
    assert (Hstored : is_Some (snapshots db !! snapshotId)).
    { destruct (snapshots db !! snapshotId) eqn:Hs; [by eexists|].
      apply getSnapshot_None, getSnapshotDetails_None in Hs. congruence. }
    destruct Hstored as [c Hc]. unfold addSnapshotModified. rewrite Htext, Hc.
    eexists _, _. split; [reflexivity|].
    split; [apply next_rowid_fresh|].
    match goal with |- context [snapshot_modified db ++ [?r]] => set (row := r) end.
    assert (Hdb : {| snapshots := snapshots db;
                     snapshot_created := snapshot_created db;
                     snapshot_modified := snapshot_modified db ++ [row];
                     snapshot_status := snapshot_status db |} = with_rows db [] [row] []).
    { apply DB_eq; cbn; by rewrite ?app_nil_r. }
    rewrite Hdb. split.
    + rewrite getSnapshotDetails_with_rows, Hdetails. cbn.
      rewrite decide_True by done. cbn. by rewrite !app_nil_r.
    + intros id' Hne. rewrite getSnapshotDetails_with_rows.
      destruct (getSnapshotDetails db id') as [d|]; [|done]. cbn.
      rewrite decide_False by (cbn; congruence). cbn. by rewrite details_eta.
Qed.

Lemma filter_Forall_nil {A} (P : A -> Prop) `{!forall x, Decision (P x)} (l : list A) :
  Forall (fun x => ~ P x) l -> filter P l = [].
Proof.
  induction 1 as [|x l Hx _ IH]; [done|]. by rewrite filter_cons_False.
Qed.

(** The child rows of a snapshot that is not stored: none, in a database
    without orphans. *)
Lemma no_orphans_free (db : DB) (id : string) :
  no_orphans db -> snapshots db !! id = None ->
  filter (fun r => SnapshotCreatedRow.snapshot_id r = id) (snapshot_created db) = []
  /\ filter (fun r => SnapshotModifiedRow.snapshot_id r = id) (snapshot_modified db) = []
  /\ filter (fun r => SnapshotStatusRow.snapshot_id r = id) (snapshot_status db) = [].
Proof.
  intros (Hc & Hm & Hs) Hfree.
  split_and!; apply filter_Forall_nil; (eapply Forall_impl; [eassumption|]);
    cbn; intros r [c Hr] Heq; rewrite Heq in Hr; congruence.
Qed.

(** X18.  [createSnapshot(input, id?)], with [generateSnapshotId()] for a
    missing [id].  If the id is stored already the call throws the
    uniqueness error and changes nothing.  Otherwise it returns the new
    snapshot: the id, the three fields of [input], [createdAt] the current
    time, no [rolledBackAt], status ['active'].  [getSnapshot] then returns
    the same record, the details of every other snapshot read as before,
    and in a database without orphans the new snapshot has no items. *)
Theorem createSnapshot_round_trip (env : Env.t) (input : CreateSnapshotInput.t)
    (id : option string) (db : DB) :
  let snapshotId := default (generateSnapshotId env) id in
  let snapshot :=
    {| Snapshot.id := snapshotId;
       Snapshot.description := CreateSnapshotInput.description input;
       Snapshot.operationType := CreateSnapshotInput.operationType input;
       Snapshot.command := CreateSnapshotInput.command input;
       Snapshot.createdAt := Env.datetime_now env;
       Snapshot.rolledBackAt := None;
       Snapshot.status := "active" |} in
  (is_Some (getSnapshot db snapshotId) ->
   createSnapshot env input id db
   = (Threw (ErrorObject "UNIQUE constraint failed: snapshots.id"), db))
  /\ (getSnapshot db snapshotId = None ->
      exists db',
        createSnapshot env input id db = (Returned (Some snapshot), db')
        /\ getSnapshot db' snapshotId = Some snapshot
        /\ (forall id', id' <> snapshotId ->
            getSnapshotDetails db' id' = getSnapshotDetails db id')
        /\ (no_orphans db ->
            getSnapshotDetails db' snapshotId =
              Some {| SnapshotDetails.snapshot := snapshot;
                      SnapshotDetails.createdItems := [];
                      SnapshotDetails.modifiedItems := [];
                      SnapshotDetails.statusChanges := [] |})).
Proof.
  intros snapshotId snapshot. split.
  - intros [s Hs]. unfold createSnapshot. fold snapshotId.
    apply getSnapshot_Some in Hs as (c & -> & _). done.
  - intros Hnone%getSnapshot_None. unfold createSnapshot. fold snapshotId. rewrite Hnone.
    match goal with |- context [(_, ?d)] => set (db1 := d) end.
    assert (Hnew : getSnapshot db1 snapshotId = Some snapshot).
    { rewrite getSnapshot_lookup. cbn. by rewrite lookup_insert_eq. }
    exists db1. rewrite Hnew. split_and!; [done | done | |].
    + intros id' Hne. unfold getSnapshotDetails. rewrite !getSnapshot_lookup. cbn.
      by rewrite lookup_insert_ne.
    + intros Horph. destruct (no_orphans_free db snapshotId Horph Hnone) as (Hc & Hm & Hs).
      unfold getSnapshotDetails. rewrite Hnew. cbn. by rewrite Hc, Hm, Hs.
Qed.

End StoreOperations.

Section StoreWitnesses.
Import MiniJS SnapshotRepository SnapshotManager Examples.

(** Marking a snapshot of the empty database. *)
Lemma updateSnapshotStatus_of_missing_snapshot_witness :
  updateSnapshotStatus env1 snap0 "rolled-back" empty_db = (Returned (), empty_db)
  /\ markRolledBack env1 snap0 "rolled-back" empty_db = (Returned (), empty_db).
Proof.
  apply (updateSnapshotStatus_of_missing_snapshot env1 snap0 "rolled-back" empty_db).
  reflexivity.
Defined.

End StoreWitnesses.

(** ** From a new snapshot to its rollback *)

Section NewSnapshotPlans.
Import SnapshotRepository SnapshotManager.
Context {JSValue : Type} {H : Host JSValue}.

Lemma getSnapshotDetails_new (env : Env.t) (input : CreateSnapshotInput.t) (db : DB)
    (created : list SnapshotCreatedRow.t) (modified : list SnapshotModifiedRow.t)
    (status : list SnapshotStatusRow.t) :
  no_orphans db ->
  snapshots db !! generateSnapshotId env = None ->
  Forall (fun r => SnapshotCreatedRow.snapshot_id r = generateSnapshotId env) created ->
  Forall (fun r => SnapshotModifiedRow.snapshot_id r = generateSnapshotId env) modified ->
  Forall (fun r => SnapshotStatusRow.snapshot_id r = generateSnapshotId env) status ->
  getSnapshotDetails (with_rows (with_parent env input db) created modified status)
                     (generateSnapshotId env) =
    Some {| SnapshotDetails.snapshot := new_snapshot env input;
            SnapshotDetails.createdItems := rowToCreatedItem <$> created;
            SnapshotDetails.modifiedItems := rowToModifiedItem <$> modified;
            SnapshotDetails.statusChanges := rowToStatusChange <$> status |}.
Proof.
  intros Horph Hfree Hc Hm Hs.
  destruct (no_orphans_free db _ Horph Hfree) as (Fc & Fm & Fs).
  unfold getSnapshotDetails. rewrite getSnapshot_with_parent. cbn.
  rewrite !filter_app, Fc, Fm, Fs. cbn.
  by rewrite !filter_Forall_id by done.
Qed.

Lemma new_add_plan (env : Env.t) (db : DB) (data : AddSnapshotData) :
  no_orphans db ->
  snapshots db !! generateSnapshotId env = None ->
  exists plan,
    getRollbackPlan (createAddSnapshot env data db).2 (generateSnapshotId env)
    = Returned (Some plan)
    /\ plan_snapshotId plan = generateSnapshotId env
    /\ plan_operationType plan = "add"
    /\ actions plan = [cancel (add_thingsId data) (add_itemType data)]
    /\ warnings plan = [].
Proof.
  intros Horph Hfree.
  destruct (createAddSnapshot_free env data db Hfree)
    as (input & row & -> & Hop & Hid & Hthings & Htype & _).
  cbn [snd]. unfold getRollbackPlan.
  rewrite (getSnapshotDetails_new env input db [row] [] [] Horph Hfree)
    by (repeat constructor; done).
  cbn. rewrite Hthings, Htype. cbn. eexists. split; [reflexivity|]. cbn. by rewrite Hop.
Qed.

Lemma new_project_plan (env : Env.t) (db : DB) (data : AddSnapshotData) :
  no_orphans db ->
  snapshots db !! generateSnapshotId env = None ->
  exists plan,
    getRollbackPlan (createAddProjectSnapshot env data db).2 (generateSnapshotId env)
    = Returned (Some plan)
    /\ plan_snapshotId plan = generateSnapshotId env
    /\ plan_operationType plan = "add-project"
    /\ actions plan = [cancel (add_thingsId data) "project"]
    /\ warnings plan = [].
Proof.
  intros Horph Hfree.
  destruct (createAddProjectSnapshot_free env data db Hfree)
    as (input & row & -> & Hop & Hid & Hthings & Htype & _).
  cbn [snd]. unfold getRollbackPlan.
  rewrite (getSnapshotDetails_new env input db [row] [] [] Horph Hfree)
    by (repeat constructor; done).
  cbn. rewrite Hthings, Htype. cbn. eexists. split; [reflexivity|]. cbn. by rewrite Hop.
Qed.

Lemma new_status_plan (env : Env.t) (db : DB) (data : StatusChangeData) :
  no_orphans db ->
  snapshots db !! generateSnapshotId env = None ->
  exists plan,
    getRollbackPlan (createStatusChangeSnapshot env data db).2 (generateSnapshotId env)
    = Returned (Some plan)
    /\ plan_snapshotId plan = generateSnapshotId env
    /\ (if bool_decide (sc_newStatus data = "canceled")
        then actions plan = []
             /\ warnings plan = [canceled_warning (sc_thingsId data)]
        else actions plan = [revert_status (sc_thingsId data) (sc_itemType data)
                                           (sc_previousStatus data)]
             /\ warnings plan = []).
Proof.
  intros Horph Hfree.
  destruct (createStatusChangeSnapshot_free env data db Hfree)
    as (input & row & -> & Hop & Hid & Hthings & Htype & Hprev & Hnew).
  cbn [snd]. unfold getRollbackPlan.
  rewrite (getSnapshotDetails_new env input db [] [] [row] Horph Hfree)
    by (repeat constructor; done).
  cbn. rewrite Hthings, Htype, Hprev, Hnew. cbn. clear Hop.
  destruct (bool_decide (sc_newStatus data = "canceled"));
    eexists; (split; [reflexivity|]); cbn; done.
Qed.

Lemma new_update_plan (env : Env.t) (db : DB) (data : UpdateSnapshotData JSValue)
    (text : string) :
  no_orphans db ->
  snapshots db !! generateSnapshotId env = None ->
  JSON_stringify (up_previousState data) = Returned text ->
  (forall e,
     JSON_parse text = Threw e ->
     getRollbackPlan (createUpdateSnapshot env data db).2 (generateSnapshotId env) = Threw e)
  /\ (forall previousState,
        JSON_parse text = Returned previousState ->
        exists plan,
          getRollbackPlan (createUpdateSnapshot env data db).2 (generateSnapshotId env)
          = Returned (Some plan)
          /\ plan_snapshotId plan = generateSnapshotId env
          /\ plan_operationType plan = "update"
          /\ actions plan = [restore (up_thingsId data) (up_itemType data) previousState]
          /\ warnings plan = []).
Proof.
  intros Horph Hfree Htext.
  destruct (createUpdateSnapshot_free env data db Hfree)
    as (input & Hop & [(row & -> & Hid & Hthings & Htype & Hstate & _)|(e & He & _)]);
    [|congruence].
  cbn [snd]. unfold getRollbackPlan.
  rewrite (getSnapshotDetails_new env input db [] [row] [] Horph Hfree)
    by (repeat constructor; done).
  cbn in Hstate |- *. rewrite Htext in Hstate. injection Hstate as <-.
  rewrite Hthings, Htype. cbn. split.
  - intros e ->. done.
  - intros previousState ->. eexists. split; [reflexivity|]. cbn. by rewrite Hop.
Qed.

(** X19.  The plan of a snapshot that was just created, in a database
    without orphans in which the generated id is free.  After
    [createAddSnapshot] ([createAddProjectSnapshot]) the plan is one
    ['cancel'] action on the item (as a ['project']).  After
    [createStatusChangeSnapshot] it is one ['revert-status'] action with the
    previous status, unless the new status is ['canceled']: then it has no
    action and one warning.  After [createUpdateSnapshot] whose previous
    state serializes to [text], [getRollbackPlan] throws what
    [JSON.parse(text)] throws, or the plan is one ['restore'] action whose
    data is what [JSON.parse(text)] returns. *)
Theorem plan_of_new_snapshot (env : Env.t) (db : DB) :
  no_orphans db ->
  snapshots db !! generateSnapshotId env = None ->
  let id := generateSnapshotId env in
  (forall data : AddSnapshotData,
     exists plan,
       getRollbackPlan (createAddSnapshot env data db).2 id = Returned (Some plan)
       /\ plan_snapshotId plan = id
       /\ plan_operationType plan = "add"
       /\ actions plan = [cancel (add_thingsId data) (add_itemType data)]
       /\ warnings plan = [])
  /\ (forall data : AddSnapshotData,
        exists plan,
          getRollbackPlan (createAddProjectSnapshot env data db).2 id = Returned (Some plan)
          /\ plan_snapshotId plan = id
          /\ plan_operationType plan = "add-project"
          /\ actions plan = [cancel (add_thingsId data) "project"]
          /\ warnings plan = [])
  /\ (forall data : StatusChangeData,
        exists plan,
          getRollbackPlan (createStatusChangeSnapshot env data db).2 id = Returned (Some plan)
          /\ plan_snapshotId plan = id
          /\ (if bool_decide (sc_newStatus data = "canceled")
              then actions plan = []
                   /\ warnings plan = [canceled_warning (sc_thingsId data)]
              else actions plan = [revert_status (sc_thingsId data) (sc_itemType data)
                                                 (sc_previousStatus data)]
                   /\ warnings plan = []))
  /\ (forall (data : UpdateSnapshotData JSValue) (text : string),
        JSON_stringify (up_previousState data) = Returned text ->
        (forall e,
           JSON_parse text = Threw e ->
           getRollbackPlan (createUpdateSnapshot env data db).2 id = Threw e)
        /\ (forall previousState,
              JSON_parse text = Returned previousState ->
              exists plan,
                getRollbackPlan (createUpdateSnapshot env data db).2 id
                = Returned (Some plan)
                /\ plan_snapshotId plan = id
                /\ plan_operationType plan = "update"
                /\ actions plan
                   = [restore (up_thingsId data) (up_itemType data) previousState]
                /\ warnings plan = [])).
Proof.
  intros Horph Hfree id. subst id. split_and!.
  - intros data. by apply new_add_plan.
  - intros data. by apply new_project_plan.
  - intros data. by apply new_status_plan.
  - intros data text. by apply new_update_plan.
Qed.

Lemma Forall2_right {A B} (P : A -> B -> Prop) (Q : B -> Prop) (l : list A) (k : list B) :
  (forall x y, P x y -> Q y) -> Forall2 P l k -> Forall Q k.
Proof. intros HPQ. induction 1; constructor; eauto. Qed.

Lemma cancel_for_rows (id : string) (items : list CreatedInput)
    (rows : list SnapshotCreatedRow.t) :
  Forall2 (created_row_for id) items rows ->
  cancel_for (JSValue:=JSValue) <$> (rowToCreatedItem <$> rows)
  = (fun item => cancel (ci_thingsId item) (ci_itemType item)) <$> items.
Proof.
  induction 1 as [|item row items rows (_ & Hthings & Htype & _) _ IH]; [done|].
  cbn. rewrite IH. unfold cancel_for. cbn. by rewrite Hthings, Htype.
Qed.

Lemma restored_for_rows (id : string) (items : list (ModifiedInput JSValue)) :
  forall (rows : list SnapshotModifiedRow.t) (states : list JSValue)
         (restored : list (RollbackAction JSValue)),
  Forall2 (modified_row_for id) items rows ->
  Forall2 round_trips items states ->
  Forall2 restores (rowToModifiedItem <$> rows) restored ->
  restored
  = zip_with (fun item state => restore (mi_thingsId item) (mi_itemType item) state)
             items states.
Proof.
  induction items as [|item items IH]; intros rows states restored Hrows Hstates Hrestored.
  - inversion Hrows; subst. inversion Hstates; subst. by inversion Hrestored.
  - inversion Hrows as [|? row ? rows' (_ & Hthings & Htype & Htext & _) Hrows']; subst.
    inversion Hstates as [|? state ? states' (text & Htext' & Hparse) Hstates']; subst.
    cbn in Hrestored.
    inversion Hrestored as [|? action ? restored' (v & Hv & ->) Hrestored']; subst.
    cbn in Hv |- *. rewrite Htext in Htext'. injection Htext' as Heq.
    rewrite Heq, Hparse in Hv. injection Hv as <-.
    rewrite Hthings, Htype. f_equal. by eapply IH.
Qed.

Lemma rows_parse (id : string) (items : list (ModifiedInput JSValue)) :
  forall (rows : list SnapshotModifiedRow.t) (states : list JSValue),
  Forall2 (modified_row_for id) items rows ->
  Forall2 round_trips items states ->
  Forall (fun item => is_Returned (JSON_parse (SnapshotModifiedItem.previousState item)) = true)
         (rowToModifiedItem <$> rows).
Proof.
  induction items as [|item items IH]; intros rows states Hrows Hstates.
  - inversion Hrows; subst. constructor.
  - inversion Hrows as [|? row ? rows' (_ & _ & _ & Htext & _) Hrows']; subst.
    inversion Hstates as [|? state ? states' (text & Htext' & Hparse) Hstates']; subst.
    cbn. constructor; [|by eapply IH].
    cbn. rewrite Htext in Htext'. injection Htext' as Heq. by rewrite Heq, Hparse.
Qed.

Lemma status_actions_for_rows (id : string) (items : list StatusInput)
    (rows : list SnapshotStatusRow.t) :
  Forall2 (status_row_for id) items rows ->
  revert_for (JSValue:=JSValue)
    <$> filter (fun item => ~ is_canceled item) (rowToStatusChange <$> rows)
  = (fun item => revert_status (si_thingsId item) (si_itemType item) (si_previousStatus item))
      <$> filter (fun item => si_newStatus item <> "canceled") items
  /\ warning_for <$> filter is_canceled (rowToStatusChange <$> rows)
     = (fun item => canceled_warning (si_thingsId item))
         <$> filter (fun item => si_newStatus item = "canceled") items.
Proof.
  induction 1 as [|item row items rows (_ & Hthings & Htype & Hprev & Hnew) _ [IH1 IH2]];
    [done|].
  cbn [fmap list_fmap].
  assert (Hsame : is_canceled (rowToStatusChange row) <-> si_newStatus item = "canceled")
    by (unfold is_canceled; cbn; by rewrite Hnew).
  destruct (decide (si_newStatus item = "canceled")) as [Hc|Hc].
  - rewrite (filter_cons_False (fun item => ~ is_canceled item)) by tauto.
    rewrite (filter_cons_True is_canceled) by tauto.
    rewrite (filter_cons_False (fun item => si_newStatus item <> "canceled")) by tauto.
    rewrite (filter_cons_True (fun item => si_newStatus item = "canceled")) by tauto.
    split; [exact IH1|]. cbn [fmap list_fmap]. rewrite IH2.
    unfold warning_for. cbn. by rewrite Hthings.
  - rewrite (filter_cons_True (fun item => ~ is_canceled item)) by tauto.
    rewrite (filter_cons_False is_canceled) by tauto.
    rewrite (filter_cons_True (fun item => si_newStatus item <> "canceled")) by tauto.
    rewrite (filter_cons_False (fun item => si_newStatus item = "canceled")) by tauto.
    split; [|exact IH2]. cbn [fmap list_fmap]. rewrite IH1.
    unfold revert_for. cbn. by rewrite Hthings, Htype, Hprev.
Qed.

(** X28.  The plan of a bulk snapshot that was just created, in a database
    without orphans in which the generated id is free, when the previous
    state of every modified item serializes and parses back.  It holds, in
    the order of the data: a ['cancel'] action for each created item, a
    ['restore'] action for each modified item with the parsed previous
    state as data, and a ['revert-status'] action for each status change
    whose new status is not ['canceled']; and a warning for each one whose
    new status is. *)
Theorem plan_of_new_bulk_snapshot (env : Env.t) (db : DB) (data : BulkSnapshotData JSValue)
    (states : list JSValue) :
  no_orphans db ->
  snapshots db !! generateSnapshotId env = None ->
  Forall2 round_trips (bulk_modifiedItems data) states ->
  exists plan,
    getRollbackPlan (createBulkSnapshot env data db).2 (generateSnapshotId env)
    = Returned (Some plan)
    /\ plan_snapshotId plan = generateSnapshotId env
    /\ plan_operationType plan = "json"
    /\ actions plan =
         ((fun item => cancel (ci_thingsId item) (ci_itemType item))
            <$> bulk_createdItems data)
         ++ zip_with (fun item state => restore (mi_thingsId item) (mi_itemType item) state)
                     (bulk_modifiedItems data) states
         ++ ((fun item => revert_status (si_thingsId item) (si_itemType item)
                                        (si_previousStatus item))
               <$> filter (fun item => si_newStatus item <> "canceled")
                          (bulk_statusChanges data))
    /\ warnings plan =
         (fun item => canceled_warning (si_thingsId item))
           <$> filter (fun item => si_newStatus item = "canceled") (bulk_statusChanges data).
Proof.
  intros Horph Hfree Hstates.
  destruct (createBulkSnapshot_free env data db Hfree)
    as (input & createdRows & modifiedRows & Hop & Hcreated
        & [(statusRows & Hrun & Hmodified & Hstatus)
          |(e & stored & item & rest & _ & Hsplit & He & _)]).
  - rewrite Hrun. cbn [snd].
    assert (Hdetails := getSnapshotDetails_new env input db createdRows modifiedRows statusRows
                          Horph Hfree
                          (Forall2_right _ _ _ _ (fun _ _ Hrow => proj1 Hrow) Hcreated)
                          (Forall2_right _ _ _ _ (fun _ _ Hrow => proj1 Hrow) Hmodified)
                          (Forall2_right _ _ _ _ (fun _ _ Hrow => proj1 Hrow) Hstatus)).
    destruct (getRollbackPlan_active _ _ _ Hdetails eq_refl
                (rows_parse _ _ _ _ Hmodified Hstates)) as (restored & Hrestored & ->).
    eexists. split; [reflexivity|]. cbn in Hrestored |- *.
    destruct (status_actions_for_rows _ _ _ Hstatus) as [Hrevert Hwarn].
    split_and!; [done | exact Hop | | exact Hwarn].
    rewrite (cancel_for_rows _ _ _ Hcreated), Hrevert.
    by rewrite (restored_for_rows _ _ _ _ _ Hmodified Hstates Hrestored).
  - exfalso. rewrite Hsplit in Hstates.
    apply Forall2_app_inv_l in Hstates as (s1 & s2 & _ & Hitem & _).
    inversion Hitem as [|? v ? ? (text & Htext & _) _]; subst. congruence.
Qed.

End NewSnapshotPlans.

Section RollbackCommandMore.
Import SnapshotRepository SnapshotManager Rollback.
Context {JSValue : Type} {H : Host JSValue}.
Variable client : list (ClientCall JSValue) -> ClientCall JSValue
                  -> Completion Thrown ExecutionResult.t.

Lemma rollbackCommand_missing (authToken : option string) (env : Env.t) (id : string)
    (options : RollbackOptions) (w : World JSValue) :
  authenticated authToken ->
  getSnapshot (db w) id = None ->
  rollbackCommand client authToken env id options w =
    (failure id ("Snapshot not found: " +:+ id), w).
Proof.
  intros Hauth Hnone. unfold rollbackCommand.
  rewrite (authenticated_check _ Hauth).
  rewrite (proj2 (getRollbackPlan_null (db w) id)) by (by left). by rewrite Hnone.
Qed.

Lemma rollbackCommand_already (authToken : option string) (env : Env.t) (id : string)
    (options : RollbackOptions) (w : World JSValue) (snapshot : Snapshot.t) :
  authenticated authToken ->
  getSnapshot (db w) id = Some snapshot ->
  Snapshot.status snapshot <> "active" ->
  rollbackCommand client authToken env id options w =
    (failure id ("Snapshot already rolled back: " +:+ id), w).
Proof.
  intros Hauth Hs Hstatus. unfold rollbackCommand.
  rewrite (authenticated_check _ Hauth).
  rewrite (proj2 (getRollbackPlan_null (db w) id)) by (right; eauto).
  rewrite Hs. by rewrite bool_decide_eq_true_2.
Qed.

(** X20.  The refusals of [rollbackCommand], each with its message and
    without any change to the database or any command sent.  Without an
    auth token (none, or an empty one): the authentication message, also
    for a snapshot that does not exist.  With a token: ['Snapshot not
    found: <id>'] for an id that is not stored, and ['Snapshot already
    rolled back: <id>'] for a stored snapshot whose status is not
    ['active'], whichever status that is. *)
Theorem rollbackCommand_refusals (authToken : option string) (env : Env.t) (id : string)
    (options : RollbackOptions) (w : World JSValue) :
  (authToken = None \/ authToken = Some EmptyString ->
   rollbackCommand client authToken env id options w =
     (failure id ("Authentication required. Run " +:+ dquote
                  +:+ "things3 auth setup <token>" +:+ dquote +:+ " first."), w))
  /\ (authenticated authToken ->
      getSnapshot (db w) id = None ->
      rollbackCommand client authToken env id options w =
        (failure id ("Snapshot not found: " +:+ id), w))
  /\ (authenticated authToken ->
      forall snapshot,
        getSnapshot (db w) id = Some snapshot ->
        Snapshot.status snapshot <> "active" ->
        rollbackCommand client authToken env id options w =
          (failure id ("Snapshot already rolled back: " +:+ id), w)).
Proof.
  split_and!.
  - intros [->| ->]; reflexivity.
  - apply rollbackCommand_missing.
  - intros Hauth snapshot. by apply rollbackCommand_already.
Qed.

(** X21.  A stored previous state that is not JSON stops the rollback before
    it starts.  When the first modified item of an active snapshot whose
    [previousState] does not parse throws [e], [getRollbackPlan] throws [e],
    and [rollbackCommand], dry run or not, returns the failure with the
    message of [e]: no command is sent and the snapshot stays ['active']. *)
Theorem rollbackCommand_unparseable_state (authToken : option string) (env : Env.t)
    (id : string) (options : RollbackOptions) (w : World JSValue)
    (details : SnapshotDetails.t) (stored : list SnapshotModifiedItem.t)
    (item : SnapshotModifiedItem.t) (rest : list SnapshotModifiedItem.t) (e : Thrown) :
  authenticated authToken ->
  getSnapshotDetails (db w) id = Some details ->
  SnapshotDetails.status details = "active" ->
  SnapshotDetails.modifiedItems details = stored ++ item :: rest ->
  Forall parseable stored ->
  JSON_parse (SnapshotModifiedItem.previousState item) = Threw e ->
  getRollbackPlan (db w) id = Threw e
  /\ rollbackCommand client authToken env id options w = (caught id e, w).
Proof.
  intros Hauth Hdetails Hactive Hitems Hok He.
  assert (Hplan : getRollbackPlan (db w) id = Threw e).
  { unfold getRollbackPlan. rewrite Hdetails.
    rewrite bool_decide_eq_false_2 by (intros Hn; by apply Hn).
    rewrite Hitems. by rewrite (push_restore_actions_first_failure stored item rest _ e). }
  split; [exact Hplan|]. unfold rollbackCommand.
  by rewrite (authenticated_check _ Hauth), Hplan.
Qed.


(** The database after an executed rollback: the status of the snapshot is
    the outcome, and a second run is refused. *)
Lemma rollbackCommand_marks (authToken : option string) (env : Env.t) (id : string)
    (options : RollbackOptions) (w : World JSValue) (plan : RollbackPlan JSValue) :
  authenticated authToken ->
  dryRun options = false ->
  getRollbackPlan (db w) id = Returned (Some plan) ->
  let p := execute_actions client (dispatched w) (actions plan) in
  let w' := (rollbackCommand client authToken env id options w).2 in
  dispatched w' = sent p
  /\ Snapshot.status <$> getSnapshot (db w') id = Some (final_status (itemsFailed p))
  /\ forall env' options',
       rollbackCommand client authToken env' id options' w' =
         (failure id ("Snapshot already rolled back: " +:+ id), w').
Proof.
  intros Hauth Hdry Hplan p w'.
  pose proof (rollbackCommand_execute client authToken env id options w plan Hauth Hdry Hplan)
    as Hrun. cbn zeta in Hrun. fold p in Hrun.
  destruct (getRollbackPlan_returned (db w) id plan Hplan)
    as (details & _ & Hdetails & Hactive & _).
  pose proof (getSnapshotDetails_snapshot _ _ _ Hdetails) as Hs.
  pose proof (getSnapshot_updateSnapshotStatus env id (final_status (itemsFailed p)) (db w) _ Hs)
    as Hs'.
  subst w'. rewrite Hrun. cbn [snd db dispatched]. unfold markRolledBack.
  split; [done|]. split; [by rewrite Hs'|].
  intros env' options'. eapply rollbackCommand_already; [done | exact Hs' |].
  cbn. destruct (itemsFailed p); discriminate.
Qed.

(** X22.  Rolling back an add, from the creation of the snapshot to the
    second attempt.  [rollbackCommand] on the snapshot that
    [createAddSnapshot] has just written sends exactly one command,
    [cancelTodo] on the recorded id.  It reports success, with one item
    rolled back, and marks the snapshot ['rolled-back'] exactly when
    Things accepts the command; otherwise it counts one failure and marks
    ['partial-rollback'].  Either way a later [rollbackCommand] on the same
    snapshot is refused as already rolled back and changes nothing. *)
Theorem rollback_of_added_item (authToken : option string) (env env' : Env.t)
    (data : AddSnapshotData) (database : DB) (earlier : list (ClientCall JSValue))
    (options : RollbackOptions) :
  no_orphans database ->
  snapshots database !! generateSnapshotId env = None ->
  authenticated authToken ->
  dryRun options = false ->
  let id := generateSnapshotId env in
  let w := {| db := (createAddSnapshot env data database).2; dispatched := earlier |} in
  let call := cancelTodo (add_thingsId data) in
  let accepted :=
    match client earlier call with
    | Returned result => ExecutionResult.success result
    | Threw _ => false
    end in
  let outcome := rollbackCommand client authToken env' id options w in
  success outcome.1 = accepted
  /\ (RollbackResult.itemsRolledBack <$> result outcome.1)
     = Some (if accepted then 1%nat else 0%nat)
  /\ (RollbackResult.itemsFailed <$> result outcome.1)
     = Some (if accepted then 0%nat else 1%nat)
  /\ dispatched outcome.2 = earlier ++ [call]
  /\ Snapshot.status <$> getSnapshot (db outcome.2) id
     = Some (if accepted then "rolled-back" else "partial-rollback")
  /\ forall env'' options',
       rollbackCommand client authToken env'' id options' outcome.2 =
         (failure id ("Snapshot already rolled back: " +:+ id), outcome.2).
Proof.
  intros Horph Hfree Hauth Hdry id w call accepted outcome.
  destruct (new_add_plan env database data Horph Hfree)
    as (plan & Hplan & _ & _ & Hactions & _).
  pose proof (rollbackCommand_execute client authToken env' id options w plan Hauth Hdry Hplan)
    as Hrun.
  destruct (rollbackCommand_marks authToken env' id options w plan Hauth Hdry Hplan)
    as (Hsent & Hstatus & Hagain).
  cbn zeta in Hrun, Hsent, Hstatus, Hagain. fold outcome in Hsent, Hstatus, Hagain, Hrun.
  rewrite Hactions in *.
  assert (Hp : let p := execute_actions client (dispatched w) [cancel (add_thingsId data) (add_itemType data)] in
               itemsRolledBack p = (if accepted then 1%nat else 0%nat)
               /\ itemsFailed p = (if accepted then 0%nat else 1%nat)
               /\ sent p = earlier ++ [call]).
  { unfold execute_actions, accepted, call. cbn. unfold dispatch. cbn.
    destruct (client earlier (cancelTodo (add_thingsId data))) as [r|[m|]]; cbn; [|done|done].
    unfold classify. cbn. by destruct (ExecutionResult.success r). }
  cbn zeta in Hp. destruct Hp as (Hok & Hfail & Hcalls).
  rewrite Hrun. cbn [fst snd success result]. rewrite Hrun in Hsent, Hstatus, Hagain.
  cbn [fst snd] in Hsent, Hstatus, Hagain.
  rewrite Hfail in *. rewrite Hok. cbn [fmap option_fmap option_map RollbackResult.itemsRolledBack RollbackResult.itemsFailed].
  split_and!.
  - by destruct accepted.
  - done.
  - done.
  - by rewrite Hsent, Hcalls.
  - rewrite Hstatus. by destruct accepted.
  - exact Hagain.
Qed.

(** X23.  Rolling back a cancellation does nothing and reports success.
    [rollbackCommand] on the snapshot that [createStatusChangeSnapshot] has
    just written for a change to ['canceled'] sends no command, returns
    [success: true] with no item rolled back and none failed, carries the
    warning that cancellation is irreversible, and marks the snapshot
    ['rolled-back']. *)
Theorem rollback_of_canceled_item (authToken : option string) (env env' : Env.t)
    (data : StatusChangeData) (database : DB) (earlier : list (ClientCall JSValue))
    (options : RollbackOptions) :
  no_orphans database ->
  snapshots database !! generateSnapshotId env = None ->
  sc_newStatus data = "canceled" ->
  authenticated authToken ->
  dryRun options = false ->
  let id := generateSnapshotId env in
  let w := {| db := (createStatusChangeSnapshot env data database).2;
              dispatched := earlier |} in
  let outcome := rollbackCommand client authToken env' id options w in
  success outcome.1 = true
  /\ result outcome.1
     = Some {| RollbackResult.success := true; RollbackResult.snapshotId := id;
               RollbackResult.itemsRolledBack := 0; RollbackResult.itemsFailed := 0;
               RollbackResult.errors := [] |}
  /\ Rollback.warnings outcome.1 = Some [canceled_warning (sc_thingsId data)]
  /\ dispatched outcome.2 = earlier
  /\ Snapshot.status <$> getSnapshot (db outcome.2) id = Some "rolled-back".
Proof.
  intros Horph Hfree Hcanceled Hauth Hdry id w outcome.
  destruct (new_status_plan env database data Horph Hfree) as (plan & Hplan & _ & Hcase).
  rewrite bool_decide_eq_true_2 in Hcase by done. destruct Hcase as [Hactions Hwarnings].
  pose proof (rollbackCommand_execute client authToken env' id options w plan Hauth Hdry Hplan)
    as Hrun.
  destruct (rollbackCommand_marks authToken env' id options w plan Hauth Hdry Hplan)
    as (Hsent & Hstatus & _).
  cbn zeta in Hrun, Hsent, Hstatus. fold outcome in Hsent, Hstatus, Hrun.
  rewrite Hactions, Hwarnings in *. cbn in Hrun, Hsent, Hstatus.
  rewrite Hrun. cbn. rewrite Hrun in Hsent, Hstatus. cbn in Hsent, Hstatus.
  split_and!; done.
Qed.

End RollbackCommandMore.

Section NewSnapshotWitnesses.
Import MiniJS SnapshotRepository SnapshotManager Rollback Examples MoreExamples.

Lemma plan_of_new_snapshot_witness :
  exists plan : RollbackPlan value,
    getRollbackPlan (createAddSnapshot env0 added_task empty_db).2 (generateSnapshotId env0)
    = Returned (Some plan)
    /\ plan_snapshotId plan = generateSnapshotId env0
    /\ plan_operationType plan = "add"
    /\ actions plan = [cancel (add_thingsId added_task) (add_itemType added_task)]
    /\ SnapshotManager.warnings plan = [].
Proof.
  destruct (plan_of_new_snapshot (H:=host) env0 empty_db) as (Hadd & _);
    [apply well_formed_empty | reflexivity |].
  apply Hadd.
Defined.

(** The bulk operation of [Examples.mixed_bulk]: two created items, one
    modified item, three status changes of which one is a cancellation. *)
Lemma plan_of_new_bulk_snapshot_witness :
  exists plan : RollbackPlan value,
    getRollbackPlan (createBulkSnapshot env0 mixed_bulk empty_db).2 (generateSnapshotId env0)
    = Returned (Some plan)
    /\ action_name <$> actions plan
       = ["cancel"; "cancel"; "restore"; "revert-status"; "revert-status"]
    /\ length (SnapshotManager.warnings plan) = 1%nat.
Proof.
  destruct (plan_of_new_bulk_snapshot (H:=host) env0 empty_db mixed_bulk
              [VObject [("title", VString "Old")]])
    as (plan & Hplan & _ & _ & Hactions & Hwarnings).
  - apply well_formed_empty.
  - reflexivity.
  - repeat constructor. eexists. split; [vm_compute; reflexivity|]. vm_compute. reflexivity.
  - exists plan. split; [exact Hplan|]. rewrite Hactions, Hwarnings. split; reflexivity.
Defined.

(** The one modified item of [db_corrupt] holds [{oops]. *)
Lemma rollbackCommand_unparseable_state_witness :
  getRollbackPlan db_corrupt snap0 = Threw syntax_error
  /\ rollbackCommand accepting (Some "token") env1 snap0 execute (world db_corrupt)
     = (caught snap0 syntax_error, world db_corrupt).
Proof.
  destruct (getSnapshotDetails db_corrupt snap0) as [details|] eqn:Hdetails;
    [|vm_compute in Hdetails; discriminate].
  pose proof Hdetails as Hvalue. vm_compute in Hvalue. injection Hvalue as Hvalue.
  apply (rollbackCommand_unparseable_state accepting (Some "token") env1 snap0 execute
           (world db_corrupt) details []
           {| SnapshotModifiedItem.id := 1;
              SnapshotModifiedItem.snapshotId := snap0;
              SnapshotModifiedItem.thingsId := "things-123";
              SnapshotModifiedItem.itemType := "to-do";
              SnapshotModifiedItem.previousState := "{oops";
              SnapshotModifiedItem.modifiedFields := "[]" |}
           [] syntax_error).
  - exists "token". split; [reflexivity | discriminate].
  - exact Hdetails.
  - rewrite <- Hvalue. reflexivity.
  - rewrite <- Hvalue. reflexivity.
  - constructor.
  - vm_compute. reflexivity.
Defined.

(** The added to-do of [Examples.added_task], rolled back against an
    application that accepts every command. *)
Lemma rollback_of_added_item_witness :
  let w := {| db := (createAddSnapshot env0 added_task empty_db).2; dispatched := [] |} in
  let outcome :=
    rollbackCommand accepting (Some "token") env1 (generateSnapshotId env0) execute w in
  dispatched outcome.2 = [cancelTodo (add_thingsId added_task)]
  /\ Snapshot.status <$> getSnapshot (db outcome.2) (generateSnapshotId env0)
     = Some "rolled-back".
Proof.
  destruct (rollback_of_added_item accepting (Some "token") env0 env1 added_task empty_db []
              execute) as (_ & _ & _ & Hsent & Hstatus & _).
  - apply well_formed_empty.
  - reflexivity.
  - exists "token". split; [reflexivity | discriminate].
  - reflexivity.
  - split; [exact Hsent | exact Hstatus].
Defined.

(** The canceled to-do of [Examples.canceled_task]. *)
Lemma rollback_of_canceled_item_witness :
  let w := {| db := (createStatusChangeSnapshot env0 canceled_task empty_db).2;
              dispatched := [] |} in
  let outcome :=
    rollbackCommand refusing (Some "token") env1 (generateSnapshotId env0) execute w in
  success outcome.1 = true
  /\ dispatched outcome.2 = []
  /\ Snapshot.status <$> getSnapshot (db outcome.2) (generateSnapshotId env0)
     = Some "rolled-back".
Proof.
  destruct (rollback_of_canceled_item refusing (Some "token") env0 env1 canceled_task
              empty_db [] execute) as (Hok & _ & _ & Hsent & Hstatus).
  - apply well_formed_empty.
  - reflexivity.
  - reflexivity.
  - exists "token". split; [reflexivity | discriminate].
  - reflexivity.
  - split; [exact Hok | split; [exact Hsent | exact Hstatus]].
Defined.

End NewSnapshotWitnesses.

(** ** Transactions *)

Section TransactionFacts.
Import Connection.

(** X24.  [withTransaction] does not nest.  Called on a connection that has
    a transaction open, it throws SQLite's error at its [BEGIN] and leaves
    the connection as it is: [fn] is not run, and no [ROLLBACK] is issued,
    the [BEGIN] being outside the [try].  So [withTransaction] around
    [withTransaction(fn)] on an idle connection always throws that error,
    with the database as it was and no transaction open, whatever [fn]
    is. *)
Theorem withTransaction_nested {A : Type} (fn : Stateful Connection.t A) :
  (forall c saved,
     at_begin c = Some saved ->
     withTransaction fn c =
       (Threw (ErrorObject "cannot start a transaction within a transaction"), c))
  /\ (forall db,
        withTransaction (withTransaction fn) (Connection.open db) =
          (Threw (ErrorObject "cannot start a transaction within a transaction"),
           Connection.open db)).
Proof.
  split.
  - intros c saved Hopen. unfold withTransaction, begin_transaction. by rewrite Hopen.
  - intros db. reflexivity.
Qed.

End TransactionFacts.

(** ** Tokens *)

Section TokenFacts.
Import Auth.

Lemma maskToken_length (token : list N) : length (maskToken token) = length token.
Proof.
  unfold maskToken. case_bool_decide as Hnil; [by subst|].
  case_bool_decide as Hshort; [by rewrite length_replicate|].
  rewrite length_app, length_take, length_replicate. lia.
Qed.

Lemma maskToken_long (token : list N) :
  (4 < length token)%nat ->
  maskToken token = take 4 token ++ replicate (length token - 4) asterisk.
Proof.
  intros Hlong. unfold maskToken.
  rewrite bool_decide_eq_false_2 by (intros ->; cbn in Hlong; lia).
  by rewrite bool_decide_eq_false_2 by lia.
Qed.

Lemma maskToken_short (token : list N) :
  (length token <= 4)%nat -> maskToken token = replicate (length token) asterisk.
Proof.
  intros Hshort. unfold maskToken. case_bool_decide as Hnil; [by subst|].
  by rewrite bool_decide_eq_true_2.
Qed.

(** X25.  [maskToken] keeps the length of the token and shows at most its
    first four code units: everything from the fifth on is ['*'], a token
    of four code units or fewer is all ['*'], a longer one keeps its first
    four.  Masking twice is masking once, and two tokens of one length
    (with the same first four code units, if longer than four) have the
    same mask. *)
Theorem maskToken_shows_four_code_units (token : list N) :
  length (maskToken token) = length token
  /\ drop 4 (maskToken token) = replicate (length token - 4) asterisk
  /\ ((4 < length token)%nat -> take 4 (maskToken token) = take 4 token)
  /\ ((length token <= 4)%nat -> maskToken token = replicate (length token) asterisk)
  /\ maskToken (maskToken token) = maskToken token
  /\ (forall other,
        length other = length token ->
        ((4 < length token)%nat -> take 4 other = take 4 token) ->
        maskToken other = maskToken token).
Proof.
  assert (Hdrop : drop 4 (maskToken token) = replicate (length token - 4) asterisk).
  { destruct (decide (length token <= 4)%nat) as [Hshort|Hlong].
    - rewrite maskToken_short by done. rewrite drop_replicate.
      replace (length token - 4)%nat with 0%nat by lia. done.
    - rewrite maskToken_long by lia. rewrite drop_app_length'; [done|].
      rewrite length_take. lia. }
  split_and!.
  - apply maskToken_length.
  - exact Hdrop.
  - intros Hlong. rewrite maskToken_long by done.
    rewrite take_app_length'; [done|]. rewrite length_take. lia.
  - apply maskToken_short.
  - destruct (decide (length token <= 4)%nat) as [Hshort|Hlong].
    + rewrite (maskToken_short token) by done.
      rewrite maskToken_short by (rewrite length_replicate; lia).
      by rewrite length_replicate.
    + rewrite (maskToken_long token) by lia.
      rewrite maskToken_long by (rewrite length_app, length_take, length_replicate; lia).
      rewrite length_app, length_take, length_replicate.
      rewrite take_app_length' by (rewrite length_take; lia).
      f_equal. f_equal. lia.
  - intros other Hlen Hhead.
    destruct (decide (length token <= 4)%nat) as [Hshort|Hlong].
    + rewrite !maskToken_short by lia. by rewrite Hlen.
    + rewrite !maskToken_long by lia. rewrite Hlen, Hhead by lia. done.
Qed.


Lemma trimStart_split (s : list N) :
  exists pre, s = pre ++ trimStart s /\ Forall (fun c => is_white_space c = true) pre.
Proof.
  induction s as [|c s (pre & Hs & Hpre)]; [by exists []|]. cbn [trimStart].
  destruct (is_white_space c) eqn:Hc.
  - exists (c :: pre). split; [cbn; by rewrite <- Hs | by constructor].
  - by exists [].
Qed.

Lemma trimEnd_split (s : list N) :
  exists suf, s = trimEnd s ++ suf /\ Forall (fun c => is_white_space c = true) suf.
Proof.
  unfold trimEnd. destruct (trimStart_split (reverse s)) as (pre & Hs & Hpre).
  exists (reverse pre). split.
  - rewrite <- reverse_app, <- Hs. by rewrite reverse_involutive.
  - by apply Forall_reverse.
Qed.

Lemma trim_split (s : list N) :
  exists pre suf,
    s = pre ++ trim s ++ suf
    /\ Forall (fun c => is_white_space c = true) pre
    /\ Forall (fun c => is_white_space c = true) suf.
Proof.
  destruct (trimStart_split s) as (pre & Hs & Hpre).
  destruct (trimEnd_split (trimStart s)) as (suf & Ht & Hsuf).
  exists pre, suf. unfold trim. by rewrite <- Ht.
Qed.

Lemma token_char_not_white (c : N) : is_token_char c = true -> is_white_space c = false.
Proof.
  unfold is_token_char, is_white_space. intros Hc.
  rewrite !orb_true_iff, !andb_true_iff, !N.leb_le, !N.eqb_eq in Hc.
  apply not_true_is_false. rewrite !orb_true_iff, !andb_true_iff, !N.leb_le, !N.eqb_eq.
  lia.
Qed.

Lemma trimStart_id (s : list N) :
  Forall (fun c => is_white_space c = false) s -> trimStart s = s.
Proof. destruct 1 as [|c s Hc _]; [done|]. cbn. by rewrite Hc. Qed.

Lemma trim_id (s : list N) :
  Forall (fun c => is_white_space c = false) s -> trim s = s.
Proof.
  intros Hs. unfold trim, trimEnd. rewrite (trimStart_id s Hs).
  rewrite trimStart_id by (by apply Forall_reverse). apply reverse_involutive.
Qed.

Lemma forallb_Forall {A} (f : A -> bool) (l : list A) :
  forallb f l = true <-> Forall (fun x => f x = true) l.
Proof.
  induction l as [|x l IH]; cbn; [by split; [constructor|]|].
  rewrite andb_true_iff, IH, Forall_cons. done.
Qed.

Lemma filter_replicate_same (n : nat) (c : N) :
  filter (fun x => x = c) (replicate n c) = replicate n c.
Proof.
  induction n as [|n IH]; [done|]. cbn [replicate].
  rewrite filter_cons_True by done. by rewrite IH.
Qed.

(** X26.  A token that [isValidTokenFormat] accepts has at least eight code
    units after trimming, all of them in [[a-zA-Z0-9_-]], and is accepted
    again once trimmed.  It holds no ['*'], so its mask hides it from the
    fifth code unit on: the mask agrees with the token on no position past
    the fourth, and has at least four ['*']. *)
Theorem accepted_token_is_masked (token : list N) :
  isValidTokenFormat token = true ->
  (8 <= length (trim token) <= length token)%nat
  /\ Forall (fun c => is_token_char c = true) (trim token)
  /\ isValidTokenFormat (trim token) = true
  /\ (asterisk ∉ token)
  /\ (forall i c, maskToken token !! i = Some c -> token !! i = Some c -> (i < 4)%nat)
  /\ (4 <= length (filter (fun c => c = asterisk) (maskToken token)))%nat.
Proof.
  unfold isValidTokenFormat. cbn zeta.
  intros [Hlen%bool_decide_eq_true_1 Hchars'%forallb_Forall]%andb_true_iff.
  destruct (trim_split token) as (pre & suf & Hsplit & Hpre & Hsuf).
  assert (Hlong : (length (trim token) <= length token)%nat).
  { rewrite Hsplit at 2. rewrite !length_app. lia. }
  assert (Hnostar : asterisk ∉ token).
  { rewrite Hsplit. rewrite !elem_of_app. intros [Hin|[Hin|Hin]].
    - rewrite Forall_forall in Hpre. by specialize (Hpre _ Hin).
    - rewrite Forall_forall in Hchars'. by specialize (Hchars' _ Hin).
    - rewrite Forall_forall in Hsuf. by specialize (Hsuf _ Hin). }
  split_and!.
  - lia.
  - lia.
  - exact Hchars'.
  - rewrite trim_id.
    + rewrite bool_decide_eq_true_2 by done. cbn. by apply forallb_Forall.
    + eapply Forall_impl; [exact Hchars'|]. apply token_char_not_white.
  - exact Hnostar.
  - intros i c Hmask Htoken. destruct (decide (i < 4)%nat) as [|Hge]; [done|].
    exfalso. rewrite maskToken_long in Hmask by lia.
    rewrite lookup_app_r in Hmask by (rewrite length_take; lia).
    apply lookup_replicate in Hmask as [-> _].
    apply Hnostar. by eapply list_elem_of_lookup_2.
  - rewrite maskToken_long by lia. rewrite filter_app, length_app.
    rewrite filter_replicate_same, length_replicate. lia.
Qed.

End TokenFacts.

Section TokenWitnesses.
Import Auth MoreExamples.

Lemma accepted_token_is_masked_witness :
  (8 <= length (trim sample_token) <= length sample_token)%nat
  /\ Forall (fun c => is_token_char c = true) (trim sample_token)
  /\ isValidTokenFormat (trim sample_token) = true
  /\ (asterisk ∉ sample_token)
  /\ (forall i c,
        maskToken sample_token !! i = Some c -> sample_token !! i = Some c -> (i < 4)%nat)
  /\ (4 <= length (filter (fun c => c = asterisk) (maskToken sample_token)))%nat.
Proof.
  apply (accepted_token_is_masked sample_token). reflexivity.
Defined.

End TokenWitnesses.

(** ** The adding commands *)

Section AddCommandFacts.
Import SnapshotRepository SnapshotManager AddCommand.
Context {JSValue : Type} {H : Host JSValue}.
Variable addTodo : string -> AddOptions.t -> Completion Thrown UrlExecutor.Outcome.
Variable addProject : string -> AddProjectOptions.t -> Completion Thrown UrlExecutor.Outcome.

Lemma record_snapshot_skipped (dryRun : bool) (result : UrlExecutor.Outcome)
    (create : Stateful DB (option Snapshot.t)) (db : DB) :
  dryRun = true \/ ExecutionResult.success (UrlExecutor.result result) = false ->
  record_snapshot dryRun result create db = (None, db).
Proof.
  unfold record_snapshot. intros [-> | ->]; [done|]. by rewrite andb_false_r.
Qed.

(** X27.  What [addCommand] and [addProjectCommand] record; each statement
    holds of both commands.  A rejection of the client call rejects the
    command and writes nothing.  A dry run, or a call that Things did not
    accept, returns the result of the call without a snapshot id and writes
    nothing.  So does an accepted call whose generated snapshot id is
    taken: the failure of the snapshot is swallowed.  Otherwise, on a
    database without orphan rows, the command returns the generated id, and
    the snapshot it has written records the new item under the id
    ['pending'] (with the option [listId] as parent for a to-do, without a
    parent for a project): its rollback plan is one ['cancel'] action on
    ['pending'], not on the item that Things created. *)
Theorem add_commands_record_pending_items (env : Env.t) (title : string)
    (options : AddOptions.t) (projectOptions : AddProjectOptions.t) (db : DB) :
  let id := generateSnapshotId env in
  (forall e, addTodo title options = Threw e ->
             addCommand addTodo env title options db = (Threw e, db))
  /\ (forall e, addProject title projectOptions = Threw e ->
                addProjectCommand addProject env title projectOptions db = (Threw e, db))
  /\ (forall result,
        addTodo title options = Returned result ->
        AddOptions.dryRun options = true
        \/ ExecutionResult.success (UrlExecutor.result result) = false ->
        addCommand addTodo env title options db =
          (Returned {| execution := result; AddCommand.title := title; snapshotId := None |},
           db))
  /\ (forall result,
        addProject title projectOptions = Returned result ->
        AddProjectOptions.dryRun projectOptions = true
        \/ ExecutionResult.success (UrlExecutor.result result) = false ->
        addProjectCommand addProject env title projectOptions db =
          (Returned {| execution := result; AddCommand.title := title; snapshotId := None |},
           db))
  /\ (forall result,
        addTodo title options = Returned result ->
        AddOptions.dryRun options = false ->
        ExecutionResult.success (UrlExecutor.result result) = true ->
        is_Some (snapshots db !! id) ->
        addCommand addTodo env title options db =
          (Returned {| execution := result; AddCommand.title := title; snapshotId := None |},
           db))
  /\ (forall result,
        addProject title projectOptions = Returned result ->
        AddProjectOptions.dryRun projectOptions = false ->
        ExecutionResult.success (UrlExecutor.result result) = true ->
        is_Some (snapshots db !! id) ->
        addProjectCommand addProject env title projectOptions db =
          (Returned {| execution := result; AddCommand.title := title; snapshotId := None |},
           db))
  /\ (forall result,
        addTodo title options = Returned result ->
        AddOptions.dryRun options = false ->
        ExecutionResult.success (UrlExecutor.result result) = true ->
        snapshots db !! id = None ->
        no_orphans db ->
        exists db' details (plan : RollbackPlan JSValue),
          addCommand addTodo env title options db =
            (Returned {| execution := result; AddCommand.title := title;
                         snapshotId := Some id |}, db')
          /\ getSnapshotDetails db' id = Some details
          /\ SnapshotDetails.operationType details = "add"
          /\ SnapshotCreatedItem.thingsId <$> SnapshotDetails.createdItems details
             = ["pending"]
          /\ SnapshotCreatedItem.parentId <$> SnapshotDetails.createdItems details
             = [AddOptions.listId options]
          /\ getRollbackPlan db' id = Returned (Some plan)
          /\ actions plan = [cancel "pending" "to-do"])
  /\ (forall result,
        addProject title projectOptions = Returned result ->
        AddProjectOptions.dryRun projectOptions = false ->
        ExecutionResult.success (UrlExecutor.result result) = true ->
        snapshots db !! id = None ->
        no_orphans db ->
        exists db' details (plan : RollbackPlan JSValue),
          addProjectCommand addProject env title projectOptions db =
            (Returned {| execution := result; AddCommand.title := title;
                         snapshotId := Some id |}, db')
          /\ getSnapshotDetails db' id = Some details
          /\ SnapshotDetails.operationType details = "add-project"
          /\ SnapshotCreatedItem.thingsId <$> SnapshotDetails.createdItems details
             = ["pending"]
          /\ SnapshotCreatedItem.parentId <$> SnapshotDetails.createdItems details
             = [None]
          /\ getRollbackPlan db' id = Returned (Some plan)
          /\ actions plan = [cancel "pending" "project"]).
Proof.
  intros id. subst id. split_and!.
  - intros e He. unfold addCommand. by rewrite He.
  - intros e He. unfold addProjectCommand. by rewrite He.
  - intros result Hr Hskip. unfold addCommand. rewrite Hr.
    by rewrite record_snapshot_skipped.
  - intros result Hr Hskip. unfold addProjectCommand. rewrite Hr.
    by rewrite record_snapshot_skipped.
  - intros result Hr Hdry Hok Htaken. unfold addCommand, record_snapshot.
    rewrite Hr, Hdry, Hok. cbn [negb andb].
    destruct (create_taken env db Htaken) as (-> & _). done.
  - intros result Hr Hdry Hok Htaken. unfold addProjectCommand, record_snapshot.
    rewrite Hr, Hdry, Hok. cbn [negb andb].
    destruct (create_taken env db Htaken) as (_ & -> & _). done.
  - intros result Hr Hdry Hok Hfree Horph. unfold addCommand, record_snapshot.
    rewrite Hr, Hdry, Hok. cbn [negb andb].
    match goal with |- context [createAddSnapshot env ?d db] => set (data := d) end.
    destruct (new_add_plan env db data Horph Hfree) as (plan & Hplan & _ & _ & Hactions & _).
    destruct (createAddSnapshot_free env data db Hfree)
      as (input & row & Hrun & Hop & Hid & Hthings & Htype & Htitle & Hparent).
    rewrite Hrun in Hplan |- *. cbn [snd] in Hplan.
    eexists _, _, plan. split; [reflexivity|].
    split; [apply (getSnapshotDetails_new env input db [row] [] [] Horph Hfree);
            repeat constructor; done|].
    cbn. rewrite Hthings, Hparent. split_and!; done.
  - intros result Hr Hdry Hok Hfree Horph. unfold addProjectCommand, record_snapshot.
    rewrite Hr, Hdry, Hok. cbn [negb andb].
    match goal with |- context [createAddProjectSnapshot env ?d db] => set (data := d) end.
    destruct (new_project_plan env db data Horph Hfree)
      as (plan & Hplan & _ & _ & Hactions & _).
    destruct (createAddProjectSnapshot_free env data db Hfree)
      as (input & row & Hrun & Hop & Hid & Hthings & Htype & Htitle & Hparent).
    rewrite Hrun in Hplan |- *. cbn [snd] in Hplan.
    eexists _, _, plan. split; [reflexivity|].
    split; [apply (getSnapshotDetails_new env input db [row] [] [] Horph Hfree);
            repeat constructor; done|].
    cbn. rewrite Hthings, Hparent. split_and!; done.
Qed.

End AddCommandFacts.
